(** * bbdc_cli: the Bitbucket Data Center client

    A shallow embedding of [src/bbdc_cli/__main__.py]: the configuration
    helpers [_env], [_norm_base] and [client], and the two methods of
    [BitbucketClient], [request] and [paged_get].

    Python values are modelled by the inductive type [value]; Python
    dictionaries by stdpp's [gmap string value]; the dictionaries that the
    code copies and mutates ([params] in [paged_get]) live in an object
    store indexed by locations, so that aliasing is visible.  The HTTP
    library is an oracle: a function from the requests issued so far to the
    outcome of the newest one. *)

From Stdlib Require Import ZArith Ascii String List Lia.
From stdpp Require Import base option list gmap strings pretty fin_maps.

Set Warnings "-register-all".
Local Open Scope Z_scope.

(** ** Strings

    Python [str] is modelled by [string], the sequence of bytes of its
    UTF-8 encoding (a byte of the environment that is not UTF-8 stands for
    itself, as with the [surrogateescape] handler).  A lead byte never
    occurs inside the encoding of another character, so a character is
    found at either end of a string by comparing bytes. *)

Module Str.

Definition is_empty (s : string) : bool :=
  match s with EmptyString => true | String _ _ => false end.

(** [s.lstrip(c)] for a one-character set. *)
Fixpoint lstrip (c : ascii) (s : string) : string :=
  match s with
  | EmptyString => EmptyString
  | String a t => if Ascii.eqb a c then lstrip c t else s
  end.

(** [s.rstrip(c)] for a one-character set. *)
Fixpoint rstrip (c : ascii) (s : string) : string :=
  match s with
  | EmptyString => EmptyString
  | String a t =>
      let t' := rstrip c t in
      if is_empty t' && Ascii.eqb a c then EmptyString else String a t'
  end.

(** [s.startswith(p)]. *)
Fixpoint startswith (p s : string) : bool :=
  match p, s with
  | EmptyString, _ => true
  | String a p', String b s' => Ascii.eqb a b && startswith p' s'
  | String _ _, EmptyString => false
  end.

(** [s.endswith(suf)]. *)
Fixpoint endswith (s suf : string) : bool :=
  String.eqb s suf
  || match s with
     | EmptyString => false
     | String _ t => endswith t suf
     end.

(** [needle in s]. *)
Fixpoint contains (needle s : string) : bool :=
  startswith needle s
  || match s with
     | EmptyString => false
     | String _ t => contains needle t
     end.

(** The string of the given bytes. *)
Definition of_bytes (l : list N) : string :=
  fold_right (fun n s => String (ascii_of_N n) s) EmptyString l.

(** The characters [str.strip()] removes, those of [str.isspace], each in
    UTF-8: U+0009 to U+000D, U+001C to U+001F, the space, U+0085, U+00A0,
    U+1680, U+2000 to U+200A, U+2028, U+2029, U+202F, U+205F and
    U+3000. *)
Definition white_space : list string :=
  of_bytes <$>
    [ [0x09]; [0x0A]; [0x0B]; [0x0C]; [0x0D];
      [0x1C]; [0x1D]; [0x1E]; [0x1F]; [0x20];
      [0xC2; 0x85]; [0xC2; 0xA0];
      [0xE1; 0x9A; 0x80];
      [0xE2; 0x80; 0x80]; [0xE2; 0x80; 0x81]; [0xE2; 0x80; 0x82];
      [0xE2; 0x80; 0x83]; [0xE2; 0x80; 0x84]; [0xE2; 0x80; 0x85];
      [0xE2; 0x80; 0x86]; [0xE2; 0x80; 0x87]; [0xE2; 0x80; 0x88];
      [0xE2; 0x80; 0x89]; [0xE2; 0x80; 0x8A];
      [0xE2; 0x80; 0xA8]; [0xE2; 0x80; 0xA9]; [0xE2; 0x80; 0xAF];
      [0xE2; 0x81; 0x9F];
      [0xE3; 0x80; 0x80] ]%N.

(** [c] is one white-space character. *)
Definition is_space (c : string) : bool := existsb (String.eqb c) white_space.

(** [s.lstrip()]: a white-space character takes one, two or three bytes. *)
Fixpoint lstrip_space (s : string) : string :=
  match s with
  | EmptyString => EmptyString
  | String a t1 =>
      if is_space (String a "") then lstrip_space t1
      else
        match t1 with
        | EmptyString => s
        | String b t2 =>
            if is_space (String a (String b "")) then lstrip_space t2
            else
              match t2 with
              | EmptyString => s
              | String c t3 =>
                  if is_space (String a (String b (String c ""))) then lstrip_space t3
                  else s
              end
        end
  end.

(** [s.rstrip()]: once the rest is stripped, what is left is dropped when
    it is a single white-space character. *)
Fixpoint rstrip_space (s : string) : string :=
  match s with
  | EmptyString => EmptyString
  | String a t =>
      let r := String a (rstrip_space t) in
      if is_space r then EmptyString else r
  end.

(** [s.strip()]. *)
Definition strip (s : string) : string := rstrip_space (lstrip_space s).

(** [s.upper()] on ASCII letters; other bytes are kept. *)
Definition upper_char (a : ascii) : ascii :=
  let n := nat_of_ascii a in
  if (97 <=? n)%nat && (n <=? 122)%nat then ascii_of_nat (n - 32) else a.

Fixpoint upper (s : string) : string :=
  match s with
  | EmptyString => EmptyString
  | String a t => String (upper_char a) (upper t)
  end.

(** [s.lower()] on ASCII letters, used by the case-insensitive header
    lookup of the HTTP library. *)
Definition lower_char (a : ascii) : ascii :=
  let n := nat_of_ascii a in
  if (65 <=? n)%nat && (n <=? 90)%nat then ascii_of_nat (n + 32) else a.

Fixpoint lower (s : string) : string :=
  match s with
  | EmptyString => EmptyString
  | String a t => String (lower_char a) (lower t)
  end.

(** [c * n]: the string of [n] copies of [c]. *)
Fixpoint repeat (c : ascii) (n : nat) : string :=
  match n with O => EmptyString | S n' => String c (repeat c n') end.

End Str.

(** ** Python values and exceptions *)

(** The values that flow through the client: what [json.loads] produces,
    with numbers restricted to integers. *)
Inductive value : Type :=
| VNone
| VBool (b : bool)
| VInt (n : Z)
| VStr (s : string)
| VList (l : list value)
| VDict (d : gmap string value).

Abbreviation pydict := (gmap string value).

(** Truth value testing ([if v:]). *)
Definition truthy (v : value) : bool :=
  match v with
  | VNone => false
  | VBool b => b
  | VInt n => negb (n =? 0)
  | VStr s => negb (Str.is_empty s)
  | VList l => match l with [] => false | _ :: _ => true end
  | VDict d => negb (bool_decide (d = ∅))
  end.

(** The failures of the HTTP library that derive from
    [requests.RequestException]. *)
Inductive transport_failure : Type :=
| ConnectionRefused | ConnectTimeout | ReadTimeout | DNSFailure | TLSFailure
| OtherRequestException.

(** A [requests.RequestException] instance; [rex_str] is [str(e)]. *)
Record RequestException : Type := {
  rex_kind : transport_failure;
  rex_str : string;
}.

(** What a call can raise.  [BBError] is the only exception class the
    program defines; it carries one message, and [__cause__] when raised
    with [from e]. *)
Inductive exn : Type :=
| BBError (msg : string) (cause : option RequestException)
| JSONDecodeError
| AttributeError
| ForeignException (name : string).

Inductive outcome (A : Type) : Type :=
| Ok (a : A)
| Raise (e : exn).
Arguments Ok {A} a.
Arguments Raise {A} e.

(** ** Configuration *)

(** [os.getenv(name, default)] over an environment. *)
Definition os_getenv (environ : gmap string string) (name default : string) : string :=
  match environ !! name with Some v => v | None => default end.

Definition missing_variable_msg (name : string) : string :=
  "Missing environment variable " +:+ name +:+ ".".

Definition _env (environ : gmap string string) (name : string) : outcome string :=
  let v := Str.strip (os_getenv environ name "") in
  if Str.is_empty v then Raise (BBError (missing_variable_msg name) None)
  else Ok v.

Definition invalid_base_url_msg (server : string) : string :=
  "BITBUCKET_SERVER must end with '/rest' (example: https://host/bitbucket/rest). "
  +:+ "Got: " +:+ server.

Definition _norm_base (server : string) : outcome string :=
  let server := Str.rstrip "/" server in
  if negb (Str.endswith server "/rest") then
    Raise (BBError (invalid_base_url_msg server) None)
  else Ok server.

Record BitbucketClient : Type := {
  base_rest : string;
  token : string;
  timeout_s : Z;
}.

Definition api (self : BitbucketClient) : string :=
  base_rest self +:+ "/api/latest".

(** [client()]: the arguments of the constructor are evaluated left to
    right, so the server variable is read and checked before the token. *)
Definition client (environ : gmap string string) : outcome BitbucketClient :=
  match _env environ "BITBUCKET_SERVER" with
  | Raise e => Raise e
  | Ok server =>
      match _norm_base server with
      | Raise e => Raise e
      | Ok base =>
          match _env environ "BITBUCKET_API_TOKEN" with
          | Raise e => Raise e
          | Ok tok => Ok {| base_rest := base; token := tok; timeout_s := 30 |}
          end
      end
  end.

(** ** The HTTP exchange *)

(** What [requests.request] is called with.  [req_params] is the content of
    the [params] dictionary at the time of the call. *)
Record HttpRequest : Type := {
  req_method : string;
  req_url : string;
  req_headers : gmap string string;
  req_params : option pydict;
  req_json : option value;
  req_timeout : Z;
}.

(** A [requests.Response].  [headers] is keyed by lower-cased header name
    (the library's dictionary is case-insensitive); [json] is the result of
    [resp.json()], [None] when decoding raises. *)
Record Response : Type := {
  status_code : Z;
  headers : gmap string string;
  content : string;
  text : string;
  json : option value;
}.

(** The outcome of [requests.request(...)]. *)
Inductive transport_result : Type :=
| Responds (resp : Response)
| RaisesRequestException (e : RequestException)
| RaisesForeign (name : string).

(** Objects are referred to by location; the store holds the dictionaries
    that are shared between caller and callee. *)
Abbreviation loc := nat.

Record state : Type := {
  heap : gmap loc pydict;
  log : list HttpRequest;
}.

(** [resp.headers.get(name, default)]. *)
Definition headers_get (h : gmap string string) (name default : string) : string :=
  match h !! Str.lower name with Some v => v | None => default end.

(** [out[:k]] for an integer [k]: a negative bound counts from the end. *)
Definition slice_to {A : Type} (k : Z) (l : list A) : list A :=
  if k <? 0 then take (Z.to_nat (Z.of_nat (length l) + k)) l
  else take (Z.to_nat k) l.

(** [page.get(key, default)]. *)
Definition dict_get (d : pydict) (key : string) (default : value) : value :=
  match d !! key with Some v => v | None => default end.

(** [d.update({"start": start, "limit": limit})]. *)
Definition update_start_limit (start : value) (limit : Z) (d : pydict) : pydict :=
  <["limit" := VInt limit]> (<["start" := start]> d).

(** Lines 120-126: the value [request] returns for a response whose status
    is below 400. *)
Definition success_value (resp : Response) : outcome value :=
  if Str.is_empty (content resp) then Ok (VDict ∅)
  else
    let ctype := headers_get (headers resp) "content-type" "" in
    if Str.contains "application/json" ctype then
      match json resp with
      | Some j => Ok j
      | None => Raise JSONDecodeError
      end
    else Ok (VDict {[ "raw" := VStr (text resp) ]}).

(** One round of the [while True] loop of [paged_get], after the page has
    arrived: either the result, or the new accumulator and cursor. *)
Inductive round : Type :=
| Return (out : list value)
| Continue (out : list value) (start : value).

Definition page_values (page : pydict) : list value :=
  match dict_get page "values" (VList []) with
  | VList vs => vs
  | _ => []
  end.

(** Lines 143-152. *)
Definition after_page (max_items : Z) (out : list value) (page : pydict) : round :=
  let out := out ++ page_values page in
  if Z.of_nat (length out) >=? max_items then Return (slice_to max_items out)
  else if truthy (dict_get page "isLastPage" (VBool true)) then Return out
  else
    match dict_get page "nextPageStart" VNone with
    | VNone => Return out
    | start => Continue out start
    end.

Section Client.

(** [repr] of a list or a dictionary, a builtin of the language. *)
Variable py_repr : value -> string.

(** The HTTP library: the outcome of the newest request, given all the
    requests issued so far (oldest first, the newest last). *)
Variable requests_request : list HttpRequest -> transport_result.

(** [f"{v}"], that is [str(v)]. *)
Definition py_str (v : value) : string :=
  match v with
  | VNone => "None"
  | VBool true => "True"
  | VBool false => "False"
  | VInt n => pretty n
  | VStr s => s
  | VList _ | VDict _ => py_repr v
  end.

Definition _headers (self : BitbucketClient) (content_type : option string)
  : gmap string string :=
  let h : gmap string string :=
    <["Accept" := "application/json;charset=UTF-8"]>
      (<["Authorization" := "Bearer " +:+ token self]> ∅) in
  match content_type with
  | Some ct => if Str.is_empty ct then h else <["Content-Type" := ct]> h
  | None => h
  end.

(** Lines 105-117: the best-effort extraction of [detail] from the body
    of an error response.  Any exception inside the [try] leaves [detail]
    as it was. *)
Definition error_detail (resp : Response) : value :=
  match json resp with
  | Some (VDict j) =>
      match j !! "errors" with
      | Some (VList (e0 :: _)) =>
          match e0 with
          | VDict d =>
              let msg := dict_get d "message" VNone in
              if truthy msg then msg else VStr ""
          | _ => VStr ""
          end
      | _ =>
          match j !! "message" with
          | Some (VStr m) => VStr m
          | _ => VStr ""
          end
      end
  | _ => VStr ""
  end.

Definition http_error_msg (code : Z) (method url : string) (detail : value) : string :=
  "HTTP " +:+ pretty code +:+ " for " +:+ method +:+ " " +:+ url
  +:+ (if truthy detail then ": " +:+ py_str detail else "").

Definition request_url (self : BitbucketClient) (path : string) : string :=
  api self +:+ "/" +:+ Str.lstrip "/" path.

(** Lines 103-126: what [request] does with the response. *)
Definition handle_response (method url : string) (resp : Response) : outcome value :=
  if 400 <=? status_code resp then
    Raise (BBError (http_error_msg (status_code resp) method url (error_detail resp)) None)
  else success_value resp.

(** The request that [request] hands to the HTTP library. *)
Definition build_request (self : BitbucketClient) (method path : string)
    (params : option loc) (json_body : option value) (st : state) : HttpRequest :=
  {| req_method := Str.upper method;
     req_url := request_url self path;
     req_headers :=
       _headers self
         (match json_body with Some _ => Some "application/json" | None => None end);
     req_params := params ≫= (fun l => heap st !! l);
     req_json := json_body;
     req_timeout := timeout_s self |}.

Definition request (self : BitbucketClient) (method path : string)
    (params : option loc) (json_body : option value) (st : state)
  : outcome value * state :=
  let url := request_url self path in
  let req := build_request self method path params json_body st in
  let st' := {| heap := heap st; log := log st ++ [req] |} in
  match requests_request (log st') with
  | RaisesRequestException e =>
      (Raise (BBError ("Request failed: " +:+ rex_str e) (Some e)), st')
  | RaisesForeign name => (Raise (ForeignException name), st')
  | Responds resp => (handle_response method url resp, st')
  end.

(** The loop of [paged_get]; [None] when [fuel] rounds were not enough. *)
Fixpoint paged_get_loop (fuel : nat) (self : BitbucketClient) (path : string)
    (params : loc) (limit max_items : Z) (out : list value) (start : value)
    (st : state) : option (outcome (list value) * state) :=
  match fuel with
  | O => None
  | S fuel' =>
      let st1 :=
        {| heap := alter (update_start_limit start limit) params (heap st);
           log := log st |} in
      match request self "GET" path (Some params) None st1 with
      | (Raise e, st2) => Some (Raise e, st2)
      | (Ok (VDict page), st2) =>
          match after_page max_items out page with
          | Return res => Some (Ok res, st2)
          | Continue out' start' =>
              paged_get_loop fuel' self path params limit max_items out' start' st2
          end
      | (Ok _, st2) => Some (Raise AttributeError, st2)
      end
  end.

(** [dict(params or {})]: a fresh dictionary with the caller's entries. *)
Definition copy_params (params : option loc) (st : state) : loc * state :=
  let d : pydict :=
    match params ≫= (fun l => heap st !! l) with
    | Some d => d
    | None => ∅
    end in
  let l := fresh (dom (heap st)) in
  (l, {| heap := <[l := d]> (heap st); log := log st |}).

Definition paged_get (fuel : nat) (self : BitbucketClient) (path : string)
    (params : option loc) (limit max_items : Z) (st : state)
  : option (outcome (list value) * state) :=
  let '(l, st0) := copy_params params st in
  paged_get_loop fuel self path l limit max_items [] (VInt 0) st0.

End Client.

(** ** Servers and pages used in the statements *)

(** The state after [request]: the store is untouched and the log has one
    more entry. *)
Definition sent (self : BitbucketClient) (method path : string)
    (params : option loc) (json_body : option value) (st : state) : state :=
  {| heap := heap st;
     log := log st ++ [build_request self method path params json_body st] |}.

(** The state after one more round of the paginator: the cursor and the
    page size are written into its own dictionary, and the request is
    sent. *)
Definition turn (self : BitbucketClient) (path : string) (params : loc)
    (limit : Z) (start : value) (st : state) : state :=
  sent self "GET" path (Some params) None
    {| heap := alter (update_start_limit start limit) params (heap st);
       log := log st |}.


(** A successful JSON response whose body decodes to [j].  The body text
    is not modelled beyond being non-empty: [json] is what it decodes to. *)
Definition json_response (j : value) : Response :=
  {| status_code := 200;
     headers := {[ "content-type" := "application/json;charset=UTF-8" ]};
     content := "(json)";
     text := "(json)";
     json := Some j |}.

Definition connection_refused : RequestException :=
  {| rex_kind := ConnectionRefused; rex_str := "Connection refused" |}.

(** The server that answers the [i]-th request with the [i]-th entry of
    [script], whatever is asked, and refuses connections afterwards. *)
Definition scripted (script : list transport_result)
  : list HttpRequest -> transport_result :=
  fun lg =>
    match script !! (length lg - 1)%nat with
    | Some r => r
    | None => RaisesRequestException connection_refused
    end.

Definition serve_pages (pages : list pydict) : list HttpRequest -> transport_result :=
  scripted ((fun p => Responds (json_response (VDict p))) <$> pages).

(** [repr] for runs in which no message formats a container. *)
Definition repr_unused (v : value) : string := "".

(** The store and log before anything happened. *)
Definition initial_state (h : gmap loc pydict) : state :=
  {| heap := h; log := [] |}.

Definition mk_page (values : list value) (is_last : option value)
    (next : option value) : pydict :=
  let p0 : pydict := {[ "values" := VList values ]} in
  let p1 := match is_last with Some b => <["isLastPage" := b]> p0 | None => p0 end in
  match next with Some c => <["nextPageStart" := c]> p1 | None => p1 end.

Definition demo_client : BitbucketClient :=
  {| base_rest := "https://host/bitbucket/rest"; token := "t0k3n"; timeout_s := 30 |}.

Definition is_get (rq : HttpRequest) : Prop := req_method rq = "GET".

(** What a run returned and how many requests the log holds after it. *)
Definition result_of {A : Type} (r : option (outcome A * state)) : option (outcome A) :=
  fst <$> r.


(** The transport result [tr] is a response from which [request] returns
    the page [page]. *)
Definition answers_page (tr : transport_result) (page : pydict) : Prop :=
  exists resp,
    tr = Responds resp /\ status_code resp < 400 /\ success_value resp = Ok (VDict page).

(** The server [srv] serves [pages] in order to the requests that follow
    the first [n0] ones, whatever those requests ask for. *)
Definition serves_in_order (srv : list HttpRequest -> transport_result)
    (n0 : nat) (pages : list pydict) : Prop :=
  forall (i : nat) (page : pydict),
    pages !! i = Some page ->
    forall lg : list HttpRequest, length lg = (n0 + i + 1)%nat -> answers_page (srv lg) page.

(** A page after which the loop asks for another one, unless the cap is
    reached: [isLastPage] is present and false in the sense of [if], and
    [nextPageStart] is present and not [None]. *)
Definition continuing (page : pydict) : Prop :=
  truthy (dict_get page "isLastPage" (VBool true)) = false
  /\ dict_get page "nextPageStart" VNone <> VNone.

(** All the items of a sequence of pages, in page order. *)
Definition all_values (pages : list pydict) : list value :=
  concat (page_values <$> pages).

(** The two page shapes at which the loop stops defensively. *)
Definition defensive_stop (page : pydict) : Prop :=
  page !! "isLastPage" = None
  \/ (page !! "isLastPage" = Some (VBool false)
      /\ (page !! "nextPageStart" = None \/ page !! "nextPageStart" = Some VNone)).

(** The accumulator as [paged_get] hands it back when it stops at a page:
    cut to [max_items] when it has reached it. *)
Definition capped (max_items : Z) (out : list value) : list value :=
  if Z.of_nat (length out) >=? max_items then slice_to max_items out else out.

(** A server that never flags a last page, always supplies the next
    cursor, and never has an item. *)
Definition empty_pages_forever : list HttpRequest -> transport_result :=
  fun lg =>
    Responds (json_response (VDict
      (mk_page [] (Some (VBool false)) (Some (VInt (Z.of_nat (length lg))))))).

(** The query parameters of a request sent by the paginator for a caller
    whose mapping is [d]: [start] and [limit] are the paginator's, every
    other key is the caller's. *)
Definition paginator_params (d : pydict) (limit : Z) (start : value)
    (rq : HttpRequest) : Prop :=
  req_method rq = "GET"
  /\ exists p : pydict,
       req_params rq = Some p
       /\ p !! "start" = Some start
       /\ p !! "limit" = Some (VInt limit)
       /\ forall k : string, k <> "start" -> k <> "limit" -> p !! k = d !! k.

(** The requests of one run of the paginator, after the log [lg]: the
    first one carries the cursor [start], and each later one carries the
    [nextPageStart] of the page that answered the one before. *)
Inductive cursor_chain (srv : list HttpRequest -> transport_result)
    (d : pydict) (limit : Z)
  : value -> list HttpRequest -> list HttpRequest -> Prop :=
| chain_last (start : value) (lg : list HttpRequest) (rq : HttpRequest) :
    paginator_params d limit start rq ->
    cursor_chain srv d limit start lg [rq]
| chain_next (start start' : value) (lg : list HttpRequest) (rq : HttpRequest)
    (page : pydict) (rest : list HttpRequest) :
    paginator_params d limit start rq ->
    answers_page (srv (lg ++ [rq])) page ->
    page !! "nextPageStart" = Some start' ->
    cursor_chain srv d limit start' (lg ++ [rq]) rest ->
    cursor_chain srv d limit start lg (rq :: rest).

(** ** Error kinds *)

(** The taxonomy of the specification. *)
Inductive ErrorKind : Type :=
| MissingVariable
| InvalidBaseURL
| Transport
| HTTPStatus (code : Z).

(** Two exceptions that differ at most in their message text. *)
Definition same_but_message (e1 e2 : exn) : Prop :=
  match e1, e2 with
  | BBError _ c1, BBError _ c2 => c1 = c2
  | _, _ => e1 = e2
  end.

(** A classifier of exceptions that does not read the message. *)
Definition message_blind {K : Type} (kind_of : exn -> K) : Prop :=
  forall e1 e2 : exn, same_but_message e1 e2 -> kind_of e1 = kind_of e2.

(** The value of the leading run of decimal digits of [s], after [acc]. *)
Definition digit_of (a : ascii) : option N :=
  let n := N_of_ascii a in
  if ((48 <=? n) && (n <=? 57))%N then Some (n - 48)%N else None.

Fixpoint parse_digits (acc : N) (s : string) : N :=
  match s with
  | EmptyString => acc
  | String a t =>
      match digit_of a with
      | Some d => parse_digits (acc * 10 + d)%N t
      | None => acc
      end
  end.

(** [s] without the prefix [p], when it starts with it. *)
Fixpoint strip_prefix (p s : string) : option string :=
  match p, s with
  | EmptyString, _ => Some s
  | String a p', String b s' => if Ascii.eqb a b then strip_prefix p' s' else None
  | String _ _, EmptyString => None
  end.

(** The kind of an error, read off the text of its message. *)
Definition kind_of_message (msg : string) : option ErrorKind :=
  if Str.startswith "Missing environment variable " msg then Some MissingVariable
  else if Str.startswith "BITBUCKET_SERVER must end with" msg then Some InvalidBaseURL
  else if Str.startswith "Request failed: " msg then Some Transport
  else
    match strip_prefix "HTTP " msg with
    | Some rest => Some (HTTPStatus (Z.of_N (parse_digits 0 rest)))
    | None => None
    end.

(** The claim that every error carries its kind apart from the message:
    some classifier that does not read the message tells the four kinds
    apart at the four places that raise. *)
Definition kinds_carried_apart_from_message
    (py_repr : value -> string) : Prop :=
  exists kind_of : exn -> ErrorKind,
    message_blind kind_of
    /\ (forall environ name e,
          _env environ name = Raise e -> kind_of e = MissingVariable)
    /\ (forall server e,
          _norm_base server = Raise e -> kind_of e = InvalidBaseURL)
    /\ (forall srv self method path params body st rex e,
          srv (log (sent self method path params body st))
          = RaisesRequestException rex ->
          fst (request py_repr srv self method path params body st) = Raise e ->
          kind_of e = Transport)
    /\ (forall srv self method path params body st resp e,
          srv (log (sent self method path params body st)) = Responds resp ->
          400 <= status_code resp ->
          fst (request py_repr srv self method path params body st) = Raise e ->
          kind_of e = HTTPStatus (status_code resp)).

(** The exception has a [__cause__]. *)
Definition has_cause (e : exn) : bool :=
  match e with
  | BBError _ (Some _) => true
  | _ => false
  end.

(** The four places that raise the errors of the taxonomy, each with the
    kind the specification gives it: [_env], [_norm_base], and [request]
    when the HTTP library raises one of its own exceptions or the
    response has a status of 400 or more. *)
Inductive raised (py_repr : value -> string) : ErrorKind -> exn -> Prop :=
| raised_missing_variable environ name e :
    _env environ name = Raise e ->
    raised py_repr MissingVariable e
| raised_invalid_base_url server e :
    _norm_base server = Raise e ->
    raised py_repr InvalidBaseURL e
| raised_transport srv self method path params body st rex e :
    srv (log (sent self method path params body st)) = RaisesRequestException rex ->
    fst (request py_repr srv self method path params body st) = Raise e ->
    raised py_repr Transport e
| raised_http_status srv self method path params body st resp e :
    srv (log (sent self method path params body st)) = Responds resp ->
    400 <= status_code resp ->
    fst (request py_repr srv self method path params body st) = Raise e ->
    raised py_repr (HTTPStatus (status_code resp)) e.

(** ** Sample responses and servers *)

(** An error response in the server's usual shape, which also has a
    top-level message. *)
Definition not_found_response : Response :=
  {| status_code := 404;
     headers := {[ "content-type" := "application/json;charset=UTF-8" ]};
     content := "(json)";
     text := "(json)";
     json :=
       Some (VDict {[ "errors" :=
                        VList [VDict {[ "message" := VStr "Repository not found" ]}];
                      "message" := VStr "Not Found" ]}) |}.

(** A successful response in plain text. *)
Definition plain_response : Response :=
  {| status_code := 200;
     headers := {[ "content-type" := "text/plain" ]};
     content := "pong";
     text := "pong";
     json := None |}.

(** A successful response that announces JSON over a body that is not
    JSON, as a proxy in front of the server may send. *)
Definition undecodable_response : Response :=
  {| status_code := 200;
     headers := {[ "content-type" := "application/json" ]};
     content := "<html>maintenance</html>";
     text := "<html>maintenance</html>";
     json := None |}.

(** The claim that a successful response with a body and a content type
    containing [application/json] always makes [request] return a
    value. *)
Definition json_always_returned (py_repr : value -> string) : Prop :=
  forall srv self method path params body st resp,
    srv (log (sent self method path params body st)) = Responds resp ->
    status_code resp < 400 ->
    content resp <> "" ->
    Str.contains "application/json" (headers_get (headers resp) "content-type" "") = true ->
    exists v, fst (request py_repr srv self method path params body st) = Ok v.

(** A server that never flags a last page and has one item on every page. *)
Definition one_item_forever : list HttpRequest -> transport_result :=
  fun lg =>
    let n := Z.of_nat (length lg) in
    Responds (json_response (VDict
      (mk_page [VInt n] (Some (VBool false)) (Some (VInt n))))).

(** A caller's mapping that has a [start] entry of its own. *)
Definition caller_params : pydict :=
  {[ "state" := VStr "OPEN"; "start" := VInt 99 ]}.

(** ** Further notions on strings *)

(** Every character of [s] is one that [strip] removes, reading [s] from
    the left. *)
Fixpoint all_space (s : string) : bool :=
  match s with
  | EmptyString => true
  | String a t1 =>
      if Str.is_space (String a "") then all_space t1
      else
        match t1 with
        | EmptyString => false
        | String b t2 =>
            if Str.is_space (String a (String b "")) then all_space t2
            else
              match t2 with
              | EmptyString => false
              | String c t3 =>
                  Str.is_space (String a (String b (String c ""))) && all_space t3
              end
        end
  end.

(** [s] neither starts nor ends with a white-space character. *)
Definition trimmed (s : string) : Prop :=
  forall w, In w Str.white_space ->
    Str.startswith w s = false /\ Str.endswith s w = false.

(** ** The outcome of one request *)

(** What [request] returns or raises, by what the HTTP library did
    (lines 91-126). *)
Definition outcome_of (py_repr : value -> string) (method url : string)
    (tr : transport_result) : outcome value :=
  match tr with
  | Responds resp => handle_response py_repr method url resp
  | RaisesRequestException e =>
      Raise (BBError ("Request failed: " +:+ rex_str e) (Some e))
  | RaisesForeign name => Raise (ForeignException name)
  end.

(** An environment with white space around both variables: spaces, a
    line feed, and the no-break space U+00A0 after the token. *)
Definition padded_environ : gmap string string :=
  {[ "BITBUCKET_SERVER" := " https://host/bitbucket/rest/ " +:+ Str.of_bytes [0x0A]%N;
     "BITBUCKET_API_TOKEN" := " t0k3n" +:+ Str.of_bytes [0xC2; 0xA0]%N ]}.

(** A token variable that holds nothing but the ideographic space U+3000
    and a tab. *)
Definition blank_token_environ : gmap string string :=
  {[ "BITBUCKET_SERVER" := "https://host/bitbucket/rest";
     "BITBUCKET_API_TOKEN" := Str.of_bytes [0xE3; 0x80; 0x80; 0x09]%N ]}.

(** [isinstance(v, dict)]. *)
Definition is_object (v : value) : bool :=
  match v with VDict _ => true | _ => false end.

(** An error body whose [errors] list has an entry without a message,
    beside a top-level message. *)
Definition shadowed_message_response : Response :=
  {| status_code := 409;
     headers := {[ "content-type" := "application/json;charset=UTF-8" ]};
     content := "(json)";
     text := "(json)";
     json :=
       Some (VDict {[ "errors" := VList [VDict {[ "context" := VStr "title" ]}];
                      "message" := VStr "Conflict" ]}) |}.

(** A server error answered with a plain-text body. *)
Definition unavailable_response : Response :=
  {| status_code := 503;
     headers := {[ "content-type" := "text/html" ]};
     content := "Service Unavailable";
     text := "Service Unavailable";
     json := None |}.

(** ** The commands *)

(** [len(s)] for a string: the number of code points, which in UTF-8 is
    the number of bytes that are not continuation bytes. *)
Definition is_continuation (a : ascii) : bool :=
  let n := nat_of_ascii a in (128 <=? n)%nat && (n <=? 191)%nat.

Fixpoint code_points (s : string) : nat :=
  match s with
  | EmptyString => O
  | String a t => if is_continuation a then code_points t else S (code_points t)
  end.

(** [len(v)]; [None] for the values that have no length. *)
Definition py_len (v : value) : option nat :=
  match v with
  | VList l => Some (length l)
  | VStr s => Some (code_points s)
  | VDict d => Some (size d)
  | VNone | VBool _ | VInt _ => None
  end.

(** [v.get(key, default)]: only dictionaries have [get]. *)
Definition get_attr (v : value) (key : string) (default : value) : outcome value :=
  match v with
  | VDict d => Ok (dict_get d key default)
  | _ => Raise AttributeError
  end.

(** [x or y]. *)
Definition py_or (x y : value) : value := if truthy x then x else y.

(** A new dictionary object. *)
Definition alloc (d : pydict) (st : state) : loc * state :=
  let l := fresh (dom (heap st)) in
  (l, {| heap := <[l := d]> (heap st); log := log st |}).

(** [f"projects/{project}/repos/{repo}/pull-requests"]. *)
Definition pull_requests_path (project repo : string) : string :=
  "projects/" +:+ project +:+ "/repos/" +:+ repo +:+ "/pull-requests".

(** One side of a pull request in the body of [pr_create]. *)
Definition ref_value (branch repo project : string) : value :=
  VDict {[ "id" := VStr ("refs/heads/" +:+ branch);
           "repository" :=
             VDict {[ "slug" := VStr repo;
                      "project" := VDict {[ "key" := VStr project ]} ]} ]}.

Definition reviewer_value (r : string) : value :=
  VDict {[ "user" := VDict {[ "name" := VStr r ]} ]}.

(** Lines 262-280: the body that [pr_create] posts. *)
Definition pr_create_body (project repo from_branch to_branch title description : string)
    (reviewer : list string) (draft : option bool) : pydict :=
  let body : pydict :=
    {[ "title" := VStr title;
       "description" := VStr description;
       "fromRef" := ref_value from_branch repo project;
       "toRef" := ref_value to_branch repo project ]} in
  let body :=
    match reviewer with
    | [] => body
    | _ :: _ => <["reviewers" := VList (reviewer_value <$> reviewer)]> body
    end in
  match draft with
  | Some b => <["draft" := VBool b]> body
  | None => body
  end.

(** What a command did: how it ended, the state, and the lines it wrote
    with [typer.echo], in order. *)
Abbreviation run := (outcome unit * state * list string)%type.

(** How the process ends. *)
Inductive termination : Type :=
| ExitStatus (code : Z)
| Uncaught (e : exn).

Record finished : Type := {
  fin_end : termination;
  fin_state : state;
  fin_stdout : list string;
  fin_stderr : list string;
}.

(** Lines 324-329: [main] around a command.  A command that returns ends
    the process with status 0 (the command-line framework exits for it);
    a [BBError] is written to the error stream and the status is 2; any
    other exception is not caught. *)
Definition main (app : run) : finished :=
  match app with
  | (Ok _, st, out) =>
      {| fin_end := ExitStatus 0; fin_state := st; fin_stdout := out; fin_stderr := [] |}
  | (Raise (BBError msg _), st, out) =>
      {| fin_end := ExitStatus 2; fin_state := st; fin_stdout := out;
         fin_stderr := [msg] |}
  | (Raise e, st, out) =>
      {| fin_end := Uncaught e; fin_state := st; fin_stdout := out; fin_stderr := [] |}
  end.

Definition doctor_ok_line : string :=
  "OK: BITBUCKET_SERVER and BITBUCKET_API_TOKEN look usable.".

Section Commands.

(** [repr] of a list or a dictionary. *)
Variable py_repr : value -> string.

(** The HTTP library. *)
Variable requests_request : list HttpRequest -> transport_result.

(** [json.dumps(data, indent=2, ensure_ascii=False)]. *)
Variable json_dumps : value -> string.

(** Lines 162-163. *)
Definition _print_json (data : value) : list string := [json_dumps data].

(** Lines 289-292: the line [pr_create] writes about the response. *)
Definition created_line (created : value) : outcome string :=
  match get_attr created "id" (VStr "?") with
  | Raise e => Raise e
  | Ok pr_id =>
      match get_attr created "links" (VDict ∅) with
      | Raise e => Raise e
      | Ok lk =>
          match get_attr lk "self" (VList []) with
          | Raise e => Raise e
          | Ok links =>
              let url : outcome value :=
                match links with
                | VList (l0 :: _) => get_attr l0 "href" VNone
                | _ => Ok VNone
                end in
              match url with
              | Raise e => Raise e
              | Ok u =>
                  Ok ("Created PR #" +:+ py_str py_repr pr_id
                      +:+ (if truthy u then ": " +:+ py_str py_repr u else ""))
              end
          end
      end
  end.

(** Lines 226-236. *)
Definition pr_get (environ : gmap string string) (project repo : string)
    (pr_id : Z) (st : state) : run :=
  match client environ with
  | Raise e => (Raise e, st, [])
  | Ok bb =>
      let path := pull_requests_path project repo +:+ "/" +:+ pretty pr_id in
      match request py_repr requests_request bb "GET" path None None st with
      | (Raise e, st') => (Raise e, st', [])
      | (Ok pr, st') => (Ok tt, st', _print_json pr)
      end
  end.

(** Lines 239-292. *)
Definition pr_create (environ : gmap string string)
    (project repo from_branch to_branch title description : string)
    (reviewer : list string) (draft : option bool) (json_out : bool)
    (st : state) : run :=
  match client environ with
  | Raise e => (Raise e, st, [])
  | Ok bb =>
      let body :=
        pr_create_body project repo from_branch to_branch title description
          reviewer draft in
      match request py_repr requests_request bb "POST"
              (pull_requests_path project repo) None (Some (VDict body)) st with
      | (Raise e, st') => (Raise e, st', [])
      | (Ok created, st') =>
          if json_out then (Ok tt, st', _print_json created)
          else
            match created_line created with
            | Raise e => (Raise e, st', [])
            | Ok line => (Ok tt, st', [line])
            end
      end
  end.

(** Lines 295-308. *)
Definition pr_comment (environ : gmap string string) (project repo : string)
    (pr_id : Z) (text : string) (st : state) : run :=
  match client environ with
  | Raise e => (Raise e, st, [])
  | Ok bb =>
      let path :=
        pull_requests_path project repo +:+ "/" +:+ pretty pr_id +:+ "/comments" in
      let body : pydict := {[ "text" := VStr text ]} in
      match request py_repr requests_request bb "POST" path None
              (Some (VDict body)) st with
      | (Raise e, st') => (Raise e, st', [])
      | (Ok resp, st') =>
          match get_attr resp "id" (VStr "?") with
          | Raise e => (Raise e, st', [])
          | Ok comment_id =>
              (Ok tt, st',
               ["Added comment " +:+ py_str py_repr comment_id +:+ " to PR #"
                +:+ pretty pr_id])
          end
      end
  end.

(** Lines 311-321. *)
Definition doctor (environ : gmap string string) (st : state) : run :=
  match client environ with
  | Raise e => (Raise e, st, [])
  | Ok bb =>
      let '(l, st0) := alloc {[ "limit" := VInt 1; "start" := VInt 0 ]} st in
      match request py_repr requests_request bb "GET" "dashboard/pull-requests"
              (Some l) None st0 with
      | (Raise e, st') => (Raise e, st', [])
      | (Ok resp, st') =>
          match resp with
          | VDict d =>
              match d !! "values" with
              | Some v =>
                  match py_len (py_or v (VList [])) with
                  | Some n =>
                      (Ok tt, st',
                       [doctor_ok_line;
                        "Dashboard PRs visible: " +:+ pretty n
                        +:+ " item(s) on first page."])
                  | None => (Raise (ForeignException "TypeError"), st', [doctor_ok_line])
                  end
              | None => (Ok tt, st', [doctor_ok_line])
              end
          | _ => (Ok tt, st', [doctor_ok_line])
          end
      end
  end.

End Commands.

(** A stand-in for [json.dumps] that shows the [id] of an object. *)
Definition dumps_id (v : value) : string :=
  match v with
  | VDict d => "{id: " +:+ py_str repr_unused (dict_get d "id" VNone) +:+ "}"
  | _ => "..."
  end.

(** What the server answers to a created pull request, cut down to the
    fields [pr_create] reads; and the same with [links] set to null. *)
Definition created_pr : value :=
  VDict {[ "id" := VInt 42;
           "links" :=
             VDict {[ "self" :=
                        VList [VDict {[ "href" :=
                          VStr "https://host/bitbucket/projects/PRJ/repos/repo/pull-requests/42" ]}] ]} ]}.

Definition created_pr_null_links : value :=
  VDict {[ "id" := VInt 42; "links" := VNone ]}.

(** ** The table of pull requests *)

(** Sequencing of computations that may raise. *)
Global Instance outcome_ret : MRet outcome := fun A a => Ok a.
Global Instance outcome_bind : MBind outcome :=
  fun A B f x => match x with Ok a => f a | Raise e => Raise e end.

(** [[f(x) for x in l]], stopping at the first exception. *)
Fixpoint traverse {A B : Type} (f : A -> outcome B) (l : list A) : outcome (list B) :=
  match l with
  | [] => Ok []
  | x :: rest => y ← f x; ys ← traverse f rest; Ok (y :: ys)
  end.

(** [s.replace("\n", " ")]. *)
Fixpoint replace_newlines (s : string) : string :=
  match s with
  | EmptyString => EmptyString
  | String a t =>
      String (if Ascii.eqb a "010" then " "%char else a) (replace_newlines t)
  end.

(** [s.ljust(w)]. *)
Definition ljust (s : string) (w : nat) : string :=
  s +:+ Str.repeat " " (w - code_points s).

(** [sep.join(l)]. *)
Fixpoint join (sep : string) (l : list string) : string :=
  match l with
  | [] => ""
  | [x] => x
  | x :: rest => x +:+ sep +:+ join sep rest
  end.

Definition table_headers : list string := ["ID"; "STATE"; "AUTHOR"; "REFS"; "TITLE"].

(** [max(w, len(cell))] for each column of a row. *)
Definition widen (widths : list nat) (r : list value) : outcome (list nat) :=
  traverse
    (fun wc : nat * value =>
       match py_len (snd wc) with
       | Some n => Ok (Nat.max (fst wc) n)
       | None => Raise (ForeignException "TypeError")
       end)
    (zip widths r).

Fixpoint col_widths (widths : list nat) (rows : list (list value)) : outcome (list nat) :=
  match rows with
  | [] => Ok widths
  | r :: rest => w ← widen widths r; col_widths w rest
  end.

(** [fmt_row] on cells that are strings. *)
Definition fmt_cells (widths : list nat) (cells : list string) : string :=
  join "  " (zip_with ljust cells widths).

(** [fmt_row]: only strings have [ljust]. *)
Definition fmt_row (widths : list nat) (r : list value) : outcome string :=
  cells ← traverse
             (fun cell : value =>
                match cell with
                | VStr s => Ok s
                | _ => Raise AttributeError
                end) r;
  Ok (fmt_cells widths cells).

(** The loop that writes the rows: the lines written, and how it ended. *)
Fixpoint echo_rows (widths : list nat) (rows : list (list value))
  : outcome unit * list string :=
  match rows with
  | [] => (Ok tt, [])
  | r :: rest =>
      match fmt_row widths r with
      | Raise e => (Raise e, [])
      | Ok line =>
          let '(res, lines) := echo_rows widths rest in (res, line :: lines)
      end
  end.

Section Table.

Variable py_repr : value -> string.

(** [pr.get(key, {}).get("displayId") or pr.get(key, {}).get("id", "")]. *)
Definition ref_display (pr : value) (key : string) : outcome value :=
  r ← get_attr pr key (VDict ∅);
  shown ← get_attr r "displayId" VNone;
  if truthy shown then Ok shown
  else r' ← get_attr pr key (VDict ∅); get_attr r' "id" (VStr "").

(** The author's display name, or else the author's name. *)
Definition author_display (pr : value) : outcome value :=
  a ← get_attr pr "author" (VDict ∅);
  u ← get_attr a "user" (VDict ∅);
  shown ← get_attr u "displayName" VNone;
  if truthy shown then Ok shown
  else a' ← get_attr pr "author" (VDict ∅);
       u' ← get_attr a' "user" (VDict ∅);
       get_attr u' "name" (VStr "").

(** Lines 170-176: the row of one pull request. *)
Definition pr_row (pr : value) : outcome (list value) :=
  pr_id ← get_attr pr "id" (VStr "");
  t ← get_attr pr "title" VNone;
  title ← match py_or t (VStr "") with
          | VStr s => Ok (replace_newlines s)
          | _ => Raise AttributeError
          end;
  state ← get_attr pr "state" (VStr "");
  from_ref ← ref_display pr "fromRef";
  to_ref ← ref_display pr "toRef";
  author ← author_display pr;
  Ok [VStr (py_str py_repr pr_id); state; author;
      VStr (py_str py_repr from_ref +:+ " -> " +:+ py_str py_repr to_ref);
      VStr title].

(** Lines 166-194. *)
Definition _print_prs (prs : list value) : outcome unit * list string :=
  match traverse pr_row prs with
  | Raise e => (Raise e, [])
  | Ok [] => (Ok tt, ["No pull requests."])
  | Ok rows =>
      match col_widths (code_points <$> table_headers) rows with
      | Raise e => (Raise e, [])
      | Ok widths =>
          let '(res, lines) := echo_rows widths rows in
          (res,
           fmt_cells widths table_headers
           :: join "  " ((fun w => Str.repeat "-" w) <$> widths)
           :: lines)
      end
  end.

(** The HTTP library and [json.dumps]. *)
Variable requests_request : list HttpRequest -> transport_result.
Variable json_dumps : value -> string.

(** Lines 197-223; [None] when [fuel] rounds of the paginator were not
    enough. *)
Definition pr_list (fuel : nat) (environ : gmap string string)
    (project repo state_ direction : string) (limit max_items : Z)
    (json_out : bool) (st : state) : option run :=
  match client environ with
  | Raise e => Some (Raise e, st, [])
  | Ok bb =>
      let '(l, st0) :=
        alloc {[ "state" := VStr state_; "direction" := VStr direction ]} st in
      match paged_get py_repr requests_request fuel bb
              (pull_requests_path project repo) (Some l) limit max_items st0 with
      | None => None
      | Some (Raise e, st') => Some (Raise e, st', [])
      | Some (Ok prs, st') =>
          if json_out then Some (Ok tt, st', [json_dumps (VList prs)])
          else let '(res, lines) := _print_prs prs in Some (res, st', lines)
      end
  end.

End Table.

(** A pull request as the server lists it, cut down to the fields of the
    table. *)
Definition listed_pr (n : Z) (title : string) : value :=
  VDict {[ "id" := VInt n;
           "title" := VStr title;
           "state" := VStr "OPEN";
           "fromRef" := VDict {[ "displayId" := VStr "feature/x";
                                 "id" := VStr "refs/heads/feature/x" ]};
           "toRef" := VDict {[ "id" := VStr "refs/heads/develop" ]};
           "author" := VDict {[ "user" := VDict {[ "name" := VStr "ann" ]} ]} ]}.

(** The column widths of a table whose cells are the strings [srows]:
    the widest of the header and the cells, column by column. *)
Definition table_widths (srows : list (list string)) : list nat :=
  fold_left (fun ws cells => zip_with Nat.max ws (code_points <$> cells))
    srows (code_points <$> table_headers).

(** The rows of a table, as values. *)
Definition string_rows (srows : list (list string)) : list (list value) :=
  (fun cells : list string => VStr <$> cells) <$> srows.

(** Cells that fit their columns. *)
Definition fits (cells : list string) (ws : list nat) : Prop :=
  Forall2 (fun c w => (code_points c <= w)%nat) cells ws.

(** A cell that [len] rejects. *)
Definition no_len (v : value) : Prop := py_len v = None.

(** * Properties *)

(** ** Strings *)

Local Arguments String.append !s1 s2 /.

Lemma is_empty_true (s : string) : Str.is_empty s = true <-> s = "".
Proof. destruct s; simpl; split; congruence. Qed.

(** [endswith] holds exactly of the strings that are some prefix followed
    by the suffix. *)
Lemma endswith_spec (s suf : string) :
  Str.endswith s suf = true <-> exists p, s = p +:+ suf.
Proof.
  induction s as [|a s IH].
  - change (Str.endswith "" suf) with (String.eqb "" suf || false).
    rewrite orb_false_r, String.eqb_eq. split.
    + intros <-. now exists "".
    + intros [p Hp]. destruct p; simpl in Hp; [congruence | discriminate].
  - change (Str.endswith (String a s) suf)
      with (String.eqb (String a s) suf || Str.endswith s suf).
    rewrite orb_true_iff, IH, String.eqb_eq. split.
    + intros [H | [p Hp]].
      * exists "". now subst.
      * exists (String a p). simpl. now rewrite Hp.
    + intros [p Hp]. destruct p as [|b p]; simpl in Hp.
      * now left.
      * right. injection Hp as -> Hs. now exists p.
Qed.

Lemma endswith_false (s suf : string) :
  Str.endswith s suf = false <-> ~ exists p, s = p +:+ suf.
Proof.
  rewrite <- endswith_spec. destruct (Str.endswith s suf); split; congruence.
Qed.

(** [rstrip] removes a run of the character at the end, and all of it. *)
Lemma rstrip_spec (c : ascii) (s : string) :
  (exists n, s = Str.rstrip c s +:+ Str.repeat c n)
  /\ Str.endswith (Str.rstrip c s) (String c "") = false.
Proof.
  induction s as [|a s [[n Hn] Hend]].
  - split; [now exists 0%nat | reflexivity].
  - cbn [Str.rstrip]. destruct (Str.rstrip c s) as [|b r] eqn:Hr.
    + cbn [Str.is_empty andb]. simpl in Hn.
      destruct (Ascii.eqb a c) eqn:Hac.
      * apply Ascii.eqb_eq in Hac. subst a. split; [|reflexivity].
        exists (S n). simpl. now rewrite <- Hn.
      * split; [exists n; simpl; now rewrite <- Hn|].
        simpl. now rewrite Hac.
    + cbn [Str.is_empty andb]. split.
      * exists n. simpl. simpl in Hn. now rewrite <- Hn.
      * change (Str.endswith (String a (String b r)) (String c ""))
          with (String.eqb (String a (String b r)) (String c "")
                || Str.endswith (String b r) (String c "")).
        rewrite Hend, orb_false_r. simpl. now destruct (Ascii.eqb a c).
Qed.

(** ** Configuration *)

(** C3.  For every server string, with [normalized] the string without its
    trailing slashes: [_norm_base] fails with the invalid-base-URL error
    exactly when [normalized] is not some prefix followed by [/rest]; when
    it is, [_norm_base] returns [normalized] and the API root of a client
    built on it is [normalized] followed by [/api/latest]. *)
Theorem norm_base_api_root (server : string) :
  let normalized := Str.rstrip "/" server in
  ((exists n, server = normalized +:+ Str.repeat "/" n)
   /\ Str.endswith normalized "/" = false)
  /\ (_norm_base server = Raise (BBError (invalid_base_url_msg normalized) None)
      <-> ~ exists p, normalized = p +:+ "/rest")
  /\ ((exists p, normalized = p +:+ "/rest") ->
      _norm_base server = Ok normalized
      /\ forall tok t,
           api {| base_rest := normalized; token := tok; timeout_s := t |}
           = normalized +:+ "/api/latest").
Proof.
  intros normalized. split; [apply rstrip_spec|].
  unfold _norm_base. fold normalized. split.
  - rewrite <- endswith_false.
    destruct (Str.endswith normalized "/rest"); simpl; split; congruence.
  - intros H. apply endswith_spec in H. rewrite H. simpl. split; reflexivity.
Qed.

(** Resolution as a whole: with both variables set, [client] fails or
    succeeds as [_norm_base] does on the stripped server variable. *)
Lemma client_resolution (environ : gmap string string) (server tok : string) :
  _env environ "BITBUCKET_SERVER" = Ok server ->
  _env environ "BITBUCKET_API_TOKEN" = Ok tok ->
  let normalized := Str.rstrip "/" server in
  if Str.endswith normalized "/rest" then
    exists c, client environ = Ok c /\ base_rest c = normalized
              /\ api c = normalized +:+ "/api/latest"
  else client environ = Raise (BBError (invalid_base_url_msg normalized) None).
Proof.
  intros Hs Ht normalized. unfold client. rewrite Hs. unfold _norm_base.
  fold normalized. destruct (Str.endswith normalized "/rest"); simpl.
  - rewrite Ht. eexists. repeat split.
  - reflexivity.
Qed.

(** ** Decimal numbers in messages *)

Lemma digit_of_pretty_char (d : N) :
  (d < 10)%N -> digit_of (pretty_N_char d) = Some d.
Proof.
  intros Hd.
  assert (d = 0 \/ d = 1 \/ d = 2 \/ d = 3 \/ d = 4 \/ d = 5 \/ d = 6
          \/ d = 7 \/ d = 8 \/ d = 9)%N as H by lia.
  repeat (destruct H as [-> | H]; [reflexivity|]). now subst.
Qed.

Lemma pretty_N_go_append (x : N) (s r : string) :
  pretty_N_go x s +:+ r = pretty_N_go x (s +:+ r).
Proof.
  revert s. induction (N.lt_wf_0 x) as [x _ IH]. intros s.
  destruct (decide (x = 0)%N) as [-> | Hx].
  - now rewrite !pretty_N_go_0.
  - rewrite (pretty_N_go_step x s), (pretty_N_go_step x (s +:+ r)) by lia.
    rewrite IH by (apply N.div_lt; lia). reflexivity.
Qed.

(** Reading back the digits that [pretty] wrote. *)
Lemma parse_digits_pretty_go (x : N) (s : string) (acc : N) :
  exists k : N,
    parse_digits acc (pretty_N_go x s) = parse_digits (acc * 10 ^ k + x)%N s.
Proof.
  revert s acc. induction (N.lt_wf_0 x) as [x _ IH]. intros s acc.
  destruct (decide (x = 0)%N) as [-> | Hx].
  - exists 0%N. rewrite pretty_N_go_0. f_equal. simpl. lia.
  - rewrite pretty_N_go_step by lia.
    destruct (IH (x `div` 10)%N ltac:(apply N.div_lt; lia)
                 (String (pretty_N_char (x `mod` 10)) s) acc) as [k Hk].
    exists (k + 1)%N. rewrite Hk. cbn [parse_digits].
    rewrite digit_of_pretty_char by (apply N.mod_lt; lia).
    f_equal. rewrite N.pow_add_r. pose proof (N.div_mod x 10 ltac:(lia)). lia.
Qed.

Lemma parse_digits_pretty (code : Z) (rest : string) :
  0 < code ->
  parse_digits 0 (pretty code +:+ String " " rest) = Z.to_N code.
Proof.
  intros Hc. destruct code as [|p|p]; try lia.
  change (pretty (Z.pos p)) with (pretty_N_go (N.pos p) "").
  rewrite pretty_N_go_append.
  destruct (parse_digits_pretty_go (N.pos p) ("" +:+ String " " rest) 0) as [k ->].
  reflexivity.
Qed.

Lemma kind_of_http_message (code : Z) (rest : string) :
  0 < code ->
  kind_of_message ("HTTP " +:+ pretty code +:+ String " " rest)
  = Some (HTTPStatus code).
Proof.
  intros Hc. unfold kind_of_message. cbn -[pretty parse_digits].
  rewrite parse_digits_pretty by assumption. do 2 f_equal. lia.
Qed.

(** ** A single request *)

Section RequestFacts.

Context (py_repr : value -> string).
Context (srv : list HttpRequest -> transport_result).

Lemma request_state self method path params json_body st :
  snd (request py_repr srv self method path params json_body st)
  = sent self method path params json_body st.
Proof.
  unfold request, sent. cbn [log heap].
  destruct (srv _); reflexivity.
Qed.

Lemma request_responds self method path params json_body st resp :
  srv (log (sent self method path params json_body st)) = Responds resp ->
  request py_repr srv self method path params json_body st
  = (handle_response py_repr method (request_url self path) resp,
     sent self method path params json_body st).
Proof.
  intros H. unfold request. cbn [log heap] in *.
  unfold sent in H. cbn [log] in H. rewrite H. reflexivity.
Qed.

(** The advisory message prefers the first entry of [errors]. *)
Lemma error_detail_prefers_errors resp j e0 rest m top :
  json resp = Some (VDict j) ->
  j !! "errors" = Some (VList (VDict e0 :: rest)) ->
  e0 !! "message" = Some (VStr m) ->
  j !! "message" = Some (VStr top) ->
  error_detail resp = VStr m.
Proof.
  intros Hj He Hm _. unfold error_detail, dict_get.
  rewrite Hj, He, Hm. destruct m; reflexivity.
Qed.

(** C2.  A response with status 400 or more makes [request] raise the
    error whose message starts with [HTTP], the status code in decimal
    and [for], whatever the body is; the code is read back from that
    message by [kind_of_message].  When the body is an object with a
    non-empty [errors] list whose first element has a [message] string
    and with a top-level [message] string, the extracted detail is the
    former. *)
Theorem request_http_error self method path params json_body st resp :
  srv (log (sent self method path params json_body st)) = Responds resp ->
  400 <= status_code resp ->
  (exists tail : string,
     let msg :=
       "HTTP " +:+ pretty (status_code resp) +:+ " for " +:+ method +:+ " "
       +:+ request_url self path +:+ tail in
     request py_repr srv self method path params json_body st
     = (Raise (BBError msg None), sent self method path params json_body st)
     /\ tail = (if truthy (error_detail resp)
                then ": " +:+ py_str py_repr (error_detail resp) else "")
     /\ kind_of_message msg = Some (HTTPStatus (status_code resp)))
  /\ (forall j e0 rest m top,
        json resp = Some (VDict j) ->
        j !! "errors" = Some (VList (VDict e0 :: rest)) ->
        e0 !! "message" = Some (VStr m) ->
        j !! "message" = Some (VStr top) ->
        error_detail resp = VStr m).
Proof.
  intros Hsrv Hcode. split.
  - eexists. cbn zeta. split; [|split; [reflexivity|]].
    + rewrite (request_responds _ _ _ _ _ _ _ Hsrv). unfold handle_response.
      destruct (Z.leb_spec 400 (status_code resp)); [|lia].
      reflexivity.
    + apply (kind_of_http_message (status_code resp)). lia.
  - intros j e0 rest m top. apply error_detail_prefers_errors.
Qed.

(** C4, amended.  A response with status below 400: an empty body gives
    the empty mapping; otherwise, when the [content-type] header contains
    [application/json], the result is the decoded value if the body
    decodes, and the decoding error leaves [request] if it does not;
    otherwise, the header being absent or not containing
    [application/json], the result is the mapping of [raw] to the body
    text. *)
Theorem request_success self method path params json_body st resp :
  srv (log (sent self method path params json_body st)) = Responds resp ->
  status_code resp < 400 ->
  let result := fst (request py_repr srv self method path params json_body st) in
  (content resp = "" -> result = Ok (VDict ∅))
  /\ (forall ct,
        content resp <> "" ->
        headers resp !! "content-type" = Some ct ->
        Str.contains "application/json" ct = true ->
        (forall j, json resp = Some j -> result = Ok j)
        /\ (json resp = None -> result = Raise JSONDecodeError))
  /\ (content resp <> "" ->
      (forall ct, headers resp !! "content-type" = Some ct ->
                  Str.contains "application/json" ct = false) ->
      result = Ok (VDict {[ "raw" := VStr (text resp) ]})).
Proof.
  intros Hsrv Hcode result. subst result.
  rewrite (request_responds _ _ _ _ _ _ _ Hsrv). cbn [fst].
  unfold handle_response. destruct (Z.leb_spec 400 (status_code resp)); [lia|].
  unfold success_value, headers_get.
  change (Str.lower "content-type") with "content-type".
  destruct (content resp) eqn:Hc; cbn [Str.is_empty].
  - split; [reflexivity|]. split; [intros ct Hne; congruence | congruence].
  - split; [discriminate|]. split.
    + intros ct _ -> ->. split; [intros j ->; reflexivity | intros ->; reflexivity].
    + intros _ Hct. destruct (headers resp !! "content-type") as [ct|].
      * now rewrite (Hct ct eq_refl).
      * reflexivity.
Qed.

(** C8.  When the HTTP library raises one of its own exceptions, whatever
    the failure, [request] raises [BBError] with the text of that
    exception after [Request failed: ] and the exception as its cause. *)
Theorem request_transport_failure self method path params json_body st e :
  srv (log (sent self method path params json_body st))
  = RaisesRequestException e ->
  request py_repr srv self method path params json_body st
  = (Raise (BBError ("Request failed: " +:+ rex_str e) (Some e)),
     sent self method path params json_body st).
Proof.
  intros H. unfold request. unfold sent in H. cbn [log] in H.
  cbn [log heap]. rewrite H. reflexivity.
Qed.

End RequestFacts.

(** A content type that announces JSON over a body that does not decode:
    the decoding error leaves [request] as it is. *)
Lemma undecodable_body_raises py_repr srv self method path params json_body st resp :
  srv (log (sent self method path params json_body st)) = Responds resp ->
  status_code resp < 400 ->
  content resp <> "" ->
  Str.contains "application/json" (headers_get (headers resp) "content-type" "") = true ->
  json resp = None ->
  fst (request py_repr srv self method path params json_body st) = Raise JSONDecodeError.
Proof.
  intros Hsrv Hcode Hc Hct Hj.
  rewrite (request_responds _ _ _ _ _ _ _ _ _ Hsrv). cbn [fst].
  unfold handle_response. destruct (Z.leb_spec 400 (status_code resp)); [lia|].
  unfold success_value. rewrite Hct, Hj.
  destruct (content resp); [congruence | reflexivity].
Qed.

(** C4, as stated, fails: a response with status 200 whose content type
    is [application/json] and whose body is not JSON makes [request]
    raise the decoding error, so no value is returned. *)
Lemma json_body_may_not_decode :
  let srv := scripted [Responds undecodable_response] in
  let st := initial_state ∅ in
  status_code undecodable_response < 400
  /\ content undecodable_response <> ""
  /\ headers undecodable_response !! "content-type" = Some "application/json"
  /\ fst (request repr_unused srv demo_client "GET" "/projects" None None st)
     = Raise JSONDecodeError
  /\ ~ json_always_returned repr_unused.
Proof.
  intros srv st. split; [simpl; lia|]. split; [discriminate|].
  split; [reflexivity|]. split; [reflexivity|].
  intros H.
  destruct (H srv demo_client "GET" "/projects" None None st undecodable_response)
    as [v Hv]; try reflexivity; try discriminate.
Qed.

(** ** Error kinds *)

Lemma env_raises environ name e :
  _env environ name = Raise e -> e = BBError (missing_variable_msg name) None.
Proof.
  unfold _env. destruct (Str.is_empty _); congruence.
Qed.

Lemma norm_base_raises server e :
  _norm_base server = Raise e ->
  e = BBError (invalid_base_url_msg (Str.rstrip "/" server)) None.
Proof.
  unfold _norm_base. destruct (negb _); congruence.
Qed.

(** C9, as stated, fails: the two configuration errors are the same
    exception up to the message text, so no classifier that ignores the
    text tells them apart. *)
Lemma kinds_not_carried_apart_from_message :
  _env ∅ "BITBUCKET_SERVER"
  = Raise (BBError (missing_variable_msg "BITBUCKET_SERVER") None)
  /\ _norm_base "https://host/bitbucket"
     = Raise (BBError (invalid_base_url_msg "https://host/bitbucket") None)
  /\ ~ kinds_carried_apart_from_message repr_unused.
Proof.
  split; [reflexivity|]. split; [reflexivity|].
  intros (kind_of & Hblind & Henv & Hbase & _).
  specialize (Henv ∅ "BITBUCKET_SERVER" _ eq_refl).
  specialize (Hbase "https://host/bitbucket" _ eq_refl).
  pose proof (Hblind (BBError (missing_variable_msg "BITBUCKET_SERVER") None)
                (BBError (invalid_base_url_msg "https://host/bitbucket") None)
                eq_refl) as Hsame.
  change (Str.rstrip "/" "https://host/bitbucket")
    with "https://host/bitbucket" in Hbase.
  congruence.
Qed.

(** The four places do raise. *)
Example raised_kinds :
  raised repr_unused MissingVariable
    (BBError "Missing environment variable BITBUCKET_SERVER." None)
  /\ raised repr_unused InvalidBaseURL
       (BBError (invalid_base_url_msg "https://host/bitbucket") None)
  /\ raised repr_unused Transport
       (BBError "Request failed: Connection refused" (Some connection_refused))
  /\ raised repr_unused (HTTPStatus 404)
       (BBError
          "HTTP 404 for GET https://host/bitbucket/rest/api/latest/projects/X: Repository not found"
          None).
Proof.
  split; [|split; [|split]].
  - now apply (raised_missing_variable _ ∅ "BITBUCKET_SERVER").
  - now apply (raised_invalid_base_url _ "https://host/bitbucket").
  - now apply (raised_transport _ (scripted []) demo_client "GET" "/projects/X"
                 None None (initial_state ∅) connection_refused).
  - now apply (raised_http_status _ (scripted [Responds not_found_response])
                 demo_client "GET" "/projects/X" None None (initial_state ∅)
                 not_found_response).
Qed.

Lemma raised_shape py_repr k e :
  raised py_repr k e ->
  exists msg cause,
    e = BBError msg cause
    /\ kind_of_message msg = Some k
    /\ ((k = Transport /\ exists rex, cause = Some rex)
        \/ (k <> Transport /\ cause = None)).
Proof.
  intros [environ name e' He | server e' He
          | srv self method path params body st rex e' Hsrv He
          | srv self method path params body st resp e' Hsrv Hcode He].
  - apply env_raises in He. subst e'. eexists _, None.
    split; [reflexivity|]. split; [reflexivity|]. right. split; congruence.
  - apply norm_base_raises in He. subst e'. eexists _, None.
    split; [reflexivity|]. split; [reflexivity|]. right. split; congruence.
  - unfold request in He. unfold sent in Hsrv. cbn [log heap] in *.
    rewrite Hsrv in He. cbn [fst] in He. injection He as <-.
    eexists _, (Some rex). split; [reflexivity|]. split; [reflexivity|].
    left. eauto.
  - rewrite (request_responds _ _ _ _ _ _ _ _ _ Hsrv) in He. cbn [fst] in He.
    unfold handle_response in He.
    destruct (Z.leb_spec 400 (status_code resp)); [|lia].
    injection He as <-. eexists _, None. split; [reflexivity|]. split.
    + apply (kind_of_http_message (status_code resp)). lia.
    + right. split; congruence.
Qed.

(** C9, amended.  Each of the four failures of the taxonomy is raised as
    a [BBError] whose message tells the kind, and the status code of an
    HTTP failure, through its fixed beginning ([kind_of_message]).  Apart
    from the message an error carries only its cause, which is present
    exactly for a transport failure: the test [has_cause] does not read
    the message and singles out the transport failures, while every
    classifier that does not read the message gives one and the same
    answer on the errors of the three other kinds, whatever the status
    code.  [request] also lets through, unchanged and not as [BBError],
    an exception of the HTTP library that is not one of its own and the
    decoding error of a successful body announced as JSON. *)
Theorem error_kind_in_message (py_repr : value -> string) :
  (forall k e,
     raised py_repr k e ->
     exists msg cause,
       e = BBError msg cause
       /\ kind_of_message msg = Some k
       /\ (has_cause e = true <-> k = Transport))
  /\ message_blind has_cause
  /\ (forall (K : Type) (kind_of : exn -> K),
        message_blind kind_of ->
        forall k1 e1 k2 e2,
          raised py_repr k1 e1 -> raised py_repr k2 e2 ->
          k1 <> Transport -> k2 <> Transport ->
          kind_of e1 = kind_of e2)
  /\ (forall srv self method path params body st name,
        srv (log (sent self method path params body st)) = RaisesForeign name ->
        fst (request py_repr srv self method path params body st)
        = Raise (ForeignException name))
  /\ (forall srv self method path params body st resp ct,
        srv (log (sent self method path params body st)) = Responds resp ->
        status_code resp < 400 ->
        content resp <> "" ->
        headers resp !! "content-type" = Some ct ->
        Str.contains "application/json" ct = true ->
        json resp = None ->
        fst (request py_repr srv self method path params body st)
        = Raise JSONDecodeError).
Proof.
  split; [|split; [|split; [|split]]].
  - intros k e (msg & cause & -> & Hk & Hc)%raised_shape.
    exists msg, cause. split; [reflexivity|]. split; [exact Hk|].
    destruct Hc as [[-> [rex ->]] | [Hne ->]]; cbn [has_cause].
    + split; reflexivity.
    + split; [discriminate | intros ->; now destruct Hne].
  - intros [m1 c1| | |] [m2 c2| | |]; cbn [same_but_message];
      try congruence. intros ->. reflexivity.
  - intros K kind_of Hblind k1 e1 k2 e2
      (m1 & c1 & -> & _ & H1)%raised_shape (m2 & c2 & -> & _ & H2)%raised_shape
      Hk1 Hk2.
    apply Hblind. cbn [same_but_message].
    destruct H1 as [[-> _] | [_ ->]]; [now destruct Hk1|].
    destruct H2 as [[-> _] | [_ ->]]; [now destruct Hk2|]. reflexivity.
  - intros srv self method path params body st name Hsrv.
    unfold request. unfold sent in Hsrv. cbn [log heap] in *.
    now rewrite Hsrv.
  - intros srv self method path params body st resp ct Hsrv Hcode Hc Hh Hct Hj.
    apply (undecodable_body_raises py_repr srv self method path params body st resp);
      try assumption.
    unfold headers_get. change (Str.lower "content-type") with "content-type".
    now rewrite Hh.
Qed.

(** ** One round of the paginator *)

Lemma all_values_app (l1 l2 : list pydict) :
  all_values (l1 ++ l2) = all_values l1 ++ all_values l2.
Proof. unfold all_values. now rewrite fmap_app, concat_app. Qed.

Lemma all_values_cons (p : pydict) (l : list pydict) :
  all_values (p :: l) = page_values p ++ all_values l.
Proof. reflexivity. Qed.

Lemma all_values_snoc (l : list pydict) (p : pydict) :
  all_values (l ++ [p]) = all_values l ++ page_values p.
Proof.
  rewrite all_values_app. unfold all_values at 2. simpl. now rewrite app_nil_r.
Qed.

Lemma slice_to_all {A : Type} (k : Z) (l : list A) :
  k = Z.of_nat (length l) -> slice_to k l = l.
Proof.
  intros ->. unfold slice_to.
  destruct (Z.ltb_spec (Z.of_nat (length l)) 0); [lia|].
  rewrite Nat2Z.id. apply firstn_all.
Qed.

Lemma slice_to_take {A : Type} (k : Z) (l : list A) :
  0 <= k -> slice_to k l = take (Z.to_nat k) l.
Proof.
  intros Hk. unfold slice_to. destruct (Z.ltb_spec k 0); [lia | reflexivity].
Qed.

Lemma after_page_cap max_items out page :
  max_items <= Z.of_nat (length (out ++ page_values page)) ->
  after_page max_items out page
  = Return (slice_to max_items (out ++ page_values page)).
Proof.
  intros H. unfold after_page.
  destruct (Z.geb_spec (Z.of_nat (length (out ++ page_values page))) max_items);
    [reflexivity | lia].
Qed.

Lemma after_page_below max_items out page :
  Z.of_nat (length (out ++ page_values page)) < max_items ->
  after_page max_items out page
  = if truthy (dict_get page "isLastPage" (VBool true))
    then Return (out ++ page_values page)
    else match dict_get page "nextPageStart" VNone with
         | VNone => Return (out ++ page_values page)
         | start => Continue (out ++ page_values page) start
         end.
Proof.
  intros H. unfold after_page.
  destruct (Z.geb_spec (Z.of_nat (length (out ++ page_values page))) max_items);
    [lia | reflexivity].
Qed.

Lemma after_page_continue max_items out page :
  continuing page ->
  Z.of_nat (length (out ++ page_values page)) < max_items ->
  after_page max_items out page
  = Continue (out ++ page_values page) (dict_get page "nextPageStart" VNone).
Proof.
  intros [Hlast Hnext] H. rewrite after_page_below by assumption.
  rewrite Hlast. destruct (dict_get page "nextPageStart" VNone);
    congruence.
Qed.

(** Both defensive shapes end the loop with the accumulator, cut to the
    cap when it has reached it. *)
Lemma after_page_defensive max_items out page :
  defensive_stop page ->
  after_page max_items out page
  = Return (capped max_items (out ++ page_values page)).
Proof.
  intros Hd. unfold capped.
  destruct (Z.geb_spec (Z.of_nat (length (out ++ page_values page))) max_items)
    as [Hge | Hlt].
  - apply after_page_cap. lia.
  - rewrite after_page_below by lia. unfold dict_get.
    destruct Hd as [-> | [-> [-> | ->]]]; reflexivity.
Qed.

Lemma turn_log self path lp limit start st :
  exists rq, log (turn self path lp limit start st) = log st ++ [rq]
             /\ req_method rq = "GET"
             /\ req_params rq
                = update_start_limit start limit <$> (heap st !! lp).
Proof.
  eexists. split; [reflexivity|]. split; [reflexivity|].
  cbn. now rewrite lookup_alter_eq.
Qed.

Lemma turn_length self path lp limit start st :
  length (log (turn self path lp limit start st)) = S (length (log st)).
Proof.
  destruct (turn_log self path lp limit start st) as (rq & -> & _).
  rewrite length_app. simpl. lia.
Qed.

Lemma turn_heap self path lp limit start st :
  heap (turn self path lp limit start st)
  = alter (update_start_limit start limit) lp (heap st).
Proof. reflexivity. Qed.

Section LoopFacts.

Context (py_repr : value -> string).
Context (srv : list HttpRequest -> transport_result).
Context (self : BitbucketClient) (path : string) (lp : loc).
Context (limit max_items : Z).

Local Abbreviation loop fuel := (paged_get_loop py_repr srv fuel self path lp limit max_items).

(** The loop body, when the request is answered by a page. *)
Lemma loop_step fuel out start st page :
  answers_page (srv (log (turn self path lp limit start st))) page ->
  loop (S fuel) out start st
  = match after_page max_items out page with
    | Return res => Some (Ok res, turn self path lp limit start st)
    | Continue out' start' =>
        loop fuel out' start' (turn self path lp limit start st)
    end.
Proof.
  intros (resp & Hsrv & Hcode & Hval). cbn [paged_get_loop].
  unfold turn in Hsrv.
  rewrite (request_responds _ _ _ _ _ _ _ _ _ Hsrv).
  unfold handle_response. destruct (Z.leb_spec 400 (status_code resp)); [lia|].
  rewrite Hval. reflexivity.
Qed.

Lemma serves_in_order_tail n0 q pages :
  serves_in_order srv n0 (q :: pages) -> serves_in_order srv (S n0) pages.
Proof.
  intros H i page Hi lg Hlg. apply (H (S i) page Hi). lia.
Qed.

Lemma serves_in_order_head n0 q pages lg :
  serves_in_order srv n0 (q :: pages) ->
  length lg = S n0 -> answers_page (srv lg) q.
Proof.
  intros H Hlg. apply (H 0%nat q eq_refl). lia.
Qed.

Lemma serves_in_order_prefix n0 pages rest :
  serves_in_order srv n0 (pages ++ rest) -> serves_in_order srv n0 pages.
Proof.
  intros H i page Hi. apply H. now apply lookup_app_l_Some.
Qed.

(** The loop walks through continuing pages that stay below the cap, one
    request each, and accumulates their items in order. *)
Lemma loop_through ps :
  forall p out start st,
    serves_in_order srv (length (log st)) (ps ++ [p]) ->
    Forall continuing ps ->
    (ps <> [] -> Z.of_nat (length (out ++ all_values ps)) < max_items) ->
    exists start' st' new,
      log st' = log st ++ new
      /\ length new = length ps
      /\ Forall is_get new
      /\ forall fuel,
           loop (length ps + fuel) out start st
           = loop fuel (out ++ all_values ps) start' st'.
Proof.
  induction ps as [|q ps IH]; intros p out start st Hsrv Hcont Hlen.
  - exists start, st, []. rewrite app_nil_r. repeat split; [constructor|].
    intros fuel. unfold all_values. simpl. now rewrite app_nil_r.
  - apply Forall_cons in Hcont as [Hq Hcont].
    specialize (Hlen ltac:(discriminate)).
    rewrite all_values_cons, app_assoc in Hlen.
    assert (Z.of_nat (length (out ++ page_values q)) < max_items) as Hlt.
    { rewrite length_app in Hlen. lia. }
    destruct (turn_log self path lp limit start st) as (rq & Hlog & Hget & _).
    destruct (IH p (out ++ page_values q)
                 (dict_get q "nextPageStart" VNone)
                 (turn self path lp limit start st))
      as (start' & st' & new & Hlog' & Hnew & Hgets & Hloop).
    + rewrite turn_length. simpl in Hsrv.
      now apply serves_in_order_tail in Hsrv.
    + assumption.
    + intros _. assumption.
    + exists start', st', (rq :: new). repeat split.
      * rewrite Hlog', Hlog, <- app_assoc. reflexivity.
      * simpl. now rewrite Hnew.
      * constructor; assumption.
      * intros fuel. cbn [length Nat.add].
        rewrite (loop_step _ _ _ _ q).
        -- rewrite after_page_continue by assumption.
           rewrite Hloop, all_values_cons, app_assoc. reflexivity.
        -- simpl in Hsrv. eapply serves_in_order_head; [exact Hsrv|].
           apply turn_length.
Qed.

(** The loop returns at the page that follows continuing pages below the
    cap, when that page ends the round with a result. *)
Lemma loop_returns ps p out start st res :
  serves_in_order srv (length (log st)) (ps ++ [p]) ->
  Forall continuing ps ->
  (ps <> [] -> Z.of_nat (length (out ++ all_values ps)) < max_items) ->
  after_page max_items (out ++ all_values ps) p = Return res ->
  exists st' new,
    log st' = log st ++ new
    /\ length new = S (length ps)
    /\ Forall is_get new
    /\ forall fuel, (length ps < fuel)%nat ->
         loop fuel out start st = Some (Ok res, st').
Proof.
  intros Hsrv Hcont Hlen Hret.
  destruct (loop_through ps p out start st Hsrv Hcont Hlen)
    as (start' & st1 & new & Hlog & Hnew & Hgets & Hloop).
  destruct (turn_log self path lp limit start' st1) as (rq & Hlog' & Hget & _).
  exists (turn self path lp limit start' st1), (new ++ [rq]). repeat split.
  - rewrite Hlog', Hlog, <- app_assoc. reflexivity.
  - rewrite length_app, Hnew. simpl. lia.
  - apply Forall_app. split; [assumption | repeat constructor; assumption].
  - intros fuel Hfuel.
    replace fuel with (length ps + S (fuel - S (length ps)))%nat by lia.
    rewrite Hloop, (loop_step _ _ _ _ p), Hret; [reflexivity|].
    apply (Hsrv (length ps) p).
    + rewrite lookup_app_r by lia. now rewrite Nat.sub_diag.
    + rewrite turn_length, Hlog, length_app, Hnew. lia.
Qed.

End LoopFacts.

(** ** Runs of [paged_get] *)

Lemma paged_get_eq py_repr srv fuel self path params limit max_items st :
  paged_get py_repr srv fuel self path params limit max_items st
  = paged_get_loop py_repr srv fuel self path (fst (copy_params params st))
      limit max_items [] (VInt 0) (snd (copy_params params st)).
Proof. reflexivity. Qed.

Lemma copy_params_log params st : log (snd (copy_params params st)) = log st.
Proof. reflexivity. Qed.

(** [paged_get] returns at the page that follows continuing pages below
    the cap, when that page ends the round with a result; it has then sent
    one GET request per page. *)
Lemma paged_get_returns py_repr srv self path params limit max_items st ps p res :
  serves_in_order srv (length (log st)) (ps ++ [p]) ->
  Forall continuing ps ->
  (ps <> [] -> Z.of_nat (length (all_values ps)) < max_items) ->
  after_page max_items (all_values ps) p = Return res ->
  exists st' new,
    log st' = log st ++ new
    /\ length new = S (length ps)
    /\ Forall is_get new
    /\ forall fuel, (length ps < fuel)%nat ->
         paged_get py_repr srv fuel self path params limit max_items st
         = Some (Ok res, st').
Proof.
  intros Hsrv Hcont Hlen Hret.
  destruct (loop_returns py_repr srv self path (fst (copy_params params st))
              limit max_items ps p [] (VInt 0) (snd (copy_params params st)) res)
    as (st' & new & Hlog & Hnew & Hgets & Hloop); try assumption.
  exists st', new. rewrite copy_params_log in Hlog.
  split; [exact Hlog|]. split; [exact Hnew|]. split; [exact Hgets|].
  intros fuel Hfuel. rewrite paged_get_eq. now apply Hloop.
Qed.

Lemma capped_below max_items (out : list value) :
  Z.of_nat (length out) <= max_items -> capped max_items out = out.
Proof.
  intros H. unfold capped.
  destruct (Z.geb_spec (Z.of_nat (length out)) max_items); [|reflexivity].
  apply slice_to_all. lia.
Qed.

(** C6, as stated, fails when the defensive page takes the accumulator
    over the cap: with [max_items = 2] and one page of three items, whose
    [isLastPage] is missing or is false without a cursor, the result is
    the first two items, not the accumulator with that page's values. *)
Lemma defensive_stop_is_capped :
  let p1 := mk_page [VInt 1; VInt 2; VInt 3] None None in
  let p2 := mk_page [VInt 1; VInt 2; VInt 3] (Some (VBool false)) None in
  p1 !! "isLastPage" = None
  /\ p2 !! "isLastPage" = Some (VBool false) /\ p2 !! "nextPageStart" = None
  /\ result_of (paged_get repr_unused (serve_pages [p1]) 1 demo_client
                  "pull-requests" None 50 2 (initial_state ∅))
     = Some (Ok [VInt 1; VInt 2])
  /\ result_of (paged_get repr_unused (serve_pages [p2]) 1 demo_client
                  "pull-requests" None 50 2 (initial_state ∅))
     = Some (Ok [VInt 1; VInt 2])
  /\ [VInt 1; VInt 2] <> all_values [p1]
  /\ [VInt 1; VInt 2] <> all_values [p2].
Proof.
  cbv zeta. repeat split; try (vm_compute; reflexivity); vm_compute; discriminate.
Qed.

(** C6, amended.  After continuing pages below the cap, a page whose
    [isLastPage] is missing, or is false while [nextPageStart] is absent or
    null, ends [paged_get] without an exception and without a further
    request: the result is the accumulator with that page's values, cut to
    [max_items] when it has reached it, and so the accumulator as it is
    whenever its length does not exceed [max_items].  A missing
    [isLastPage] acts as a true one. *)
Theorem paged_get_defensive_stop py_repr srv self path params limit max_items st ps p :
  serves_in_order srv (length (log st)) (ps ++ [p]) ->
  Forall continuing ps ->
  (ps <> [] -> Z.of_nat (length (all_values ps)) < max_items) ->
  defensive_stop p ->
  (exists st' new,
     log st' = log st ++ new
     /\ length new = S (length ps)
     /\ Forall is_get new
     /\ forall fuel, (length ps < fuel)%nat ->
          paged_get py_repr srv fuel self path params limit max_items st
          = Some (Ok (capped max_items (all_values (ps ++ [p]))), st'))
  /\ (Z.of_nat (length (all_values (ps ++ [p]))) <= max_items ->
      capped max_items (all_values (ps ++ [p])) = all_values (ps ++ [p]))
  /\ (p !! "isLastPage" = None ->
      forall out, after_page max_items out p
                  = after_page max_items out (<["isLastPage" := VBool true]> p)).
Proof.
  intros Hsrv Hcont Hlen Hdef. split; [|split].
  - rewrite all_values_snoc.
    apply (paged_get_returns _ _ _ _ _ _ _ _ ps p); try assumption.
    now apply after_page_defensive.
  - apply capped_below.
  - intros Hnone out. unfold after_page, page_values, dict_get.
    rewrite Hnone, lookup_insert_eq, lookup_insert_ne by discriminate.
    destruct (_ >=? _); reflexivity.
Qed.

(** ** The cap *)

Lemma all_values_take_le (m : nat) (pages : list pydict) :
  (length (all_values (take m pages)) <= length (all_values pages))%nat.
Proof.
  rewrite <- (take_drop m pages) at 2. rewrite all_values_app, length_app. lia.
Qed.

(** The first page at which the running total reaches [k]. *)
Lemma first_page_reaching (k : Z) (pages : list pydict) :
  forall acc : Z,
    pages <> [] ->
    k <= acc + Z.of_nat (length (all_values pages)) ->
    exists pre p post,
      pages = pre ++ p :: post
      /\ (pre <> [] -> acc + Z.of_nat (length (all_values pre)) < k)
      /\ k <= acc + Z.of_nat (length (all_values (pre ++ [p]))).
Proof.
  induction pages as [|q rest IH]; intros acc Hne Hk; [congruence|].
  destruct (Z_le_gt_dec k (acc + Z.of_nat (length (page_values q)))) as [Hq | Hq].
  - exists [], q, rest. repeat split; [congruence|].
    simpl. rewrite all_values_cons, length_app. unfold all_values. simpl. lia.
  - rewrite all_values_cons, length_app in Hk.
    destruct rest as [|q' rest'].
    { unfold all_values in Hk. simpl in Hk. lia. }
    destruct (IH (acc + Z.of_nat (length (page_values q))) ltac:(discriminate)
                 ltac:(lia)) as (pre & p & post & Heq & Hpre & Hp).
    exists (q :: pre), p, post. repeat split.
    + simpl. now rewrite Heq.
    + intros _. rewrite all_values_cons, length_app.
      destruct pre as [|q0 pre0].
      * unfold all_values. simpl. lia.
      * specialize (Hpre ltac:(discriminate)). lia.
    + change ((q :: pre) ++ [p]) with (q :: (pre ++ [p])).
      rewrite all_values_cons, length_app. lia.
Qed.

(** When the pages hold at least [k] items and every page but the last is
    a continuing one, [paged_get] returns the first [k] items and stops at
    the first page at which the running total reaches [k]. *)
Lemma paged_get_reaches_cap py_repr srv self path params limit k st pages :
  serves_in_order srv (length (log st)) pages ->
  (forall i q, pages !! i = Some q -> (S i < length pages)%nat -> continuing q) ->
  pages <> [] ->
  0 <= k <= Z.of_nat (length (all_values pages)) ->
  exists n st' new,
    log st' = log st ++ new
    /\ length new = n
    /\ Forall is_get new
    /\ (1 <= n <= length pages)%nat
    /\ (forall fuel, (n <= fuel)%nat ->
          paged_get py_repr srv fuel self path params limit k st
          = Some (Ok (take (Z.to_nat k) (all_values pages)), st'))
    /\ k <= Z.of_nat (length (all_values (take n pages)))
    /\ (forall m, (1 <= m < n)%nat ->
          Z.of_nat (length (all_values (take m pages))) < k).
Proof.
  intros Hsrv Hcont Hne Hk.
  destruct (first_page_reaching k pages 0 Hne ltac:(lia))
    as (pre & p & post & Heq & Hpre & Hp).
  assert (pages = (pre ++ [p]) ++ post) as Heq'.
  { rewrite Heq, <- app_assoc. reflexivity. }
  assert (Forall continuing pre) as Hpre_cont.
  { apply Forall_lookup. intros i q Hi. apply (Hcont i q).
    - rewrite Heq. now apply lookup_app_l_Some.
    - apply lookup_lt_Some in Hi. rewrite Heq, length_app. simpl. lia. }
  destruct (paged_get_returns py_repr srv self path params limit k st pre p
              (slice_to k (all_values pre ++ page_values p)))
    as (st' & new & Hlog & Hnew & Hgets & Hrun).
  - apply (serves_in_order_prefix _ _ _ post). now rewrite <- Heq'.
  - assumption.
  - intros Hpne. specialize (Hpre Hpne). lia.
  - apply after_page_cap. rewrite all_values_snoc in Hp. lia.
  - exists (S (length pre)), st', new.
    split; [assumption|]. split; [assumption|]. split; [assumption|].
    split; [rewrite Heq, length_app; simpl; lia|].
    rewrite all_values_snoc in Hp. split; [|split].
    + intros fuel Hfuel. rewrite Hrun by lia. do 3 f_equal.
      rewrite slice_to_take by lia.
      rewrite Heq', all_values_app, all_values_snoc.
      symmetry. apply take_app_le. lia.
    + replace (take (S (length pre)) pages) with (pre ++ [p]).
      * rewrite all_values_snoc. lia.
      * rewrite Heq'. symmetry.
        replace (S (length pre)) with (length (pre ++ [p]))
          by (rewrite length_app; simpl; lia).
        apply take_app_length.
    + intros m Hm.
      assert (pre <> []) as Hpne by (destruct pre; [simpl in Hm; lia | discriminate]).
      specialize (Hpre Hpne).
      replace (take m pages) with (take m pre)
        by (rewrite Heq; symmetry; apply take_app_le; lia).
      pose proof (all_values_take_le m pre). lia.
Qed.

(** ** Scripted servers *)

Lemma success_value_json_response (j : value) :
  success_value (json_response j) = Ok j.
Proof. reflexivity. Qed.

Lemma answers_page_json_response (page : pydict) :
  answers_page (Responds (json_response (VDict page))) page.
Proof.
  exists (json_response (VDict page)). split; [reflexivity|].
  split; [reflexivity | apply success_value_json_response].
Qed.

Lemma serve_pages_serves (pages : list pydict) :
  serves_in_order (serve_pages pages) 0 pages.
Proof.
  intros i page Hi lg Hlg. unfold serve_pages, scripted.
  replace (length lg - 1)%nat with i by lia.
  rewrite list_lookup_fmap, Hi. apply answers_page_json_response.
Qed.

(** ** C5: the cap *)

(** C5, as stated, fails in two ways.  A negative [max_items] is below the
    number of items and the result cannot have that many items: with
    [max_items = -1] and one page of two items the result has one item.
    And a page that is not the last but has no cursor ends the run before
    the cap: with [max_items = 2] and three items on two pages, the first
    page without [nextPageStart], the result has one item. *)
Lemma cap_not_always_reached :
  let pages1 := [mk_page [VInt 1; VInt 2] (Some (VBool true)) None] in
  let pages2 := [mk_page [VInt 1] (Some (VBool false)) None;
                 mk_page [VInt 2; VInt 3] (Some (VBool true)) None] in
  (-1 < Z.of_nat (length (all_values pages1))
   /\ forall fuel,
        result_of (paged_get repr_unused (serve_pages pages1) (S fuel) demo_client
                     "pull-requests" None 50 (-1) (initial_state ∅))
        = Some (Ok [VInt 1]))
  /\ (2 < Z.of_nat (length (all_values pages2))
      /\ forall fuel,
           result_of (paged_get repr_unused (serve_pages pages2) (S fuel) demo_client
                        "pull-requests" None 50 2 (initial_state ∅))
           = Some (Ok [VInt 1])).
Proof.
  cbv zeta. split; (split; [vm_compute; reflexivity|]); intros fuel;
    vm_compute; reflexivity.
Qed.

(** C5, amended.  For [0 <= k] below the number of items on the pages the
    server serves, every page but the last being a continuing one (a false
    [isLastPage] and a non-null [nextPageStart]): [paged_get] with
    [max_items = k] returns exactly [k] items, the first [k] in server
    order, and its last request is the one answered by the first page at
    which the running total reaches [k]. *)
Theorem paged_get_cap py_repr srv self path params limit k st pages :
  serves_in_order srv (length (log st)) pages ->
  (forall i q, pages !! i = Some q -> (S i < length pages)%nat -> continuing q) ->
  0 <= k < Z.of_nat (length (all_values pages)) ->
  exists n st' new,
    log st' = log st ++ new
    /\ length new = n
    /\ Forall is_get new
    /\ (1 <= n <= length pages)%nat
    /\ (forall fuel, (n <= fuel)%nat ->
          paged_get py_repr srv fuel self path params limit k st
          = Some (Ok (take (Z.to_nat k) (all_values pages)), st'))
    /\ Z.of_nat (length (take (Z.to_nat k) (all_values pages))) = k
    /\ k <= Z.of_nat (length (all_values (take n pages)))
    /\ (forall m, (1 <= m < n)%nat ->
          Z.of_nat (length (all_values (take m pages))) < k).
Proof.
  intros Hsrv Hcont Hk.
  assert (pages <> []) as Hne.
  { intros ->. unfold all_values in Hk. simpl in Hk. lia. }
  destruct (paged_get_reaches_cap py_repr srv self path params limit k st pages
              Hsrv Hcont Hne ltac:(lia))
    as (n & st' & new & Hlog & Hnew & Hgets & Hn & Hrun & Hreach & Hfirst).
  exists n, st', new. repeat (split; [assumption|]).
  split; [|split; assumption].
  rewrite length_take. lia.
Qed.

Lemma paged_get_cap_witness :
  let pages := [mk_page [VInt 1; VInt 2] (Some (VBool false)) (Some (VInt 2));
                mk_page [VInt 3; VInt 4] (Some (VBool true)) None] in
  exists n st' new,
    log st' = new
    /\ length new = n
    /\ Forall is_get new
    /\ (1 <= n <= 2)%nat
    /\ (forall fuel, (n <= fuel)%nat ->
          paged_get repr_unused (serve_pages pages) fuel demo_client
            "pull-requests" None 50 3 (initial_state ∅)
          = Some (Ok [VInt 1; VInt 2; VInt 3], st'))
    /\ Z.of_nat 3 = 3
    /\ 3 <= Z.of_nat (length (all_values (take n pages)))
    /\ (forall m, (1 <= m < n)%nat ->
          Z.of_nat (length (all_values (take m pages))) < 3).
Proof.
  intros pages.
  apply (paged_get_cap repr_unused (serve_pages pages) demo_client
           "pull-requests" None 50 3 (initial_state ∅) pages).
  - apply serve_pages_serves.
  - intros i q Hi Hlt. destruct i as [|[|i]]; simpl in Hlt; try lia.
    injection Hi as <-. split; [reflexivity | discriminate].
  - vm_compute. split; [discriminate | reflexivity].
Defined.

(** ** C1: all pages *)





(** ** C7: termination *)

Lemma empty_page_continues (c : Z) :
  after_page 1 [] (mk_page [] (Some (VBool false)) (Some (VInt c)))
  = Continue [] (VInt c).
Proof. reflexivity. Qed.

Lemma empty_pages_loop_runs_on (fuel : nat) :
  forall lp start st,
    paged_get_loop repr_unused empty_pages_forever fuel demo_client
      "pull-requests" lp 50 1 [] start st = None.
Proof.
  induction fuel as [|fuel IH]; intros lp start st; [reflexivity|].
  rewrite (loop_step _ _ _ _ _ _ _ _ _ _ _
             (mk_page [] (Some (VBool false))
                (Some (VInt (Z.of_nat
                   (length (log (turn demo_client "pull-requests" lp 50 start st)))))))).
  - rewrite empty_page_continues. apply IH.
  - apply answers_page_json_response.
Qed.

(** C7, as stated, fails: a server whose pages all report
    [isLastPage = false] with a cursor that grows by one at each request,
    and hold no item, keeps [paged_get] with [max_items = 1] in its loop
    whatever the number of rounds allowed. *)
Lemma empty_pages_never_halt :
  (forall lg, exists page,
      answers_page (empty_pages_forever lg) page
      /\ page !! "isLastPage" = Some (VBool false)
      /\ page !! "nextPageStart" = Some (VInt (Z.of_nat (length lg))))
  /\ forall fuel,
       paged_get repr_unused empty_pages_forever fuel demo_client
         "pull-requests" None 50 1 (initial_state ∅) = None.
Proof.
  split.
  - intros lg. eexists. split; [apply answers_page_json_response|].
    split; reflexivity.
  - intros fuel. rewrite paged_get_eq. apply empty_pages_loop_runs_on.
Qed.

Section Termination.

Context (py_repr : value -> string).
Context (srv : list HttpRequest -> transport_result).
Context (self : BitbucketClient) (path : string) (lp : loc).
Context (limit max_items : Z).

Hypothesis always_an_item :
  forall lg, exists page,
    answers_page (srv lg) page /\ continuing page /\ page_values page <> [].

(** With at least one item on every page, the distance of the accumulator
    to the cap bounds the number of rounds. *)
Lemma loop_halts (m : nat) :
  forall out start st,
    max_items - Z.of_nat (length out) <= Z.of_nat m ->
    exists n res st' new,
      log st' = log st ++ new
      /\ length new = n
      /\ (1 <= n <= Nat.max 1 m)%nat
      /\ (forall fuel, (n <= fuel)%nat ->
            paged_get_loop py_repr srv fuel self path lp limit max_items out start st
            = Some (Ok res, st'))
      /\ (0 <= max_items -> Z.of_nat (length res) = max_items).
Proof.
  induction m as [|m IH]; intros out start st Hm.
  - destruct (always_an_item (log (turn self path lp limit start st)))
      as (page & Hans & Hcont & Hitem).
    destruct (turn_log self path lp limit start st) as (rq & Hlog & _).
    exists 1%nat, (slice_to max_items (out ++ page_values page)),
      (turn self path lp limit start st), [rq].
    split; [assumption|]. split; [reflexivity|]. split; [lia|]. split.
    + intros [|fuel] Hfuel; [lia|].
      rewrite (loop_step _ _ _ _ _ _ _ _ _ _ _ page Hans).
      rewrite after_page_cap; [reflexivity|]. rewrite length_app. lia.
    + intros Hpos. rewrite slice_to_take, length_take, length_app by lia. lia.
  - destruct (always_an_item (log (turn self path lp limit start st)))
      as (page & Hans & Hcont & Hitem).
    destruct (turn_log self path lp limit start st) as (rq & Hlog & _).
    assert (1 <= length (page_values page))%nat as Hone.
    { destruct (page_values page); [congruence | simpl; lia]. }
    destruct (Z_lt_ge_dec (Z.of_nat (length (out ++ page_values page))) max_items)
      as [Hlt | Hge].
    + rewrite length_app in Hlt.
      destruct (IH (out ++ page_values page)
                   (dict_get page "nextPageStart" VNone)
                   (turn self path lp limit start st))
        as (n & res & st' & new & Hlog' & Hnew & Hn & Hrun & Hres).
      { rewrite length_app. lia. }
      exists (S n), res, st', (rq :: new).
      split; [rewrite Hlog', Hlog, <- app_assoc; reflexivity|].
      split; [simpl; now rewrite Hnew|].
      split; [lia|]. split; [|assumption].
      intros [|fuel] Hfuel; [lia|].
      rewrite (loop_step _ _ _ _ _ _ _ _ _ _ _ page Hans).
      rewrite after_page_continue by (rewrite ?length_app; assumption || lia).
      apply Hrun. lia.
    + exists 1%nat, (slice_to max_items (out ++ page_values page)),
        (turn self path lp limit start st), [rq].
      split; [assumption|]. split; [reflexivity|]. split; [lia|]. split.
      * intros [|fuel] Hfuel; [lia|].
        rewrite (loop_step _ _ _ _ _ _ _ _ _ _ _ page Hans).
        rewrite after_page_cap; [reflexivity | lia].
      * intros Hpos. rewrite slice_to_take, length_take by lia. lia.
Qed.

End Termination.

(** C7, amended.  When every page the server serves reports a false
    [isLastPage], supplies a non-null cursor and holds at least one item,
    [paged_get] terminates for every [max_items], halted by the cap: after
    at most [max 1 max_items] requests it returns, and the result has
    exactly [max_items] items when that is not negative. *)
Theorem paged_get_halts py_repr srv self path params limit max_items st :
  (forall lg, exists page,
     answers_page (srv lg) page /\ continuing page /\ page_values page <> []) ->
  exists n res st' new,
    log st' = log st ++ new
    /\ length new = n
    /\ (1 <= n <= Nat.max 1 (Z.to_nat max_items))%nat
    /\ (forall fuel, (n <= fuel)%nat ->
          paged_get py_repr srv fuel self path params limit max_items st
          = Some (Ok res, st'))
    /\ (0 <= max_items -> Z.of_nat (length res) = max_items).
Proof.
  intros Hsrv.
  destruct (loop_halts py_repr srv self path (fst (copy_params params st))
              limit max_items Hsrv (Z.to_nat max_items) [] (VInt 0)
              (snd (copy_params params st)))
    as (n & res & st' & new & Hlog & Hnew & Hn & Hrun & Hres).
  { simpl. lia. }
  exists n, res, st', new. rewrite copy_params_log in Hlog.
  split; [assumption|]. split; [assumption|]. split; [assumption|].
  split; [|assumption]. intros fuel Hfuel. rewrite paged_get_eq. now apply Hrun.
Qed.

(** ** C10: the query parameters *)

Lemma after_page_Continue_inv max_items out page out' start' :
  after_page max_items out page = Continue out' start' ->
  page !! "nextPageStart" = Some start'.
Proof.
  unfold after_page, dict_get. destruct (_ >=? _); [discriminate|].
  destruct (truthy _); [discriminate|].
  destruct (page !! "nextPageStart") as [v|]; [|discriminate].
  destruct v; intros H; inversion H; reflexivity.
Qed.

Lemma handle_response_Ok py_repr method url resp v :
  handle_response py_repr method url resp = Ok v ->
  status_code resp < 400 /\ success_value resp = Ok v.
Proof.
  unfold handle_response. destruct (Z.leb_spec 400 (status_code resp)) as [Hge | Hlt].
  - discriminate.
  - intros Hv. split; [lia | assumption].
Qed.

(** The dictionary of the paginator after [update]: its own [start] and
    [limit], and the caller's entries elsewhere. *)
Lemma update_start_limit_lookup (d dp : pydict) (limit : Z) (start : value) :
  (forall k : string, k <> "start" -> k <> "limit" -> dp !! k = d !! k) ->
  update_start_limit start limit dp !! "start" = Some start
  /\ update_start_limit start limit dp !! "limit" = Some (VInt limit)
  /\ forall k : string, k <> "start" -> k <> "limit" ->
       update_start_limit start limit dp !! k = d !! k.
Proof.
  intros Hd. unfold update_start_limit. split; [|split].
  - rewrite lookup_insert_ne by discriminate. apply lookup_insert_eq.
  - apply lookup_insert_eq.
  - intros k Hs Hl. rewrite !lookup_insert_ne by congruence. now apply Hd.
Qed.

Section Params.

Context (py_repr : value -> string).
Context (srv : list HttpRequest -> transport_result).
Context (self : BitbucketClient) (path : string) (lp : loc).
Context (limit max_items : Z).
Context (d : pydict).

Lemma turn_paginator_params start st dp :
  heap st !! lp = Some dp ->
  (forall k : string, k <> "start" -> k <> "limit" -> dp !! k = d !! k) ->
  exists rq,
    log (turn self path lp limit start st) = log st ++ [rq]
    /\ paginator_params d limit start rq
    /\ heap (turn self path lp limit start st) !! lp
       = Some (update_start_limit start limit dp).
Proof.
  intros Hlp Hd.
  destruct (turn_log self path lp limit start st) as (rq & Hlog & Hget & Hparams).
  destruct (update_start_limit_lookup d dp limit start Hd) as (Hs & Hl & Hk).
  exists rq. split; [assumption|]. split.
  - split; [assumption|]. exists (update_start_limit start limit dp).
    rewrite Hparams, Hlp. repeat split; assumption.
  - rewrite turn_heap, lookup_alter_eq, Hlp. reflexivity.
Qed.

(** The loop body, by the outcome of the HTTP library. *)
Lemma loop_unfold fuel out start st :
  paged_get_loop py_repr srv (S fuel) self path lp limit max_items out start st
  = let st2 := turn self path lp limit start st in
    match srv (log st2) with
    | Responds resp =>
        match handle_response py_repr "GET" (request_url self path) resp with
        | Raise e => Some (Raise e, st2)
        | Ok (VDict page) =>
            match after_page max_items out page with
            | Return res => Some (Ok res, st2)
            | Continue out' start' =>
                paged_get_loop py_repr srv fuel self path lp limit max_items
                  out' start' st2
            end
        | Ok _ => Some (Raise AttributeError, st2)
        end
    | RaisesRequestException e =>
        Some (Raise (BBError ("Request failed: " +:+ rex_str e) (Some e)), st2)
    | RaisesForeign name => Some (Raise (ForeignException name), st2)
    end.
Proof.
  cbn [paged_get_loop]. unfold request. cbv zeta.
  change {| heap := heap {| heap := alter (update_start_limit start limit) lp (heap st);
                            log := log st |};
            log := log {| heap := alter (update_start_limit start limit) lp (heap st);
                          log := log st |}
                   ++ [build_request self "GET" path (Some lp) None
                         {| heap := alter (update_start_limit start limit) lp (heap st);
                            log := log st |}] |}
    with (turn self path lp limit start st).
  destruct (srv (log (turn self path lp limit start st))); reflexivity.
Qed.

(** Every request of the loop carries the paginator's cursor and page
    size over the caller's entries, and only the paginator's own
    dictionary is written. *)
Lemma loop_params (fuel : nat) :
  forall out start st dp r st',
    heap st !! lp = Some dp ->
    (forall k : string, k <> "start" -> k <> "limit" -> dp !! k = d !! k) ->
    paged_get_loop py_repr srv fuel self path lp limit max_items out start st
    = Some (r, st') ->
    (forall l, l <> lp -> heap st' !! l = heap st !! l)
    /\ exists new,
         log st' = log st ++ new
         /\ cursor_chain srv d limit start (log st) new.
Proof.
  induction fuel as [|fuel IH]; intros out start st dp r st' Hlp Hd Hrun;
    [discriminate|].
  destruct (turn_paginator_params start st dp Hlp Hd) as (rq & Hlog & Hrq & Hlp').
  assert (forall l, l <> lp ->
            heap (turn self path lp limit start st) !! l = heap st !! l) as Hframe.
  { intros l Hl. rewrite turn_heap. now apply lookup_alter_ne. }
  assert (forall res : outcome (list value),
            Some (res, turn self path lp limit start st) = Some (r, st') ->
            (forall l, l <> lp -> heap st' !! l = heap st !! l)
            /\ exists new, log st' = log st ++ new
                           /\ cursor_chain srv d limit start (log st) new) as Hstop.
  { intros res Heq. injection Heq as _ <-. split; [assumption|].
    exists [rq]. split; [assumption | now constructor]. }
  rewrite loop_unfold in Hrun. cbv zeta in Hrun.
  destruct (srv (log (turn self path lp limit start st))) as [resp|e|name] eqn:Hsrv.
  - destruct (handle_response py_repr "GET" (request_url self path) resp)
      as [v|e] eqn:Hresp; [|now apply (Hstop (Raise e))].
    destruct v as [| | | | |page]; try now apply (Hstop (Raise AttributeError)).
    destruct (after_page max_items out page) as [res|out' start'] eqn:Hafter;
      [now apply (Hstop (Ok res))|].
    apply (IH out' start' _ (update_start_limit start limit dp)) in Hrun;
      [|assumption|apply (update_start_limit_lookup d dp limit start Hd)].
    destruct Hrun as (Hheap & new & Hlog' & Hchain). split.
    + intros l Hl. rewrite Hheap by assumption. now apply Hframe.
    + exists (rq :: new). split.
      * rewrite Hlog', Hlog, <- app_assoc. reflexivity.
      * rewrite Hlog in Hchain, Hsrv.
        apply handle_response_Ok in Hresp as [Hcode Hval].
        apply (chain_next srv d limit start start' (log st) rq page new);
          try assumption.
        -- exists resp. repeat split; assumption.
        -- eapply after_page_Continue_inv; eassumption.
  - now apply (Hstop (Raise (BBError ("Request failed: " +:+ rex_str e) (Some e)))).
  - now apply (Hstop (Raise (ForeignException name))).
Qed.

End Params.

Lemma cursor_chain_params srv d limit start lg new :
  cursor_chain srv d limit start lg new ->
  Forall (fun rq => exists s, paginator_params d limit s rq) new
  /\ exists rq rest, new = rq :: rest /\ paginator_params d limit start rq.
Proof.
  induction 1 as [start lg rq Hrq | start start' lg rq page rest Hrq Hans Hnext Hchain [IH _]].
  - split; [repeat constructor; now exists start | now exists rq, []].
  - split; [constructor; [now exists start | assumption] | now exists rq, rest].
Qed.

(** C10.  When [paged_get] is called with the caller's mapping [d] and
    comes back, with a result or an exception: every request it sent is a
    GET whose query parameters hold the paginator's [start] and [limit],
    whatever [d] has under these keys, and the entries of [d] under every
    other key; the first [start] is 0 and each later one is the
    [nextPageStart] of the page before; and the caller's mapping, like
    every other object of the store, is as it was. *)
Theorem paged_get_params py_repr srv fuel self path l d limit max_items st r st' :
  heap st !! l = Some d ->
  paged_get py_repr srv fuel self path (Some l) limit max_items st = Some (r, st') ->
  heap st' !! l = Some d
  /\ (forall l' d', heap st !! l' = Some d' -> heap st' !! l' = Some d')
  /\ exists new,
       log st' = log st ++ new
       /\ Forall (fun rq => exists s, paginator_params d limit s rq) new
       /\ (exists rq rest, new = rq :: rest /\ paginator_params d limit (VInt 0) rq)
       /\ cursor_chain srv d limit (VInt 0) (log st) new.
Proof.
  intros Hl Hrun. rewrite paged_get_eq in Hrun.
  unfold copy_params in Hrun. cbn [fst snd] in Hrun.
  change (Some l ≫= (fun l0 => heap st !! l0)) with (heap st !! l) in Hrun.
  rewrite Hl in Hrun.
  set (lp := fresh (dom (heap st))) in *.
  assert (heap st !! lp = None) as Hfresh.
  { apply not_elem_of_dom. apply is_fresh. }
  apply (loop_params py_repr srv self path lp limit max_items d fuel
           [] (VInt 0) _ d r st') in Hrun.
  - destruct Hrun as (Hframe & new & Hlog & Hchain).
    assert (forall l' d', heap st !! l' = Some d' -> heap st' !! l' = Some d') as Hkeep.
    { intros l' d' Hl'. assert (l' <> lp) as Hne by congruence.
      rewrite Hframe by assumption. cbn [heap].
      rewrite lookup_insert_ne by congruence. assumption. }
    split; [now apply Hkeep|]. split; [assumption|].
    exists new. cbn [log] in Hlog, Hchain.
    destruct (cursor_chain_params _ _ _ _ _ _ Hchain) as [Hall Hhead].
    repeat split; assumption.
  - cbn [heap]. apply lookup_insert_eq.
  - reflexivity.
Qed.

(** ** The theorems at concrete inputs *)

Lemma request_http_error_witness :
  let srv := scripted [Responds not_found_response] in
  let st := initial_state ∅ in
  srv (log (sent demo_client "GET" "/projects/X" None None st))
  = Responds not_found_response
  /\ 400 <= status_code not_found_response
  /\ request repr_unused srv demo_client "GET" "/projects/X" None None st
     = (Raise (BBError
          "HTTP 404 for GET https://host/bitbucket/rest/api/latest/projects/X: Repository not found"
          None),
        sent demo_client "GET" "/projects/X" None None st)
  /\ error_detail not_found_response = VStr "Repository not found".
Proof.
  intros srv st.
  assert (srv (log (sent demo_client "GET" "/projects/X" None None st))
          = Responds not_found_response) as Hsrv by reflexivity.
  assert (400 <= status_code not_found_response) as Hcode by (simpl; lia).
  split; [exact Hsrv|]. split; [exact Hcode|].
  destruct (request_http_error repr_unused srv demo_client "GET" "/projects/X"
              None None st not_found_response Hsrv Hcode)
    as [(tail & Hreq & Htail & _) Hprefers].
  split.
  - rewrite Hreq, Htail. reflexivity.
  - eapply Hprefers; reflexivity.
Defined.

Lemma request_success_witness :
  let pr := VDict {[ "id" := VInt 7; "title" := VStr "Add viz panel" ]} in
  let srv := scripted [Responds (json_response pr); Responds plain_response] in
  let st := initial_state ∅ in
  let st' := sent demo_client "GET" "/projects" None None st in
  srv (log (sent demo_client "GET" "/projects" None None st))
  = Responds (json_response pr)
  /\ status_code (json_response pr) < 400
  /\ fst (request repr_unused srv demo_client "GET" "/projects" None None st) = Ok pr
  /\ srv (log (sent demo_client "GET" "/ping" None None st')) = Responds plain_response
  /\ status_code plain_response < 400
  /\ fst (request repr_unused srv demo_client "GET" "/ping" None None st')
     = Ok (VDict {[ "raw" := VStr "pong" ]}).
Proof.
  intros pr srv st st'.
  assert (srv (log (sent demo_client "GET" "/projects" None None st))
          = Responds (json_response pr)) as Hsrv by reflexivity.
  assert (status_code (json_response pr) < 400) as Hcode by (simpl; lia).
  assert (srv (log (sent demo_client "GET" "/ping" None None st'))
          = Responds plain_response) as Hsrv' by reflexivity.
  assert (status_code plain_response < 400) as Hcode' by (simpl; lia).
  split; [exact Hsrv|]. split; [exact Hcode|]. split; [|split; [exact Hsrv'|split; [exact Hcode'|]]].
  - destruct (request_success repr_unused srv demo_client "GET" "/projects"
                None None st (json_response pr) Hsrv Hcode) as (_ & Hjson & _).
    destruct (Hjson "application/json;charset=UTF-8") as [Hdecoded _];
      [discriminate | reflexivity | reflexivity |].
    apply Hdecoded. reflexivity.
  - destruct (request_success repr_unused srv demo_client "GET" "/ping"
                None None st' plain_response Hsrv' Hcode') as (_ & _ & Hraw).
    apply Hraw; [discriminate|].
    intros ct [= <-]. reflexivity.
Defined.

Lemma request_transport_failure_witness :
  let srv := scripted [RaisesRequestException connection_refused] in
  let st := initial_state ∅ in
  srv (log (sent demo_client "GET" "dashboard/pull-requests" None None st))
  = RaisesRequestException connection_refused
  /\ request repr_unused srv demo_client "GET" "dashboard/pull-requests" None None st
     = (Raise (BBError "Request failed: Connection refused" (Some connection_refused)),
        sent demo_client "GET" "dashboard/pull-requests" None None st).
Proof.
  intros srv st. split; [reflexivity|].
  apply (request_transport_failure repr_unused srv demo_client "GET"
           "dashboard/pull-requests" None None st connection_refused).
  reflexivity.
Defined.

Lemma paged_get_defensive_stop_witness :
  let p := mk_page [VInt 1; VInt 2] (Some (VBool false)) None in
  defensive_stop p
  /\ exists st' new,
       log st' = new
       /\ length new = 1%nat
       /\ Forall is_get new
       /\ forall fuel, (0 < fuel)%nat ->
            paged_get repr_unused (serve_pages [p]) fuel demo_client
              "pull-requests" None 50 200 (initial_state ∅)
            = Some (Ok [VInt 1; VInt 2], st').
Proof.
  intros p.
  assert (defensive_stop p) as Hdef.
  { right. split; [reflexivity | left; reflexivity]. }
  split; [exact Hdef|].
  apply (paged_get_defensive_stop repr_unused (serve_pages [p]) demo_client
           "pull-requests" None 50 200 (initial_state ∅) [] p).
  - apply serve_pages_serves.
  - constructor.
  - congruence.
  - exact Hdef.
Defined.

Lemma one_item_forever_serves (lg : list HttpRequest) :
  exists page,
    answers_page (one_item_forever lg) page
    /\ continuing page /\ page_values page <> [].
Proof.
  eexists. split; [apply answers_page_json_response|].
  split; [split; [reflexivity | discriminate] | discriminate].
Qed.

Lemma paged_get_halts_witness :
  exists n res st' new,
    log st' = new
    /\ length new = n
    /\ (1 <= n <= 3)%nat
    /\ (forall fuel, (n <= fuel)%nat ->
          paged_get repr_unused one_item_forever fuel demo_client
            "pull-requests" None 50 3 (initial_state ∅)
          = Some (Ok res, st'))
    /\ (0 <= 3 -> Z.of_nat (length res) = 3).
Proof.
  apply (paged_get_halts repr_unused one_item_forever demo_client
           "pull-requests" None 50 3 (initial_state ∅)).
  apply one_item_forever_serves.
Defined.

Lemma paged_get_params_witness :
  let st := initial_state {[ 0%nat := caller_params ]} in
  let srv := serve_pages [mk_page [VInt 1] (Some (VBool true)) None] in
  heap st !! 0%nat = Some caller_params
  /\ exists r st',
       paged_get repr_unused srv 1 demo_client "pull-requests" (Some 0%nat) 50 200 st
       = Some (r, st')
       /\ heap st' !! 0%nat = Some caller_params
       /\ (forall l' d', heap st !! l' = Some d' -> heap st' !! l' = Some d')
       /\ exists new,
            log st' = new
            /\ Forall (fun rq => exists s, paginator_params caller_params 50 s rq) new
            /\ (exists rq rest,
                  new = rq :: rest /\ paginator_params caller_params 50 (VInt 0) rq)
            /\ cursor_chain srv caller_params 50 (VInt 0) [] new.
Proof.
  intros st srv. split; [reflexivity|].
  destruct (paged_get repr_unused srv 1 demo_client "pull-requests"
              (Some 0%nat) 50 200 st) as [[r st']|] eqn:Hrun.
  - exists r, st'. split; [reflexivity|].
    apply (paged_get_params repr_unused srv 1 demo_client "pull-requests"
             0%nat caller_params 50 200 st r st'); [reflexivity | exact Hrun].
  - vm_compute in Hrun. discriminate.
Defined.

(** * Further properties of the code *)

(** ** White space and slashes *)

Lemma string_app_assoc (s t u : string) : (s +:+ t) +:+ u = s +:+ t +:+ u.
Proof. induction s as [|a s IH]; simpl; [reflexivity | now rewrite IH]. Qed.

Lemma is_space_In (w : string) : Str.is_space w = true <-> In w Str.white_space.
Proof.
  unfold Str.is_space. rewrite existsb_exists. split.
  - intros (x & Hx & ->%String.eqb_eq). exact Hx.
  - intros Hw. exists w. split; [exact Hw | apply String.eqb_refl].
Qed.

Lemma startswith_spec (p s : string) :
  Str.startswith p s = true <-> exists r, s = p +:+ r.
Proof.
  revert s. induction p as [|a p IH]; intros s; simpl.
  - split; [intros _; now exists s | reflexivity].
  - destruct s as [|b s].
    + split; [discriminate | intros [r Hr]; discriminate].
    + rewrite andb_true_iff, IH, Ascii.eqb_eq. split.
      * intros [-> [r ->]]. now exists r.
      * intros [r [= -> ->]]. split; [reflexivity | now exists r].
Qed.

Ltac each_space H :=
  repeat (destruct H as [<- | H]; [|]); [.. | destruct H].

Lemma space_skipped (w r : string) :
  In w Str.white_space ->
  all_space (w +:+ r) = all_space r /\ Str.lstrip_space (w +:+ r) = Str.lstrip_space r
  /\ (String.length r < String.length (w +:+ r))%nat.
Proof.
  intros Hw. each_space Hw; (split; [reflexivity | split; [reflexivity | simpl; lia]]).
Qed.

Lemma no_space_prefix (s : string) :
  (forall w r, In w Str.white_space -> s <> w +:+ r) ->
  forall w, In w Str.white_space -> Str.startswith w s = false.
Proof.
  intros H w Hw. destruct (Str.startswith w s) eqn:E; [|reflexivity].
  apply startswith_spec in E as [r ->]. now destruct (H w r Hw).
Qed.

Lemma head_cases (s : string) :
  s = ""
  \/ (exists w r, In w Str.white_space /\ s = w +:+ r)
  \/ (s <> "" /\ Str.lstrip_space s = s /\ all_space s = false
      /\ forall w, In w Str.white_space -> Str.startswith w s = false).
Proof.
  destruct s as [|a t1]; [now left | right].
  destruct (Str.is_space (String a "")) eqn:Ha.
  { left. exists (String a ""), t1. split; [now apply is_space_In | reflexivity]. }
  destruct t1 as [|b t2].
  { right. cbn [Str.lstrip_space all_space]. rewrite Ha.
    repeat split; try discriminate. apply no_space_prefix.
    intros w r Hw E. each_space Hw; simplify_eq/=; discriminate. }
  destruct (Str.is_space (String a (String b ""))) eqn:Hb.
  { left. exists (String a (String b "")), t2.
    split; [now apply is_space_In | reflexivity]. }
  destruct t2 as [|c t3].
  { right. cbn [Str.lstrip_space all_space]. rewrite Ha, Hb.
    repeat split; try discriminate. apply no_space_prefix.
    intros w r Hw E. each_space Hw; simplify_eq/=; discriminate. }
  destruct (Str.is_space (String a (String b (String c "")))) eqn:Hc.
  { left. exists (String a (String b (String c ""))), t3.
    split; [now apply is_space_In | reflexivity]. }
  right. cbn [Str.lstrip_space all_space]. rewrite Ha, Hb, Hc.
  repeat split; try discriminate. apply no_space_prefix.
  intros w r Hw E. each_space Hw; simplify_eq/=; discriminate.
Qed.

Lemma string_length_induction (P : string -> Prop) :
  (forall s, (forall t, (String.length t < String.length s)%nat -> P t) -> P s) ->
  forall s, P s.
Proof.
  intros H s. remember (String.length s) as n eqn:Hn. revert s Hn.
  induction (lt_wf n) as [n _ IH]. intros s ->.
  apply H. intros t Ht. exact (IH _ Ht t eq_refl).
Qed.

Lemma lstrip_space_spec (s : string) :
  exists l,
    s = l +:+ Str.lstrip_space s
    /\ all_space l = true
    /\ forall w, In w Str.white_space -> Str.startswith w (Str.lstrip_space s) = false.
Proof.
  induction s as [s IH] using string_length_induction.
  destruct (head_cases s) as [-> | [(w & r & Hw & ->) | (_ & Hs & _ & Hno)]].
  - exists "". repeat split. intros w Hw. each_space Hw; reflexivity.
  - destruct (space_skipped w r Hw) as (Hall & Hstrip & Hlen).
    destruct (IH r Hlen) as (l & Hr & Hl & Hno).
    exists (w +:+ l). rewrite Hstrip. split; [|split].
    + rewrite string_app_assoc. now rewrite <- Hr.
    + destruct (space_skipped w l Hw) as (-> & _). exact Hl.
    + exact Hno.
  - exists "". rewrite Hs. repeat split. exact Hno.
Qed.

Lemma all_space_app (s t : string) :
  all_space s = true -> all_space t = true -> all_space (s +:+ t) = true.
Proof.
  intros Hs Ht. induction s as [s IH] using string_length_induction.
  destruct (head_cases s) as [-> | [(w & r & Hw & ->) | (_ & _ & Hno & _)]].
  - exact Ht.
  - destruct (space_skipped w r Hw) as (Hall & _ & Hlen).
    rewrite string_app_assoc.
    destruct (space_skipped w (r +:+ t) Hw) as (-> & _).
    apply (IH r Hlen). now rewrite <- Hall.
  - congruence.
Qed.

Lemma lstrip_space_all_space (s : string) :
  all_space s = true -> Str.lstrip_space s = "".
Proof.
  induction s as [s IH] using string_length_induction. intros Hs.
  destruct (head_cases s) as [-> | [(w & r & Hw & ->) | (_ & _ & Hno & _)]].
  - reflexivity.
  - destruct (space_skipped w r Hw) as (Hall & -> & Hlen).
    apply (IH r Hlen). now rewrite <- Hall.
  - congruence.
Qed.

(** [all_space] holds exactly of the strings made of white-space
    characters. *)
Lemma all_space_spec (s : string) :
  all_space s = true
  <-> exists ws, Forall (fun w => In w Str.white_space) ws
                 /\ s = fold_right String.append "" ws.
Proof.
  split.
  - induction s as [s IH] using string_length_induction. intros Hs.
    destruct (head_cases s) as [-> | [(w & r & Hw & ->) | (_ & _ & Hno & _)]].
    + now exists [].
    + destruct (space_skipped w r Hw) as (Hall & _ & Hlen).
      destruct (IH r Hlen) as (ws & Hws & ->); [now rewrite <- Hall|].
      exists (w :: ws). split; [now constructor | reflexivity].
    + congruence.
  - intros (ws & Hws & ->). induction Hws as [|w ws Hw _ IH]; [reflexivity|].
    cbn [fold_right]. destruct (space_skipped w (fold_right String.append "" ws) Hw)
      as (-> & _). exact IH.
Qed.

Lemma endswith_empty (w : string) : In w Str.white_space -> Str.endswith "" w = false.
Proof. intros Hw. each_space Hw; reflexivity. Qed.

Lemma rstrip_space_spec (s : string) :
  exists r,
    s = Str.rstrip_space s +:+ r
    /\ all_space r = true
    /\ forall w, In w Str.white_space -> Str.endswith (Str.rstrip_space s) w = false.
Proof.
  induction s as [|a s (r & Hs & Hr & Hno)].
  - exists "". repeat split. apply endswith_empty.
  - cbn [Str.rstrip_space]. cbv zeta.
    destruct (Str.is_space (String a (Str.rstrip_space s))) eqn:Ha.
    + exists (String a (Str.rstrip_space s) +:+ r). split; [|split].
      * simpl. now rewrite <- Hs.
      * apply is_space_In in Ha.
        destruct (space_skipped _ r Ha) as (-> & _). exact Hr.
      * apply endswith_empty.
    + exists r. split; [|split].
      * simpl. now rewrite <- Hs.
      * exact Hr.
      * intros w Hw.
        change (Str.endswith (String a (Str.rstrip_space s)) w)
          with (String.eqb (String a (Str.rstrip_space s)) w
                || Str.endswith (Str.rstrip_space s) w).
        rewrite (Hno w Hw), orb_false_r.
        destruct (String.eqb_spec (String a (Str.rstrip_space s)) w) as [E|]; [|reflexivity].
        apply is_space_In in Hw. congruence.
Qed.

Lemma startswith_app (w s r : string) :
  Str.startswith w s = true -> Str.startswith w (s +:+ r) = true.
Proof.
  rewrite !startswith_spec. intros [x ->]. exists (x +:+ r).
  apply string_app_assoc.
Qed.

(** [strip] cuts white space off both ends, and nothing else. *)
Lemma strip_spec (s : string) :
  exists l r,
    s = l +:+ Str.strip s +:+ r
    /\ all_space l = true /\ all_space r = true
    /\ trimmed (Str.strip s).
Proof.
  destruct (lstrip_space_spec s) as (l & Hs & Hl & Hhead).
  destruct (rstrip_space_spec (Str.lstrip_space s)) as (r & Hs' & Hr & Hlast).
  exists l, r. unfold Str.strip. rewrite <- Hs'.
  split; [exact Hs|]. split; [exact Hl|]. split; [exact Hr|].
  intros w Hw. split; [|now apply Hlast].
  destruct (Str.startswith w (Str.rstrip_space (Str.lstrip_space s))) eqn:E;
    [|reflexivity].
  apply (startswith_app _ _ r) in E. rewrite <- Hs' in E.
  now rewrite (Hhead w Hw) in E.
Qed.

Lemma strip_empty_iff (s : string) :
  Str.strip s = "" <-> all_space s = true.
Proof.
  split.
  - intros He. destruct (strip_spec s) as (l & r & Hs & Hl & Hr & _).
    rewrite He in Hs. rewrite Hs. now apply all_space_app.
  - intros Hs. unfold Str.strip. now rewrite lstrip_space_all_space.
Qed.

(** A string that does not end with [c] is left alone by [rstrip]. *)
Lemma rstrip_fixpoint (c : ascii) (s : string) :
  Str.endswith s (String c "") = false -> Str.rstrip c s = s.
Proof.
  induction s as [|a s IH]; [reflexivity|].
  change (Str.endswith (String a s) (String c ""))
    with (String.eqb (String a s) (String c "") || Str.endswith s (String c "")).
  intros [Heq Hend]%orb_false_elim. cbn [Str.rstrip]. rewrite (IH Hend).
  destruct s as [|b t]; [|reflexivity]. cbn [Str.is_empty andb].
  simpl in Heq. destruct (Ascii.eqb a c); [discriminate | reflexivity].
Qed.

(** ** Configuration *)

(** X1.  [_env] raises the missing-variable error exactly when the
    variable is unset or holds nothing but white space, in the sense of
    [str.isspace]; otherwise it returns the value without the white space
    around it: a non-empty string that neither starts nor ends with a
    white-space character. *)
Theorem env_trimmed (environ : gmap string string) (name : string) :
  let raw := os_getenv environ name "" in
  (all_space raw = true ->
   _env environ name = Raise (BBError (missing_variable_msg name) None))
  /\ (all_space raw = false ->
      exists v l r,
        _env environ name = Ok v
        /\ raw = l +:+ v +:+ r
        /\ all_space l = true /\ all_space r = true
        /\ v <> "" /\ trimmed v).
Proof.
  intros raw. unfold _env. fold raw. split.
  - intros Hraw. apply strip_empty_iff in Hraw. now rewrite Hraw.
  - intros Hraw. destruct (strip_spec raw) as (l & r & Hs & Hl & Hr & Htrim).
    exists (Str.strip raw), l, r.
    assert (Str.strip raw <> "") as Hne.
    { intros He. apply strip_empty_iff in He. congruence. }
    destruct (Str.strip raw) eqn:Hstrip; [congruence|].
    split; [reflexivity|]. split; [exact Hs|]. split; [exact Hl|].
    split; [exact Hr|]. split; [exact Hne | exact Htrim].
Qed.

(** A variable that holds only the no-break space U+00A0 counts as
    missing, and the same character is cut off the end of a value. *)
Example env_no_break_space :
  _env {[ "BITBUCKET_API_TOKEN" := Str.of_bytes [0xC2; 0xA0]%N ]} "BITBUCKET_API_TOKEN"
  = Raise (BBError "Missing environment variable BITBUCKET_API_TOKEN." None)
  /\ _env padded_environ "BITBUCKET_API_TOKEN" = Ok "t0k3n".
Proof. split; reflexivity. Qed.

Lemma norm_base_Ok (server base : string) :
  _norm_base server = Ok base ->
  base = Str.rstrip "/" server /\ Str.endswith base "/rest" = true.
Proof.
  unfold _norm_base.
  destruct (Str.endswith (Str.rstrip "/" server) "/rest") eqn:Hrest;
    [|discriminate].
  intros [= <-]. split; [reflexivity | assumption].
Qed.

(** X2.  A base URL that [_norm_base] accepts is in normal form: it ends
    with [/rest], has no slash at its end, and [_norm_base] maps it to
    itself. *)
Theorem norm_base_idempotent (server base : string) :
  _norm_base server = Ok base ->
  _norm_base base = Ok base
  /\ Str.endswith base "/" = false
  /\ exists p, base = p +:+ "/rest".
Proof.
  intros [-> Hrest]%norm_base_Ok.
  destruct (rstrip_spec "/" server) as [_ Hslash].
  split; [|split].
  - unfold _norm_base. now rewrite (rstrip_fixpoint _ _ Hslash), Hrest.
  - exact Hslash.
  - now apply endswith_spec.
Qed.

Lemma norm_base_idempotent_witness :
  _norm_base "https://host/bitbucket/rest//" = Ok "https://host/bitbucket/rest"
  /\ _norm_base "https://host/bitbucket/rest" = Ok "https://host/bitbucket/rest"
  /\ Str.endswith "https://host/bitbucket/rest" "/" = false
  /\ exists p, "https://host/bitbucket/rest" = p +:+ "/rest".
Proof.
  split; [reflexivity|].
  apply (norm_base_idempotent "https://host/bitbucket/rest//"). reflexivity.
Defined.

Lemma env_Ok (environ : gmap string string) (name v : string) :
  _env environ name = Ok v ->
  v = Str.strip (os_getenv environ name "") /\ v <> "".
Proof.
  unfold _env. destruct (Str.strip _) eqn:Hs; [discriminate|].
  intros [= <-]. split; [reflexivity | discriminate].
Qed.

(** X3.  Every client that [client] returns is well formed: its base URL
    ends with [/rest] and not with a slash, its token is the token variable
    without the white space around it (that of [str.isspace]), is not
    empty and neither starts nor ends with a white-space character, and
    its timeout is 30 seconds. *)
Theorem client_invariant (environ : gmap string string) (c : BitbucketClient) :
  client environ = Ok c ->
  (exists p, base_rest c = p +:+ "/rest")
  /\ Str.endswith (base_rest c) "/" = false
  /\ token c = Str.strip (os_getenv environ "BITBUCKET_API_TOKEN" "")
  /\ token c <> "" /\ trimmed (token c)
  /\ timeout_s c = 30.
Proof.
  unfold client. intros H.
  destruct (_env environ "BITBUCKET_SERVER") as [server|]; [|discriminate].
  destruct (_norm_base server) as [base|] eqn:Hbase; [|discriminate].
  destruct (_env environ "BITBUCKET_API_TOKEN") as [tok|] eqn:Htok; [|discriminate].
  injection H as <-. cbn [base_rest token timeout_s].
  destruct (norm_base_Ok server base Hbase) as [-> Hrest%endswith_spec].
  destruct (rstrip_spec "/" server) as [_ Hslash].
  destruct (env_Ok _ _ _ Htok) as [-> Hne].
  destruct (strip_spec (os_getenv environ "BITBUCKET_API_TOKEN" ""))
    as (_ & _ & _ & _ & _ & Htrim).
  split; [exact Hrest|]. split; [exact Hslash|]. split; [reflexivity|].
  split; [exact Hne|]. split; [exact Htrim | reflexivity].
Qed.

Lemma client_invariant_witness :
  client padded_environ
  = Ok {| base_rest := "https://host/bitbucket/rest"; token := "t0k3n"; timeout_s := 30 |}
  /\ (exists p, "https://host/bitbucket/rest" = p +:+ "/rest")
  /\ Str.endswith "https://host/bitbucket/rest" "/" = false
  /\ "t0k3n" = Str.strip (os_getenv padded_environ "BITBUCKET_API_TOKEN" "")
  /\ "t0k3n" <> "" /\ trimmed "t0k3n"
  /\ 30 = 30.
Proof.
  split; [reflexivity|].
  apply (client_invariant padded_environ
           {| base_rest := "https://host/bitbucket/rest"; token := "t0k3n";
              timeout_s := 30 |}).
  reflexivity.
Defined.

Lemma env_blank (environ : gmap string string) (name : string) :
  all_space (os_getenv environ name "") = true ->
  _env environ name = Raise (BBError (missing_variable_msg name) None).
Proof.
  intros Hraw. unfold _env. apply strip_empty_iff in Hraw. now rewrite Hraw.
Qed.

(** X4.  [client] reads and checks the server variable before the token:
    a blank or unset server variable is reported whatever the token is, a
    server URL that does not end with [/rest] is reported whatever the
    token is, and a blank or unset token is reported only for a valid
    server URL. *)
Theorem client_error_order (environ : gmap string string) :
  (all_space (os_getenv environ "BITBUCKET_SERVER" "") = true ->
   client environ
   = Raise (BBError (missing_variable_msg "BITBUCKET_SERVER") None))
  /\ (forall server,
        _env environ "BITBUCKET_SERVER" = Ok server ->
        (~ exists p, Str.rstrip "/" server = p +:+ "/rest") ->
        client environ
        = Raise (BBError (invalid_base_url_msg (Str.rstrip "/" server)) None))
  /\ (forall server,
        _env environ "BITBUCKET_SERVER" = Ok server ->
        (exists p, Str.rstrip "/" server = p +:+ "/rest") ->
        all_space (os_getenv environ "BITBUCKET_API_TOKEN" "") = true ->
        client environ
        = Raise (BBError (missing_variable_msg "BITBUCKET_API_TOKEN") None)).
Proof.
  unfold client. split; [|split].
  - intros Hblank. now rewrite (env_blank _ _ Hblank).
  - intros server Hs Hbad. rewrite Hs. unfold _norm_base.
    apply endswith_false in Hbad. now rewrite Hbad.
  - intros server Hs Hgood Hblank. rewrite Hs. unfold _norm_base.
    apply endswith_spec in Hgood. rewrite Hgood. simpl.
    now rewrite (env_blank _ _ Hblank).
Qed.

(** A token of white space only, here U+3000 and a tab, is a missing
    token. *)
Example client_blank_token :
  client blank_token_environ
  = Raise (BBError "Missing environment variable BITBUCKET_API_TOKEN." None).
Proof. reflexivity. Qed.

(** ** The request that is sent *)

Lemma string_app_nil_r (s : string) : s +:+ "" = s.
Proof. induction s as [|a s IH]; simpl; [reflexivity | now rewrite IH]. Qed.

Lemma lstrip_spec (c : ascii) (s : string) :
  (exists n, s = Str.repeat c n +:+ Str.lstrip c s)
  /\ Str.startswith (String c "") (Str.lstrip c s) = false.
Proof.
  induction s as [|a s [[n Hn] Hstart]].
  - split; [now exists 0%nat | reflexivity].
  - cbn [Str.lstrip]. destruct (Ascii.eqb a c) eqn:Hac.
    + apply Ascii.eqb_eq in Hac. subst a. split; [|assumption].
      exists (S n). simpl. now rewrite <- Hn.
    + split; [now exists 0%nat|]. simpl.
      rewrite Ascii.eqb_sym, Hac. reflexivity.
Qed.

Lemma lstrip_repeat (c : ascii) (n : nat) (s : string) :
  Str.lstrip c (Str.repeat c n +:+ s) = Str.lstrip c s.
Proof.
  induction n as [|n IH]; [reflexivity|]. simpl.
  now rewrite Ascii.eqb_refl.
Qed.

(** X5.  The URL of a request is the API root, one slash, and the path
    without its leading slashes: slashes in front of the path change
    nothing, and what follows the API root never starts with two
    slashes. *)
Theorem request_url_slashes (self : BitbucketClient) (path : string) :
  (forall n, request_url self (Str.repeat "/" n +:+ path) = request_url self path)
  /\ exists n rest,
       path = Str.repeat "/" n +:+ rest
       /\ Str.startswith "/" rest = false
       /\ request_url self path = base_rest self +:+ "/api/latest/" +:+ rest.
Proof.
  split.
  - intros n. unfold request_url. now rewrite lstrip_repeat.
  - destruct (lstrip_spec "/" path) as [[n Hn] Hstart].
    exists n, (Str.lstrip "/" path). split; [assumption|]. split; [assumption|].
    unfold request_url, api. now rewrite string_app_assoc.
Qed.

Lemma request_eq py_repr srv self method path params json_body st :
  request py_repr srv self method path params json_body st
  = (outcome_of py_repr method (request_url self path)
       (srv (log (sent self method path params json_body st))),
     sent self method path params json_body st).
Proof.
  unfold request, outcome_of, sent. cbn [log heap].
  destruct (srv _); reflexivity.
Qed.

(** X6.  Whatever the HTTP library does, one call of [request] sends
    exactly one request and changes no object of the store.  The request
    has the method in upper case, the bearer token and the [Accept]
    header, a JSON content type exactly when a body is given, the
    caller's parameters and body, and the client's timeout. *)
Theorem request_sends py_repr srv self method path params json_body st :
  let st' := snd (request py_repr srv self method path params json_body st) in
  heap st' = heap st
  /\ exists rq,
       log st' = log st ++ [rq]
       /\ req_method rq = Str.upper method
       /\ req_url rq = request_url self path
       /\ req_headers rq !! "Authorization" = Some ("Bearer " +:+ token self)
       /\ req_headers rq !! "Accept" = Some "application/json;charset=UTF-8"
       /\ req_headers rq !! "Content-Type"
          = match json_body with Some _ => Some "application/json" | None => None end
       /\ (forall k, k <> "Authorization" -> k <> "Accept" -> k <> "Content-Type" ->
           req_headers rq !! k = None)
       /\ req_params rq = params ≫= (fun l => heap st !! l)
       /\ req_json rq = json_body
       /\ req_timeout rq = timeout_s self.
Proof.
  intros st'. subst st'. rewrite request_eq. cbn [snd].
  split; [reflexivity|].
  exists (build_request self method path params json_body st).
  split; [reflexivity|]. split; [reflexivity|]. split; [reflexivity|].
  unfold build_request, _headers. cbn [req_headers req_params req_json req_timeout].
  destruct json_body as [body|]; cbn [Str.is_empty].
  - repeat split.
    + intros k H1 H2 H3. rewrite !lookup_insert_ne by congruence. apply lookup_empty.
  - repeat split.
    + intros k H1 H2 H3. rewrite !lookup_insert_ne by congruence. apply lookup_empty.
Qed.

(** ** The detail of an error response *)

(** X7.  The detail taken from an error body, case by case.  Without a
    JSON object there is none.  A non-empty [errors] list decides alone:
    when its first entry is not an object, or has no [message], or an
    empty or null one, there is no detail, even if the object has a
    top-level [message].  Only when [errors] is absent, not a list or
    empty is a top-level [message] string used.  The detail is always
    either the empty string or a value that counts as true. *)
Theorem error_detail_shapes (resp : Response) :
  ((forall j, json resp <> Some (VDict j)) -> error_detail resp = VStr "")
  /\ (forall j e0 rest,
        json resp = Some (VDict j) ->
        j !! "errors" = Some (VList (e0 :: rest)) ->
        (forall d, e0 = VDict d -> truthy (dict_get d "message" VNone) = false) ->
        error_detail resp = VStr "")
  /\ (forall j,
        json resp = Some (VDict j) ->
        (forall e0 rest, j !! "errors" <> Some (VList (e0 :: rest))) ->
        error_detail resp
        = match j !! "message" with Some (VStr m) => VStr m | _ => VStr "" end)
  /\ (truthy (error_detail resp) = true \/ error_detail resp = VStr "").
Proof.
  unfold error_detail. split; [|split; [|split]].
  - intros Hno. destruct (json resp) as [[| | | | |j]|]; try reflexivity.
    now destruct (Hno j).
  - intros j e0 rest -> -> He0. destruct e0 as [| | | | |d]; try reflexivity.
    now rewrite (He0 d eq_refl).
  - intros j -> Hno. destruct (j !! "errors") as [[| | | |[|e0 rest]|]|];
      try reflexivity.
    now destruct (Hno e0 rest).
  - destruct (json resp) as [[| | | | |j]|]; try (right; reflexivity).
    destruct (j !! "errors") as [[| | | |[|e0 rest]|]|].
    6: { destruct e0 as [| | | | |d]; try (right; reflexivity).
         destruct (truthy (dict_get d "message" VNone)) eqn:Ht;
           [left; assumption | right; reflexivity]. }
    all: destruct (j !! "message") as [[| | |m| |]|]; try (right; reflexivity);
      destruct m; [right; reflexivity | left; reflexivity].
Qed.

(** ** Failures inside the pagination loop *)

Lemma loop_raises py_repr srv self path lp limit max_items fuel out start st e :
  outcome_of py_repr "GET" (request_url self path)
    (srv (log (turn self path lp limit start st))) = Raise e ->
  paged_get_loop py_repr srv (S fuel) self path lp limit max_items out start st
  = Some (Raise e, turn self path lp limit start st).
Proof.
  intros H. rewrite loop_unfold. cbv zeta. unfold outcome_of in H.
  destruct (srv (log (turn self path lp limit start st))) as [resp|rex|name].
  - now rewrite H.
  - now injection H as <-.
  - now injection H as <-.
Qed.

Lemma loop_not_object py_repr srv self path lp limit max_items fuel out start st v :
  outcome_of py_repr "GET" (request_url self path)
    (srv (log (turn self path lp limit start st))) = Ok v ->
  is_object v = false ->
  paged_get_loop py_repr srv (S fuel) self path lp limit max_items out start st
  = Some (Raise AttributeError, turn self path lp limit start st).
Proof.
  intros H Hv. rewrite loop_unfold. cbv zeta. unfold outcome_of in H.
  destruct (srv (log (turn self path lp limit start st))) as [resp|rex|name];
    try discriminate.
  rewrite H. destruct v; try reflexivity. discriminate.
Qed.

(** The loop walks through continuing pages below the cap; nothing is
    asked of the request that follows them. *)
Lemma loop_walks py_repr srv self path lp limit max_items ps :
  forall out start st,
    serves_in_order srv (length (log st)) ps ->
    Forall continuing ps ->
    (ps <> [] -> Z.of_nat (length (out ++ all_values ps)) < max_items) ->
    exists start' st' new,
      log st' = log st ++ new
      /\ length new = length ps
      /\ Forall is_get new
      /\ forall fuel,
           paged_get_loop py_repr srv (length ps + fuel) self path lp limit
             max_items out start st
           = paged_get_loop py_repr srv fuel self path lp limit max_items
               (out ++ all_values ps) start' st'.
Proof.
  induction ps as [|q ps IH]; intros out start st Hsrv Hcont Hlen.
  - exists start, st, []. rewrite app_nil_r. repeat split; [constructor|].
    intros fuel. unfold all_values. simpl. now rewrite app_nil_r.
  - apply Forall_cons in Hcont as [Hq Hcont].
    specialize (Hlen ltac:(discriminate)).
    rewrite all_values_cons, app_assoc in Hlen.
    assert (Z.of_nat (length (out ++ page_values q)) < max_items) as Hlt.
    { rewrite length_app in Hlen. lia. }
    destruct (turn_log self path lp limit start st) as (rq & Hlog & Hget & _).
    destruct (IH (out ++ page_values q) (dict_get q "nextPageStart" VNone)
                 (turn self path lp limit start st))
      as (start' & st' & new & Hlog' & Hnew & Hgets & Hloop).
    + rewrite turn_length. now apply serves_in_order_tail in Hsrv.
    + assumption.
    + intros _. assumption.
    + exists start', st', (rq :: new). repeat split.
      * rewrite Hlog', Hlog, <- app_assoc. reflexivity.
      * simpl. now rewrite Hnew.
      * constructor; assumption.
      * intros fuel. cbn [length Nat.add].
        rewrite (loop_step _ _ _ _ _ _ _ _ _ _ _ q).
        -- rewrite after_page_continue by assumption.
           rewrite Hloop, all_values_cons, app_assoc. reflexivity.
        -- eapply serves_in_order_head; [exact Hsrv|]. apply turn_length.
Qed.

(** X8.  A request that fails inside the loop ends [paged_get] with that
    failure: after continuing pages below the cap, whatever [request]
    raises for the next page ([BBError] for a transport failure or a
    status of 400 or more, or an exception of another class) is raised by
    [paged_get] after exactly one more request, and the items gathered so
    far are not returned. *)
Theorem paged_get_propagates py_repr srv self path params limit max_items st ps e :
  serves_in_order srv (length (log st)) ps ->
  Forall continuing ps ->
  (ps <> [] -> Z.of_nat (length (all_values ps)) < max_items) ->
  (forall lg, length lg = (length (log st) + length ps + 1)%nat ->
     outcome_of py_repr "GET" (request_url self path) (srv lg) = Raise e) ->
  exists st' new,
    log st' = log st ++ new
    /\ length new = S (length ps)
    /\ Forall is_get new
    /\ forall fuel, (length ps < fuel)%nat ->
         paged_get py_repr srv fuel self path params limit max_items st
         = Some (Raise e, st').
Proof.
  intros Hsrv Hcont Hlen Hfail.
  destruct (loop_walks py_repr srv self path (fst (copy_params params st))
              limit max_items ps [] (VInt 0) (snd (copy_params params st))
              Hsrv Hcont Hlen)
    as (start' & st1 & new & Hlog & Hnew & Hgets & Hloop).
  rewrite copy_params_log in Hlog.
  destruct (turn_log self path (fst (copy_params params st)) limit start' st1)
    as (rq & Hlog' & Hget & _).
  exists (turn self path (fst (copy_params params st)) limit start' st1),
    (new ++ [rq]).
  split; [rewrite Hlog', Hlog, <- app_assoc; reflexivity|].
  split; [rewrite length_app, Hnew; simpl; lia|].
  split; [apply Forall_app; split; [assumption | repeat constructor; assumption]|].
  intros fuel Hfuel. rewrite paged_get_eq.
  replace fuel with (length ps + S (fuel - S (length ps)))%nat by lia.
  rewrite Hloop. apply loop_raises. apply Hfail.
  rewrite turn_length, Hlog, length_app, Hnew. lia.
Qed.

Lemma paged_get_propagates_witness :
  let ps := [mk_page [VInt 1] (Some (VBool false)) (Some (VInt 1))] in
  let srv := scripted [Responds (json_response (VDict (mk_page [VInt 1]
                          (Some (VBool false)) (Some (VInt 1)))));
                       Responds unavailable_response] in
  let e := BBError
    "HTTP 503 for GET https://host/bitbucket/rest/api/latest/pull-requests" None in
  exists st' new,
    log st' = new
    /\ length new = 2%nat
    /\ Forall is_get new
    /\ forall fuel, (1 < fuel)%nat ->
         paged_get repr_unused srv fuel demo_client "pull-requests" None 50 200
           (initial_state ∅)
         = Some (Raise e, st').
Proof.
  intros ps srv e.
  apply (paged_get_propagates repr_unused srv demo_client "pull-requests" None
           50 200 (initial_state ∅) ps e).
  - intros i page Hi lg Hlg. destruct i as [|i]; [|destruct i; discriminate].
    injection Hi as <-. unfold srv, scripted.
    replace (length lg - 1)%nat with 0%nat by (simpl in Hlg; lia).
    apply answers_page_json_response.
  - repeat constructor. discriminate.
  - intros _. vm_compute. reflexivity.
  - intros lg Hlg. unfold srv, scripted.
    replace (length lg - 1)%nat with 1%nat by (simpl in Hlg; lia).
    reflexivity.
Defined.

(** X9.  A successful response whose JSON value is not an object (a list,
    a string, a number, null) makes [paged_get] raise [AttributeError], an
    exception that is not a [BBError], after the request that fetched
    it. *)
Theorem paged_get_non_object_page py_repr srv self path params limit max_items st ps :
  serves_in_order srv (length (log st)) ps ->
  Forall continuing ps ->
  (ps <> [] -> Z.of_nat (length (all_values ps)) < max_items) ->
  (forall lg, length lg = (length (log st) + length ps + 1)%nat ->
     exists v, outcome_of py_repr "GET" (request_url self path) (srv lg) = Ok v
               /\ is_object v = false) ->
  exists st' new,
    log st' = log st ++ new
    /\ length new = S (length ps)
    /\ forall fuel, (length ps < fuel)%nat ->
         paged_get py_repr srv fuel self path params limit max_items st
         = Some (Raise AttributeError, st').
Proof.
  intros Hsrv Hcont Hlen Hval.
  destruct (loop_walks py_repr srv self path (fst (copy_params params st))
              limit max_items ps [] (VInt 0) (snd (copy_params params st))
              Hsrv Hcont Hlen)
    as (start' & st1 & new & Hlog & Hnew & Hgets & Hloop).
  rewrite copy_params_log in Hlog.
  destruct (turn_log self path (fst (copy_params params st)) limit start' st1)
    as (rq & Hlog' & Hget & _).
  exists (turn self path (fst (copy_params params st)) limit start' st1),
    (new ++ [rq]).
  split; [rewrite Hlog', Hlog, <- app_assoc; reflexivity|].
  split; [rewrite length_app, Hnew; simpl; lia|].
  intros fuel Hfuel. rewrite paged_get_eq.
  replace fuel with (length ps + S (fuel - S (length ps)))%nat by lia.
  rewrite Hloop.
  destruct (Hval (log (turn self path (fst (copy_params params st)) limit start' st1)))
    as (v & Hv & Hobj).
  { rewrite turn_length, Hlog, length_app, Hnew. lia. }
  now apply (loop_not_object _ _ _ _ _ _ _ _ _ _ _ v).
Qed.

Lemma paged_get_non_object_page_witness :
  let srv := scripted [Responds (json_response (VList [VInt 1; VInt 2]))] in
  exists st' new,
    log st' = new
    /\ length new = 1%nat
    /\ forall fuel, (0 < fuel)%nat ->
         paged_get repr_unused srv fuel demo_client "pull-requests" None 50 200
           (initial_state ∅)
         = Some (Raise AttributeError, st').
Proof.
  intros srv.
  apply (paged_get_non_object_page repr_unused srv demo_client "pull-requests"
           None 50 200 (initial_state ∅) []).
  - intros i page Hi. discriminate.
  - constructor.
  - congruence.
  - intros lg Hlg. exists (VList [VInt 1; VInt 2]). unfold srv, scripted.
    replace (length lg - 1)%nat with 0%nat by (simpl in Hlg; lia).
    split; reflexivity.
Defined.

Example error_detail_shadowed :
  error_detail shadowed_message_response = VStr "".
Proof. reflexivity. Qed.

(** ** What [paged_get] hands back *)

Lemma slice_to_length_le {A : Type} (k : Z) (l : list A) :
  0 <= k -> Z.of_nat (length (slice_to k l)) <= k.
Proof.
  intros Hk. rewrite slice_to_take, length_take by assumption. lia.
Qed.

Lemma after_page_bound max_items out page :
  0 <= max_items ->
  match after_page max_items out page with
  | Return res => Z.of_nat (length res) <= max_items
  | Continue out' _ => Z.of_nat (length out') < max_items
  end.
Proof.
  intros Hmax.
  destruct (Z_lt_ge_dec (Z.of_nat (length (out ++ page_values page))) max_items)
    as [Hlt | Hge].
  - rewrite after_page_below by assumption.
    destruct (truthy _); [lia|].
    destruct (dict_get page "nextPageStart" VNone); lia.
  - rewrite after_page_cap by lia. now apply slice_to_length_le.
Qed.

Lemma loop_bound py_repr srv self path lp limit max_items (fuel : nat) :
  0 <= max_items ->
  forall out start st res st',
    paged_get_loop py_repr srv fuel self path lp limit max_items out start st
    = Some (Ok res, st') ->
    Z.of_nat (length res) <= max_items.
Proof.
  intros Hmax. induction fuel as [|fuel IH]; intros out start st res st' Hrun;
    [discriminate|].
  rewrite loop_unfold in Hrun. cbv zeta in Hrun.
  destruct (srv (log (turn self path lp limit start st))) as [resp|rex|name];
    try discriminate.
  destruct (handle_response py_repr "GET" (request_url self path) resp)
    as [v|e]; [|discriminate].
  destruct v as [| | | | |page]; try discriminate.
  pose proof (after_page_bound max_items out page Hmax) as Hb.
  destruct (after_page max_items out page) as [res'|out' start'].
  - injection Hrun as <- _. assumption.
  - now apply IH in Hrun.
Qed.

(** X10.  Whatever the server does, a result of [paged_get] never has more
    than [max_items] items, for [max_items] not negative. *)
Theorem paged_get_at_most_max py_repr srv fuel self path params limit max_items st res st' :
  0 <= max_items ->
  paged_get py_repr srv fuel self path params limit max_items st = Some (Ok res, st') ->
  Z.of_nat (length res) <= max_items.
Proof.
  intros Hmax Hrun. rewrite paged_get_eq in Hrun.
  now apply (loop_bound _ _ _ _ _ _ _ _ Hmax) in Hrun.
Qed.

Lemma paged_get_at_most_max_witness :
  let srv := serve_pages [mk_page [VInt 1; VInt 2; VInt 3] (Some (VBool true)) None] in
  0 <= 2
  /\ exists res st',
       paged_get repr_unused srv 1 demo_client "pull-requests" None 50 2
         (initial_state ∅) = Some (Ok res, st')
       /\ Z.of_nat (length res) <= 2.
Proof.
  intros srv. split; [lia|].
  destruct (paged_get repr_unused srv 1 demo_client "pull-requests" None 50 2
              (initial_state ∅)) as [[[res|e] st']|] eqn:Hrun.
  - exists res, st'. split; [reflexivity|].
    apply (paged_get_at_most_max repr_unused srv 1 demo_client "pull-requests"
             None 50 2 (initial_state ∅) res st'); [lia | exact Hrun].
  - vm_compute in Hrun. discriminate.
  - vm_compute in Hrun. discriminate.
Defined.

(** X11.  [max_items] of zero or less does not prevent the first request:
    when it is answered by a page, [paged_get] returns after that single
    request, with no item for [max_items = 0], and for a negative
    [max_items] with the items of the page but the last [-max_items]. *)
Theorem paged_get_without_quota py_repr srv self path params limit max_items st p :
  serves_in_order srv (length (log st)) [p] ->
  max_items <= 0 ->
  exists st' rq,
    log st' = log st ++ [rq]
    /\ is_get rq
    /\ (forall fuel, (0 < fuel)%nat ->
          paged_get py_repr srv fuel self path params limit max_items st
          = Some (Ok (slice_to max_items (page_values p)), st'))
    /\ (max_items = 0 -> slice_to max_items (page_values p) = [])
    /\ (max_items < 0 ->
        slice_to max_items (page_values p)
        = take (length (page_values p) - Z.to_nat (- max_items)) (page_values p)).
Proof.
  intros Hsrv Hmax.
  destruct (paged_get_returns py_repr srv self path params limit max_items st [] p
              (slice_to max_items (page_values p)))
    as (st' & new & Hlog & Hnew & Hgets & Hrun).
  - exact Hsrv.
  - constructor.
  - congruence.
  - apply after_page_cap. lia.
  - destruct new as [|rq [|rq' new]]; try discriminate.
    exists st', rq. split; [assumption|].
    split; [now inversion Hgets|]. split; [exact Hrun|]. split.
    + intros ->. reflexivity.
    + intros Hneg. unfold slice_to.
      destruct (Z.ltb_spec max_items 0); [|lia]. f_equal. lia.
Qed.

Lemma paged_get_without_quota_witness :
  let p := mk_page [VInt 1; VInt 2; VInt 3] (Some (VBool false)) (Some (VInt 3)) in
  (-1 <= 0)
  /\ exists st' rq,
       log st' = [rq]
       /\ is_get rq
       /\ (forall fuel, (0 < fuel)%nat ->
             paged_get repr_unused (serve_pages [p]) fuel demo_client
               "pull-requests" None 50 (-1) (initial_state ∅)
             = Some (Ok [VInt 1; VInt 2], st'))
       /\ (-1 = 0 -> [VInt 1; VInt 2] = [])
       /\ (-1 < 0 -> [VInt 1; VInt 2] = take 2 [VInt 1; VInt 2; VInt 3]).
Proof.
  intros p. split; [lia|].
  apply (paged_get_without_quota repr_unused (serve_pages [p]) demo_client
           "pull-requests" None 50 (-1) (initial_state ∅) p).
  - apply serve_pages_serves.
  - lia.
Defined.

Lemma paginator_params_none limit s rq :
  paginator_params ∅ limit s rq ->
  req_params rq = Some {[ "start" := s; "limit" := VInt limit ]}.
Proof.
  intros (_ & p & Hp & Hs & Hl & Hk). rewrite Hp. f_equal. apply map_eq. intros k.
  destruct (decide (k = "start")) as [-> | Hks].
  { rewrite Hs. symmetry. apply lookup_insert_eq. }
  destruct (decide (k = "limit")) as [-> | Hkl].
  { rewrite Hl, lookup_insert_ne by discriminate. symmetry.
    apply lookup_singleton_eq. }
  rewrite (Hk k Hks Hkl), lookup_empty. symmetry.
  rewrite lookup_insert_ne by congruence. apply lookup_singleton_ne. congruence.
Qed.

(** X12.  Called without parameters, [paged_get] sends at least one
    request, and the query parameters of every request it sends are
    [start] and [limit] and nothing else; the objects of the store are as
    they were. *)
Theorem paged_get_no_params py_repr srv fuel self path limit max_items st r st' :
  paged_get py_repr srv fuel self path None limit max_items st = Some (r, st') ->
  (forall l d, heap st !! l = Some d -> heap st' !! l = Some d)
  /\ exists rq rest,
       log st' = log st ++ rq :: rest
       /\ req_params rq = Some {[ "start" := VInt 0; "limit" := VInt limit ]}
       /\ Forall (fun rq' => exists s,
                    req_params rq' = Some {[ "start" := s; "limit" := VInt limit ]})
            rest.
Proof.
  intros Hrun. rewrite paged_get_eq in Hrun.
  unfold copy_params in Hrun. cbn [fst snd mbind option_bind] in Hrun.
  set (lp := fresh (dom (heap st))) in *.
  assert (heap st !! lp = None) as Hfresh.
  { apply not_elem_of_dom. apply is_fresh. }
  apply (loop_params py_repr srv self path lp limit max_items ∅ fuel
           [] (VInt 0) _ ∅ r st') in Hrun.
  - destruct Hrun as (Hframe & new & Hlog & Hchain). split.
    + intros l d Hl. assert (l <> lp) as Hne by congruence.
      rewrite Hframe by assumption. cbn [heap].
      rewrite lookup_insert_ne by congruence. assumption.
    + cbn [log] in Hlog, Hchain.
      destruct (cursor_chain_params _ _ _ _ _ _ Hchain)
        as [Hall (rq & rest & -> & Hrq)].
      exists rq, rest. split; [assumption|].
      split; [now apply paginator_params_none|].
      apply Forall_cons in Hall as [_ Hall].
      eapply Forall_impl; [exact Hall|].
      intros rq' [s Hs]. exists s. now apply paginator_params_none.
  - cbn [heap]. apply lookup_insert_eq.
  - reflexivity.
Qed.

Lemma paged_get_no_params_witness :
  let srv := serve_pages [mk_page [VInt 1] (Some (VBool true)) None] in
  exists r st',
    paged_get repr_unused srv 1 demo_client "pull-requests" None 50 200
      (initial_state ∅) = Some (r, st')
    /\ (forall l d, (∅ : gmap loc pydict) !! l = Some d -> heap st' !! l = Some d)
    /\ exists rq rest,
         log st' = rq :: rest
         /\ req_params rq = Some {[ "start" := VInt 0; "limit" := VInt 50 ]}
         /\ Forall (fun rq' => exists s,
                      req_params rq' = Some {[ "start" := s; "limit" := VInt 50 ]})
              rest.
Proof.
  intros srv.
  destruct (paged_get repr_unused srv 1 demo_client "pull-requests" None 50 200
              (initial_state ∅)) as [[r st']|] eqn:Hrun.
  - exists r, st'. split; [reflexivity|].
    apply (paged_get_no_params repr_unused srv 1 demo_client "pull-requests"
             50 200 (initial_state ∅) r st'). exact Hrun.
  - vm_compute in Hrun. discriminate.
Defined.

(** ** The commands *)

Lemma client_raises (environ : gmap string string) (e : exn) :
  client environ = Raise e -> exists msg, e = BBError msg None.
Proof.
  unfold client. intros H.
  destruct (_env environ "BITBUCKET_SERVER") as [server|e1] eqn:Hs.
  - destruct (_norm_base server) as [base|e2] eqn:Hb.
    + destruct (_env environ "BITBUCKET_API_TOKEN") as [tok|e3] eqn:Ht;
        [discriminate|].
      injection H as <-. apply env_raises in Ht. eauto.
    + injection H as <-. apply norm_base_raises in Hb. eauto.
  - injection H as <-. apply env_raises in Hs. eauto.
Qed.

(** X13.  With a configuration that [client] rejects, each of [pr_get],
    [pr_create], [pr_comment] and [doctor] ends before any request is
    sent and before anything is written, and [main] turns the error into
    exit status 2 with the message of the error as the only line on the
    error stream. *)
Theorem commands_check_configuration_first
    py_repr srv json_dumps environ e st
    project repo pr_id from_branch to_branch title description reviewer draft
    json_out text :
  client environ = Raise e ->
  exists msg,
    e = BBError msg None
    /\ let done :=
         {| fin_end := ExitStatus 2; fin_state := st; fin_stdout := [];
            fin_stderr := [msg] |} in
       main (pr_get py_repr srv json_dumps environ project repo pr_id st) = done
       /\ main (pr_create py_repr srv json_dumps environ project repo from_branch
                  to_branch title description reviewer draft json_out st) = done
       /\ main (pr_comment py_repr srv environ project repo pr_id text st) = done
       /\ main (doctor py_repr srv environ st) = done.
Proof.
  intros Hc. destruct (client_raises environ e Hc) as [msg ->].
  exists msg. split; [reflexivity|]. cbv zeta.
  unfold pr_get, pr_create, pr_comment, doctor. rewrite Hc.
  repeat split.
Qed.

Lemma commands_check_configuration_first_witness :
  client ∅ = Raise (BBError (missing_variable_msg "BITBUCKET_SERVER") None)
  /\ exists msg,
       BBError (missing_variable_msg "BITBUCKET_SERVER") None = BBError msg None
       /\ let done :=
            {| fin_end := ExitStatus 2; fin_state := initial_state ∅;
               fin_stdout := []; fin_stderr := [msg] |} in
          main (pr_get repr_unused (scripted []) repr_unused ∅ "PRJ" "repo" 7
                  (initial_state ∅)) = done
          /\ main (pr_create repr_unused (scripted []) repr_unused ∅ "PRJ" "repo"
                     "feature/x" "develop" "Title" "" [] None false
                     (initial_state ∅)) = done
          /\ main (pr_comment repr_unused (scripted []) ∅ "PRJ" "repo" 7 "ok"
                     (initial_state ∅)) = done
          /\ main (doctor repr_unused (scripted []) ∅ (initial_state ∅)) = done.
Proof.
  split; [reflexivity|].
  apply (commands_check_configuration_first repr_unused (scripted []) repr_unused
           ∅ (BBError (missing_variable_msg "BITBUCKET_SERVER") None)
           (initial_state ∅) "PRJ" "repo" 7 "feature/x" "develop" "Title" ""
           [] None false "ok").
  reflexivity.
Defined.

(** X14.  The body [pr_create] posts: the title and the description, the
    two refs with [refs/heads/] before the branch names and the same
    repository slug and project key, [reviewers] only when a reviewer is
    given (one entry per reviewer, in order), [draft] only when the flag
    is given, and no other key. *)
Theorem pr_create_body_keys project repo from_branch to_branch title description
    reviewer draft :
  let body :=
    pr_create_body project repo from_branch to_branch title description
      reviewer draft in
  body !! "title" = Some (VStr title)
  /\ body !! "description" = Some (VStr description)
  /\ body !! "fromRef" = Some (ref_value from_branch repo project)
  /\ body !! "toRef" = Some (ref_value to_branch repo project)
  /\ body !! "reviewers"
     = match reviewer with
       | [] => None
       | _ :: _ => Some (VList (reviewer_value <$> reviewer))
       end
  /\ body !! "draft" = (VBool <$> draft)
  /\ forall k,
       k <> "title" -> k <> "description" -> k <> "fromRef" -> k <> "toRef" ->
       k <> "reviewers" -> k <> "draft" -> body !! k = None.
Proof.
  intros body. subst body. unfold pr_create_body.
  destruct reviewer as [|r rs], draft as [b|];
    repeat split; try reflexivity;
    intros k H1 H2 H3 H4 H5 H6;
    rewrite ?lookup_insert_ne by congruence; apply lookup_singleton_ne;
    congruence.
Qed.

Lemma request_url_plain (self : BitbucketClient) (a : ascii) (rest : string) :
  Ascii.eqb a "/" = false ->
  request_url self (String a rest) = base_rest self +:+ "/api/latest/" +:+ String a rest.
Proof.
  intros Ha. unfold request_url, api. cbn [Str.lstrip]. rewrite Ha.
  now rewrite string_app_assoc.
Qed.

Lemma pull_requests_url_under (self : BitbucketClient) (project repo rest : string) :
  request_url self (pull_requests_path project repo +:+ rest)
  = base_rest self +:+ "/api/latest/projects/" +:+ project +:+ "/repos/" +:+ repo
    +:+ "/pull-requests" +:+ rest.
Proof.
  unfold request_url, api, pull_requests_path. rewrite !string_app_assoc.
  reflexivity.
Qed.

Lemma pull_requests_url (self : BitbucketClient) (project repo : string) :
  request_url self (pull_requests_path project repo)
  = base_rest self +:+ "/api/latest/projects/" +:+ project +:+ "/repos/" +:+ repo
    +:+ "/pull-requests".
Proof.
  unfold request_url, api, pull_requests_path. rewrite !string_app_assoc.
  reflexivity.
Qed.

Section CommandFacts.

Context (py_repr : value -> string).
Context (srv : list HttpRequest -> transport_result).
Context (json_dumps : value -> string).
Context (environ : gmap string string) (bb : BitbucketClient).
Context (st : state).

Hypothesis configured : client environ = Ok bb.

Lemma pr_create_eq project repo from_branch to_branch title description
    reviewer draft json_out :
  let body :=
    pr_create_body project repo from_branch to_branch title description
      reviewer draft in
  let path := pull_requests_path project repo in
  let st' := sent bb "POST" path None (Some (VDict body)) st in
  pr_create py_repr srv json_dumps environ project repo from_branch to_branch
    title description reviewer draft json_out st
  = match outcome_of py_repr "POST" (request_url bb path) (srv (log st')) with
    | Raise e => (Raise e, st', [])
    | Ok created =>
        if json_out then (Ok tt, st', [json_dumps created])
        else match created_line py_repr created with
             | Raise e => (Raise e, st', [])
             | Ok line => (Ok tt, st', [line])
             end
    end.
Proof.
  cbv zeta. unfold pr_create. rewrite configured, request_eq.
  destruct (outcome_of _ _ _ _); reflexivity.
Qed.

Lemma pr_comment_eq project repo pr_id text :
  let path :=
    pull_requests_path project repo +:+ "/" +:+ pretty pr_id +:+ "/comments" in
  let st' := sent bb "POST" path None (Some (VDict {[ "text" := VStr text ]})) st in
  pr_comment py_repr srv environ project repo pr_id text st
  = match outcome_of py_repr "POST" (request_url bb path) (srv (log st')) with
    | Raise e => (Raise e, st', [])
    | Ok resp =>
        match get_attr resp "id" (VStr "?") with
        | Raise e => (Raise e, st', [])
        | Ok comment_id =>
            (Ok tt, st',
             ["Added comment " +:+ py_str py_repr comment_id +:+ " to PR #"
              +:+ pretty pr_id])
        end
    end.
Proof.
  cbv zeta. unfold pr_comment. rewrite configured, request_eq.
  destruct (outcome_of _ _ _ _); reflexivity.
Qed.

Lemma pr_get_eq project repo pr_id :
  let path := pull_requests_path project repo +:+ "/" +:+ pretty pr_id in
  let st' := sent bb "GET" path None None st in
  pr_get py_repr srv json_dumps environ project repo pr_id st
  = match outcome_of py_repr "GET" (request_url bb path) (srv (log st')) with
    | Raise e => (Raise e, st', [])
    | Ok pr => (Ok tt, st', [json_dumps pr])
    end.
Proof.
  cbv zeta. unfold pr_get. rewrite configured, request_eq.
  destruct (outcome_of _ _ _ _); reflexivity.
Qed.

End CommandFacts.

(** X15.  With a valid configuration [pr_create] sends exactly one
    request, whatever happens afterwards: a POST to the pull-requests
    path of the repository under the API root, without query parameters,
    with the body of [pr_create_body], a JSON content type and the bearer
    token; no object of the store changes. *)
Theorem pr_create_posts py_repr srv json_dumps environ bb st
    project repo from_branch to_branch title description reviewer draft json_out :
  client environ = Ok bb ->
  let r := pr_create py_repr srv json_dumps environ project repo from_branch
             to_branch title description reviewer draft json_out st in
  heap (snd (fst r)) = heap st
  /\ exists rq,
       log (snd (fst r)) = log st ++ [rq]
       /\ req_method rq = "POST"
       /\ req_url rq
          = base_rest bb +:+ "/api/latest/projects/" +:+ project +:+ "/repos/"
            +:+ repo +:+ "/pull-requests"
       /\ req_params rq = None
       /\ req_json rq
          = Some (VDict (pr_create_body project repo from_branch to_branch title
                           description reviewer draft))
       /\ req_headers rq !! "Content-Type" = Some "application/json"
       /\ req_headers rq !! "Authorization" = Some ("Bearer " +:+ token bb).
Proof.
  intros Hc r. subst r.
  rewrite (pr_create_eq py_repr srv json_dumps environ bb st Hc). cbv zeta.
  set (body := pr_create_body _ _ _ _ _ _ _ _).
  set (st' := sent bb "POST" (pull_requests_path project repo) None
                (Some (VDict body)) st).
  assert (forall x : run, snd (fst x) = st' ->
            heap (snd (fst x)) = heap st
            /\ exists rq,
                 log (snd (fst x)) = log st ++ [rq]
                 /\ req_method rq = "POST"
                 /\ req_url rq
                    = base_rest bb +:+ "/api/latest/projects/" +:+ project
                      +:+ "/repos/" +:+ repo +:+ "/pull-requests"
                 /\ req_params rq = None
                 /\ req_json rq = Some (VDict body)
                 /\ req_headers rq !! "Content-Type" = Some "application/json"
                 /\ req_headers rq !! "Authorization"
                    = Some ("Bearer " +:+ token bb)) as Hsent.
  { intros x ->. split; [reflexivity|]. eexists. split; [reflexivity|].
    split; [reflexivity|]. split; [|repeat split].
    apply pull_requests_url. }
  apply Hsent.
  destruct (outcome_of _ _ _ _) as [created|e]; [|reflexivity].
  destruct json_out; [reflexivity|].
  destruct (created_line py_repr created); reflexivity.
Qed.

Lemma pr_create_posts_witness :
  let r := pr_create repr_unused (scripted [Responds (json_response created_pr)])
             repr_unused padded_environ "PRJ" "repo" "feature/x" "develop"
             "Title" "" ["ann"] None false (initial_state ∅) in
  client padded_environ = Ok demo_client
  /\ heap (snd (fst r)) = ∅
  /\ exists rq,
       log (snd (fst r)) = [rq]
       /\ req_method rq = "POST"
       /\ req_url rq
          = "https://host/bitbucket/rest/api/latest/projects/PRJ/repos/repo/pull-requests"
       /\ req_params rq = None
       /\ req_json rq
          = Some (VDict (pr_create_body "PRJ" "repo" "feature/x" "develop" "Title"
                           "" ["ann"] None))
       /\ req_headers rq !! "Content-Type" = Some "application/json"
       /\ req_headers rq !! "Authorization" = Some "Bearer t0k3n".
Proof.
  intros r. split; [reflexivity|].
  apply (pr_create_posts repr_unused (scripted [Responds (json_response created_pr)])
           repr_unused padded_environ demo_client (initial_state ∅)
           "PRJ" "repo" "feature/x" "develop" "Title" "" ["ann"] None false).
  reflexivity.
Defined.

(** X16.  What [pr_create] writes once the server has answered with a
    value [created], without the JSON flag.  For an object without
    [links] it is [Created PR #] and the [id] (a question mark without
    one); with [links.self] a non-empty list whose first entry has a
    non-empty [href] string, that URL follows after a colon.  When
    [created] is not an object, or has [links] set to something that is
    not an object (null, say), the command raises [AttributeError] and
    writes nothing, after the request that created the pull request; this
    exception is not caught by [main]. *)
Theorem pr_create_reports py_repr srv json_dumps environ bb st
    project repo from_branch to_branch title description reviewer draft created :
  client environ = Ok bb ->
  let body := pr_create_body project repo from_branch to_branch title description
                reviewer draft in
  let path := pull_requests_path project repo in
  let st' := sent bb "POST" path None (Some (VDict body)) st in
  outcome_of py_repr "POST" (request_url bb path) (srv (log st')) = Ok created ->
  let r := pr_create py_repr srv json_dumps environ project repo from_branch
             to_branch title description reviewer draft false st in
  (forall c,
     created = VDict c -> c !! "links" = None ->
     r = (Ok tt, st', ["Created PR #" +:+ py_str py_repr (dict_get c "id" (VStr "?"))]))
  /\ (forall c lk l0 rest h,
        created = VDict c ->
        c !! "links" = Some (VDict lk) ->
        lk !! "self" = Some (VList (VDict l0 :: rest)) ->
        l0 !! "href" = Some (VStr h) -> h <> "" ->
        r = (Ok tt, st',
             ["Created PR #" +:+ py_str py_repr (dict_get c "id" (VStr "?"))
              +:+ ": " +:+ h]))
  /\ ((is_object created = false
       \/ exists c v, created = VDict c /\ c !! "links" = Some v
                      /\ is_object v = false) ->
      r = (Raise AttributeError, st', [])
      /\ fin_end (main r) = Uncaught AttributeError).
Proof.
  intros Hc body path st' Hout r. subst r.
  rewrite (pr_create_eq py_repr srv json_dumps environ bb st Hc). cbv zeta.
  fold body path st'. rewrite Hout. split; [|split].
  - intros c -> Hlinks. unfold created_line, get_attr, dict_get.
    rewrite Hlinks. rewrite lookup_empty. cbn [truthy].
    now rewrite string_app_nil_r.
  - intros c lk l0 rest h -> Hlinks Hself Hhref Hne.
    unfold created_line, get_attr, dict_get. rewrite Hlinks, Hself, Hhref.
    destruct h; [congruence | reflexivity].
  - intros [Hobj | (c & v & -> & Hlinks & Hobj)].
    + destruct created; try discriminate; split; reflexivity.
    + unfold created_line, get_attr, dict_get. rewrite Hlinks.
      destruct v; try discriminate; split; reflexivity.
Qed.

Lemma pr_create_reports_witness :
  let srv := scripted [Responds (json_response created_pr_null_links)] in
  let body := pr_create_body "PRJ" "repo" "feature/x" "develop" "Title" "" [] None in
  let path := pull_requests_path "PRJ" "repo" in
  let st' := sent demo_client "POST" path None (Some (VDict body)) (initial_state ∅) in
  let r := pr_create repr_unused srv repr_unused padded_environ "PRJ" "repo"
             "feature/x" "develop" "Title" "" [] None false (initial_state ∅) in
  client padded_environ = Ok demo_client
  /\ outcome_of repr_unused "POST" (request_url demo_client path) (srv (log st'))
     = Ok created_pr_null_links
  /\ r = (Raise AttributeError, st', [])
  /\ fin_end (main r) = Uncaught AttributeError.
Proof.
  intros srv body path st' r.
  assert (client padded_environ = Ok demo_client) as Hc by reflexivity.
  assert (outcome_of repr_unused "POST" (request_url demo_client path)
            (srv (log st')) = Ok created_pr_null_links) as Hout by reflexivity.
  split; [exact Hc|]. split; [exact Hout|].
  apply (pr_create_reports repr_unused srv repr_unused padded_environ demo_client
           (initial_state ∅) "PRJ" "repo" "feature/x" "develop" "Title" "" [] None
           created_pr_null_links Hc Hout).
  right. eexists _, VNone. repeat split; reflexivity.
Defined.

(** X17.  With a valid configuration [pr_comment] sends one POST to the
    [comments] path under the pull request, with the body that maps
    [text] to the comment.  When the answer is an object it writes
    [Added comment], the [id] of the answer (a question mark when there is
    none, as for an empty body), and the number of the pull request; when
    the answer is not an object it raises [AttributeError] after the
    comment was posted; and a failure of the request is raised as it
    is. *)
Theorem pr_comment_posts py_repr srv environ bb st project repo pr_id text :
  client environ = Ok bb ->
  let path :=
    pull_requests_path project repo +:+ "/" +:+ pretty pr_id +:+ "/comments" in
  let st' := sent bb "POST" path None (Some (VDict {[ "text" := VStr text ]})) st in
  let answer := outcome_of py_repr "POST" (request_url bb path) (srv (log st')) in
  let r := pr_comment py_repr srv environ project repo pr_id text st in
  (exists rq,
     log st' = log st ++ [rq]
     /\ req_method rq = "POST"
     /\ req_url rq
        = base_rest bb +:+ "/api/latest/projects/" +:+ project +:+ "/repos/"
          +:+ repo +:+ "/pull-requests/" +:+ pretty pr_id +:+ "/comments"
     /\ req_json rq = Some (VDict {[ "text" := VStr text ]}))
  /\ (forall c,
        answer = Ok (VDict c) ->
        r = (Ok tt, st',
             ["Added comment " +:+ py_str py_repr (dict_get c "id" (VStr "?"))
              +:+ " to PR #" +:+ pretty pr_id]))
  /\ (forall v, answer = Ok v -> is_object v = false ->
        r = (Raise AttributeError, st', []))
  /\ (forall e, answer = Raise e -> r = (Raise e, st', [])).
Proof.
  intros Hc path st' answer r. subst r.
  rewrite (pr_comment_eq py_repr srv environ bb st Hc). cbv zeta.
  fold path st' answer. split; [|split; [|split]].
  - eexists. split; [reflexivity|]. split; [reflexivity|]. split; [|reflexivity].
    cbn [req_url build_request]. subst path.
    apply (pull_requests_url_under bb project repo
             ("/" +:+ pretty pr_id +:+ "/comments")).
  - intros c ->. reflexivity.
  - intros v -> Hobj. destruct v; try discriminate; reflexivity.
  - intros e ->. reflexivity.
Qed.

Lemma pr_comment_posts_witness :
  let srv := scripted [Responds (json_response (VDict {[ "id" := VInt 9 ]}))] in
  let r := pr_comment repr_unused srv padded_environ "PRJ" "repo" 7 "Looks good"
             (initial_state ∅) in
  client padded_environ = Ok demo_client
  /\ exists rq,
       log (snd (fst r)) = [rq]
       /\ req_url rq
          = "https://host/bitbucket/rest/api/latest/projects/PRJ/repos/repo/pull-requests/7/comments"
       /\ req_json rq = Some (VDict {[ "text" := VStr "Looks good" ]})
       /\ snd r = ["Added comment 9 to PR #7"].
Proof.
  intros srv r.
  assert (client padded_environ = Ok demo_client) as Hc by reflexivity.
  split; [exact Hc|].
  destruct (pr_comment_posts repr_unused srv padded_environ demo_client
              (initial_state ∅) "PRJ" "repo" 7 "Looks good" Hc)
    as ((rq & Hlog & Hmethod & Hurl & Hjson) & Hobj & _ & _).
  exists rq. subst r. rewrite (Hobj {[ "id" := VInt 9 ]} eq_refl).
  repeat split; assumption.
Defined.

Lemma doctor_eq py_repr srv environ bb st :
  client environ = Ok bb ->
  let st0 := snd (alloc {[ "limit" := VInt 1; "start" := VInt 0 ]} st) in
  let l := fst (alloc {[ "limit" := VInt 1; "start" := VInt 0 ]} st) in
  let st' := sent bb "GET" "dashboard/pull-requests" (Some l) None st0 in
  doctor py_repr srv environ st
  = match outcome_of py_repr "GET" (request_url bb "dashboard/pull-requests")
            (srv (log st')) with
    | Raise e => (Raise e, st', [])
    | Ok (VDict d) =>
        match d !! "values" with
        | Some v =>
            match py_len (py_or v (VList [])) with
            | Some n =>
                (Ok tt, st',
                 [doctor_ok_line;
                  "Dashboard PRs visible: " +:+ pretty n
                  +:+ " item(s) on first page."])
            | None => (Raise (ForeignException "TypeError"), st', [doctor_ok_line])
            end
        | None => (Ok tt, st', [doctor_ok_line])
        end
    | Ok _ => (Ok tt, st', [doctor_ok_line])
    end.
Proof.
  intros Hc. cbv zeta. unfold doctor. rewrite Hc. unfold alloc. cbn [fst snd].
  rewrite request_eq. destruct (outcome_of _ _ _ _) as [[| | | | |d]|]; reflexivity.
Qed.

(** X18.  With a valid configuration [doctor] sends one GET for
    [dashboard/pull-requests] with [limit] 1 and [start] 0.  A failure of
    the request is raised before anything is written.  Otherwise the
    first line says the configuration is usable; for an object with
    [values] a second line counts them: the length of a list, 0 for null,
    while a number other than 0 raises [TypeError] after the first line,
    which [main] does not catch. *)
Theorem doctor_checks py_repr srv environ bb st :
  client environ = Ok bb ->
  let st0 := snd (alloc {[ "limit" := VInt 1; "start" := VInt 0 ]} st) in
  let l := fst (alloc {[ "limit" := VInt 1; "start" := VInt 0 ]} st) in
  let st' := sent bb "GET" "dashboard/pull-requests" (Some l) None st0 in
  let answer :=
    outcome_of py_repr "GET" (request_url bb "dashboard/pull-requests")
      (srv (log st')) in
  let r := doctor py_repr srv environ st in
  (exists rq,
     log st' = log st ++ [rq]
     /\ req_method rq = "GET"
     /\ req_url rq = base_rest bb +:+ "/api/latest/dashboard/pull-requests"
     /\ req_params rq = Some {[ "limit" := VInt 1; "start" := VInt 0 ]})
  /\ (forall e, answer = Raise e -> r = (Raise e, st', []))
  /\ (forall v,
        answer = Ok v ->
        (is_object v = false \/ exists d, v = VDict d /\ d !! "values" = None) ->
        r = (Ok tt, st', [doctor_ok_line]))
  /\ (forall d items,
        answer = Ok (VDict d) -> d !! "values" = Some (VList items) ->
        r = (Ok tt, st',
             [doctor_ok_line;
              "Dashboard PRs visible: " +:+ pretty (length items)
              +:+ " item(s) on first page."]))
  /\ (forall d,
        answer = Ok (VDict d) -> d !! "values" = Some VNone ->
        r = (Ok tt, st',
             [doctor_ok_line; "Dashboard PRs visible: 0 item(s) on first page."]))
  /\ (forall d n,
        answer = Ok (VDict d) -> d !! "values" = Some (VInt n) -> n <> 0 ->
        r = (Raise (ForeignException "TypeError"), st', [doctor_ok_line])
        /\ fin_end (main r) = Uncaught (ForeignException "TypeError")).
Proof.
  intros Hc st0 l st' answer r. subst r.
  rewrite (doctor_eq py_repr srv environ bb st Hc). cbv zeta.
  fold st0 l st' answer. split; [|split; [|split; [|split; [|split]]]].
  - eexists. split; [reflexivity|]. split; [reflexivity|]. split.
    + cbn [req_url build_request]. apply (request_url_plain bb "d"). reflexivity.
    + cbn [req_params build_request mbind option_bind]. subst st0 l.
      unfold alloc. cbn [fst snd heap]. apply lookup_insert_eq.
  - intros e ->. reflexivity.
  - intros v -> [Hobj | (d & -> & Hnone)].
    + destruct v; try discriminate; reflexivity.
    + now rewrite Hnone.
  - intros d items -> ->. destruct items; reflexivity.
  - intros d -> ->. reflexivity.
  - intros d n -> -> Hn. unfold py_or. cbn [truthy].
    destruct (Z.eqb_spec n 0); [congruence|]. split; reflexivity.
Qed.

Lemma doctor_checks_witness :
  let srv :=
    scripted [Responds (json_response
                (VDict (mk_page [VInt 1; VInt 2] (Some (VBool true)) None)))] in
  client padded_environ = Ok demo_client
  /\ doctor repr_unused srv padded_environ (initial_state ∅)
     = (Ok tt,
        sent demo_client "GET" "dashboard/pull-requests"
          (Some (fst (alloc {[ "limit" := VInt 1; "start" := VInt 0 ]} (initial_state ∅))))
          None
          (snd (alloc {[ "limit" := VInt 1; "start" := VInt 0 ]} (initial_state ∅))),
        [doctor_ok_line; "Dashboard PRs visible: 2 item(s) on first page."]).
Proof.
  intros srv.
  assert (client padded_environ = Ok demo_client) as Hc by reflexivity.
  split; [exact Hc|].
  destruct (doctor_checks repr_unused srv padded_environ demo_client
              (initial_state ∅) Hc) as (_ & _ & _ & Hlist & _).
  apply (Hlist (mk_page [VInt 1; VInt 2] (Some (VBool true)) None)
           [VInt 1; VInt 2]); reflexivity.
Defined.

Lemma success_value_raises (resp : Response) (e : exn) :
  success_value resp = Raise e -> e = JSONDecodeError.
Proof.
  unfold success_value. destruct (Str.is_empty _); [discriminate|].
  destruct (Str.contains _ _); [|discriminate].
  destruct (json resp); [discriminate|]. now intros [= <-].
Qed.

Lemma outcome_of_raises py_repr method url tr e :
  outcome_of py_repr method url tr = Raise e ->
  (exists msg cause, e = BBError msg cause)
  \/ e = JSONDecodeError
  \/ exists name, e = ForeignException name.
Proof.
  unfold outcome_of, handle_response. destruct tr as [resp|rex|name].
  - destruct (400 <=? status_code resp).
    + intros [= <-]. left. eauto.
    + intros He%success_value_raises. now right; left.
  - intros [= <-]. left. eauto.
  - intros [= <-]. right; right. eauto.
Qed.

(** X19.  With a valid configuration [pr_get] sends exactly one request,
    a GET to the path of the pull request under the API root, without
    query parameters or body, and [main] ends by what [request] gave:
    when it returned a value, the status is 0 and the only output is the
    JSON text of that very value; when it raised [BBError], the status
    is 2, the message is the one line on the error stream and nothing is
    written to the output; any other exception escapes [main] with
    nothing written, and it is the decoding error of a body announced as
    JSON or an exception of the HTTP library that is not one of its
    own. *)
Theorem pr_get_ends py_repr srv json_dumps environ bb project repo pr_id st :
  client environ = Ok bb ->
  let path := pull_requests_path project repo +:+ "/" +:+ pretty pr_id in
  let st' := sent bb "GET" path None None st in
  let answer := fst (request py_repr srv bb "GET" path None None st) in
  let f := main (pr_get py_repr srv json_dumps environ project repo pr_id st) in
  fin_state f = st'
  /\ (exists rq,
        log st' = log st ++ [rq]
        /\ req_method rq = "GET"
        /\ req_url rq
           = base_rest bb +:+ "/api/latest/projects/" +:+ project +:+ "/repos/"
             +:+ repo +:+ "/pull-requests/" +:+ pretty pr_id
        /\ req_params rq = None /\ req_json rq = None)
  /\ (forall pr,
        answer = Ok pr ->
        fin_end f = ExitStatus 0 /\ fin_stdout f = [json_dumps pr]
        /\ fin_stderr f = [])
  /\ (forall msg cause,
        answer = Raise (BBError msg cause) ->
        fin_end f = ExitStatus 2 /\ fin_stdout f = [] /\ fin_stderr f = [msg])
  /\ (forall e,
        answer = Raise e ->
        (forall msg cause, e <> BBError msg cause) ->
        fin_end f = Uncaught e /\ fin_stdout f = [] /\ fin_stderr f = []
        /\ (e = JSONDecodeError \/ exists name, e = ForeignException name))
  /\ (forall resp pr,
        srv (log st') = Responds resp ->
        status_code resp < 400 ->
        success_value resp = Ok pr ->
        fin_stdout f = [json_dumps pr]).
Proof.
  intros Hc path st' answer f. subst f answer.
  rewrite (pr_get_eq py_repr srv json_dumps environ bb st Hc). cbv zeta.
  rewrite request_eq. cbn [fst]. fold path st'.
  split; [|split; [|split; [|split; [|split]]]].
  - destruct (outcome_of _ _ _ _) as [v|[]]; reflexivity.
  - eexists. split; [reflexivity|]. split; [reflexivity|].
    split; [|split; reflexivity].
    cbn [req_url build_request]. subst path.
    apply (pull_requests_url_under bb project repo ("/" +:+ pretty pr_id)).
  - intros pr ->. repeat split.
  - intros msg cause ->. repeat split.
  - intros e He Hother. rewrite He.
    apply outcome_of_raises in He as [(msg & cause & ->) | [-> | [name ->]]].
    + now destruct (Hother msg cause).
    + cbn. repeat split. now left.
    + cbn. repeat split. right. now exists name.
  - intros resp pr Hsrv Hcode Hv. rewrite Hsrv. cbn [outcome_of].
    unfold handle_response. destruct (Z.leb_spec 400 (status_code resp)); [lia|].
    now rewrite Hv.
Qed.

Lemma pr_get_ends_witness :
  let srv := scripted [Responds (json_response (VDict {[ "id" := VInt 7 ]}))] in
  let f := main (pr_get repr_unused srv dumps_id padded_environ "PRJ" "repo" 7
                   (initial_state ∅)) in
  client padded_environ = Ok demo_client
  /\ fin_end f = ExitStatus 0
  /\ fin_stdout f = ["{id: 7}"]
  /\ fin_stderr f = []
  /\ exists rq,
       log (fin_state f) = [rq]
       /\ req_url rq
          = "https://host/bitbucket/rest/api/latest/projects/PRJ/repos/repo/pull-requests/7".
Proof.
  intros srv f.
  assert (client padded_environ = Ok demo_client) as Hc by reflexivity.
  split; [exact Hc|].
  destruct (pr_get_ends repr_unused srv dumps_id padded_environ demo_client
              "PRJ" "repo" 7 (initial_state ∅) Hc)
    as (Hst & (rq & Hlog & _ & Hurl & _) & Hok & _).
  destruct (Hok (VDict {[ "id" := VInt 7 ]}) eq_refl) as (Hend & Hout & Herr).
  split; [exact Hend|]. split; [exact Hout|]. split; [exact Herr|].
  exists rq. subst f. rewrite Hst. split; [exact Hlog | exact Hurl].
Defined.

(** ** The table of pull requests *)

Lemma code_points_app (s t : string) :
  code_points (s +:+ t) = (code_points s + code_points t)%nat.
Proof.
  induction s as [|a s IH]; simpl; [reflexivity|].
  destruct (is_continuation a); rewrite IH; reflexivity.
Qed.

Lemma code_points_repeat (c : ascii) (n : nat) :
  is_continuation c = false -> code_points (Str.repeat c n) = n.
Proof.
  intros Hc. induction n as [|n IH]; simpl; [reflexivity|]. now rewrite Hc, IH.
Qed.

Lemma code_points_ljust (s : string) (w : nat) :
  (code_points s <= w)%nat -> code_points (ljust s w) = w.
Proof.
  intros H. unfold ljust.
  rewrite code_points_app, code_points_repeat by reflexivity. lia.
Qed.

Lemma traverse_Ok {A B : Type} (f : A -> outcome B) (g : A -> B) (l : list A) :
  (forall x, x ∈ l -> f x = Ok (g x)) -> traverse f l = Ok (g <$> l).
Proof.
  induction l as [|x l IH]; intros H; [reflexivity|]. cbn [traverse].
  rewrite (H x) by left. cbn. rewrite IH; [reflexivity|].
  intros y Hy. apply H. now right.
Qed.

Lemma widen_strings (ws : list nat) (cells : list string) :
  widen ws (VStr <$> cells) = Ok (zip_with Nat.max ws (code_points <$> cells)).
Proof.
  unfold widen. revert cells.
  induction ws as [|w ws IH]; intros [|c cells]; try reflexivity.
  cbn. specialize (IH cells). cbn in IH. now rewrite IH.
Qed.

Lemma col_widths_strings (srows : list (list string)) :
  forall ws,
    col_widths ws (string_rows srows)
    = Ok (fold_left (fun ws cells => zip_with Nat.max ws (code_points <$> cells))
            srows ws).
Proof.
  induction srows as [|r srows IH]; intros ws; [reflexivity|].
  cbn [string_rows fmap list_fmap col_widths].
  rewrite widen_strings. cbn. apply IH.
Qed.

Lemma fmt_row_strings (ws : list nat) (cells : list string) :
  fmt_row ws (VStr <$> cells) = Ok (fmt_cells ws cells).
Proof.
  unfold fmt_row.
  rewrite (traverse_Ok _ (fun v => match v with VStr s => s | _ => "" end)).
  - cbn. do 2 f_equal. rewrite <- list_fmap_compose.
    rewrite <- (list_fmap_id cells) at 2. apply list_fmap_ext. now intros i x _.
  - intros v (s & -> & _)%list_elem_of_fmap. reflexivity.
Qed.

Lemma echo_rows_strings (ws : list nat) (srows : list (list string)) :
  echo_rows ws (string_rows srows) = (Ok tt, fmt_cells ws <$> srows).
Proof.
  induction srows as [|r srows IH]; [reflexivity|].
  cbn [string_rows fmap list_fmap echo_rows]. rewrite fmt_row_strings.
  unfold string_rows in IH. cbn [fmap] in IH. now rewrite IH.
Qed.

Lemma fits_mono (cells : list string) (ws ws' : list nat) :
  fits cells ws -> Forall2 le ws ws' -> fits cells ws'.
Proof.
  unfold fits. intros Hf. revert ws'.
  induction Hf as [|c w cells ws Hc Hf IH]; intros ws' Hle; inversion Hle; subst;
    constructor; [lia | now apply IH].
Qed.

Lemma widths_step (ws : list nat) (cells : list string) :
  length cells = length ws ->
  let ws' := zip_with Nat.max ws (code_points <$> cells) in
  length ws' = length ws /\ Forall2 le ws ws' /\ fits cells ws'.
Proof.
  revert cells. induction ws as [|w ws IH]; intros [|c cells] Hlen;
    try discriminate; cbn.
  - repeat split; constructor.
  - injection Hlen as Hlen. destruct (IH cells Hlen) as (Hl & Hle & Hfit).
    split; [now rewrite Hl|]. split; constructor; try assumption; lia.
Qed.

Lemma widths_le_refl (ws : list nat) : Forall2 le ws ws.
Proof. induction ws; constructor; [lia | assumption]. Qed.

Lemma widths_le_trans (ws1 ws2 ws3 : list nat) :
  Forall2 le ws1 ws2 -> Forall2 le ws2 ws3 -> Forall2 le ws1 ws3.
Proof.
  intros H. revert ws3. induction H as [|a b ws1 ws2 Hab H IH]; intros ws3 H3;
    inversion H3; subst; constructor; [lia | now apply IH].
Qed.

Lemma fold_widths (srows : list (list string)) :
  forall ws,
    Forall (fun r => length r = length ws) srows ->
    let W := fold_left (fun ws cells => zip_with Nat.max ws (code_points <$> cells))
               srows ws in
    length W = length ws /\ Forall2 le ws W /\ Forall (fun r => fits r W) srows.
Proof.
  induction srows as [|r srows IH]; intros ws Hlen; cbn.
  - split; [reflexivity|]. split; [apply widths_le_refl | constructor].
  - apply Forall_cons in Hlen as [Hr Hlen].
    destruct (widths_step ws r Hr) as (Hl & Hle & Hfit). cbn zeta in *.
    destruct (IH (zip_with Nat.max ws (code_points <$> r))) as (Hl' & Hle' & Hfits).
    { eapply Forall_impl; [exact Hlen|]. intros x Hx. cbn in Hx. congruence. }
    cbn zeta in *. split; [congruence|]. split.
    + eapply widths_le_trans; eassumption.
    + constructor; [|assumption]. now apply (fits_mono r _ _ Hfit).
Qed.

Lemma join_points (sep : string) (l : list string) :
  code_points (join sep l)
  = (sum_list (code_points <$> l) + code_points sep * (length l - 1))%nat.
Proof.
  induction l as [|x l IH]; [cbn; lia|].
  destruct l as [|y l].
  - cbn. lia.
  - change (join sep (x :: y :: l)) with (x +:+ sep +:+ join sep (y :: l)).
    rewrite !code_points_app, IH. cbn. lia.
Qed.

Lemma padded_points (cells : list string) (ws : list nat) :
  fits cells ws -> code_points <$> zip_with ljust cells ws = ws.
Proof.
  unfold fits. induction 1 as [|c w cells ws Hc Hf IH]; [reflexivity|].
  cbn. now rewrite code_points_ljust, IH.
Qed.

Lemma fmt_cells_points (cells : list string) (ws : list nat) :
  fits cells ws ->
  code_points (fmt_cells ws cells) = (sum_list ws + 2 * (length ws - 1))%nat.
Proof.
  intros Hf. unfold fmt_cells. rewrite join_points, (padded_points _ _ Hf).
  pose proof (Forall2_length _ _ _ Hf). rewrite length_zip_with.
  change (code_points "  ") with 2%nat. lia.
Qed.

Lemma separator_points (ws : list nat) :
  code_points (join "  " ((fun w => Str.repeat "-" w) <$> ws))
  = (sum_list ws + 2 * (length ws - 1))%nat.
Proof.
  rewrite join_points, length_fmap, <- list_fmap_compose.
  replace (code_points ∘ (fun w => Str.repeat "-" w) <$> ws) with ws;
    [change (code_points "  ") with 2%nat; lia|].
  induction ws as [|w ws IH]; [reflexivity|]. cbn.
  rewrite code_points_repeat by reflexivity. now rewrite <- IH.
Qed.

Lemma traverse_Forall2 {A B : Type} (f : A -> outcome B) (l : list A) :
  forall l', traverse f l = Ok l' -> Forall2 (fun x y => f x = Ok y) l l'.
Proof.
  induction l as [|x l IH]; intros l' H.
  - injection H as <-. constructor.
  - cbn in H. destruct (f x) as [y|] eqn:Hx; [|discriminate]. cbn in H.
    destruct (traverse f l) as [ys|] eqn:Hl; [|discriminate]. cbn in H.
    injection H as <-. constructor; [assumption | now apply IH].
Qed.

Lemma obind_Ok {A B : Type} (x : outcome A) (f : A -> outcome B) (b : B) :
  x ≫= f = Ok b -> exists a, x = Ok a /\ f a = Ok b.
Proof. destruct x as [a|e]; [eauto | discriminate]. Qed.

Lemma replace_newlines_clean (s : string) :
  Str.contains (String "010" "") (replace_newlines s) = false.
Proof.
  induction s as [|a s IH]; [reflexivity|]. cbn [replace_newlines].
  set (b := if Ascii.eqb a "010" then " "%char else a).
  change (Str.contains (String "010" "") (String b (replace_newlines s)))
    with (Ascii.eqb "010" b && true
          || Str.contains (String "010" "") (replace_newlines s)).
  rewrite IH, orb_false_r, andb_true_r. subst b.
  destruct (Ascii.eqb a "010") eqn:Ha; [reflexivity|].
  now rewrite Ascii.eqb_sym.
Qed.

Lemma pr_row_cells py_repr (pr : value) (cells : list value) :
  pr_row py_repr pr = Ok cells ->
  exists pr_id state author refs title,
    cells = [VStr pr_id; state; author; VStr refs; VStr title]
    /\ Str.contains (String "010" "") title = false.
Proof.
  unfold pr_row. intros H.
  apply obind_Ok in H as (pr_id & _ & H).
  apply obind_Ok in H as (t & _ & H).
  apply obind_Ok in H as (title & Ht & H).
  apply obind_Ok in H as (state & _ & H).
  apply obind_Ok in H as (from_ref & _ & H).
  apply obind_Ok in H as (to_ref & _ & H).
  apply obind_Ok in H as (author & _ & H).
  injection H as <-. do 5 eexists. split; [reflexivity|].
  destruct (py_or t (VStr "")); try discriminate. injection Ht as <-.
  apply replace_newlines_clean.
Qed.

(** X20.  The table of [_print_prs], for pull requests whose cells are
    all strings: a header, a line of dashes and one line per pull
    request, every line as wide as every other (the column widths and two
    spaces between columns), each column as wide as its widest cell or
    its header. *)
Theorem print_prs_table py_repr (prs : list value) (srows : list (list string)) :
  traverse (pr_row py_repr) prs = Ok (string_rows srows) ->
  prs <> [] ->
  let W := table_widths srows in
  let lines :=
    fmt_cells W table_headers
    :: join "  " ((fun w => Str.repeat "-" w) <$> W)
    :: (fmt_cells W <$> srows) in
  _print_prs py_repr prs = (Ok tt, lines)
  /\ length lines = (length prs + 2)%nat
  /\ length W = 5%nat
  /\ fits table_headers W
  /\ Forall (fun r => fits r W) srows
  /\ Forall (fun line => code_points line = (sum_list W + 8)%nat) lines.
Proof.
  intros Hrows Hne W lines.
  pose proof (traverse_Forall2 _ _ _ Hrows) as Hall.
  assert (length srows = length prs) as Hlen.
  { apply Forall2_length in Hall. unfold string_rows in Hall.
    rewrite length_fmap in Hall. congruence. }
  assert (Forall (fun r => length r = 5%nat) srows) as Hfive.
  { apply Forall_forall. intros r Hr.
    apply list_elem_of_lookup in Hr as [i Hi].
    assert (string_rows srows !! i = Some (VStr <$> r)) as Hi'.
    { unfold string_rows. now rewrite list_lookup_fmap, Hi. }
    destruct (Forall2_lookup_r _ _ _ _ _ Hall Hi') as (pr & _ & Hpr).
    apply pr_row_cells in Hpr as (a & b & c & d & e & Hcells & _).
    apply (f_equal length) in Hcells. now rewrite length_fmap in Hcells. }
  destruct (fold_widths srows (code_points <$> table_headers)) as (HW & Hhead & Hfits).
  { exact Hfive. }
  cbn zeta in *. fold (table_widths srows) in HW, Hhead, Hfits. fold W in HW, Hhead, Hfits.
  assert (fits table_headers W) as Hheaders.
  { apply (fits_mono _ (code_points <$> table_headers)); [|assumption].
    repeat constructor. }
  assert (W <> []) as HWne by (intros HW0; rewrite HW0 in HW; discriminate).
  assert (sum_list W + 2 * (length W - 1) = sum_list W + 8)%nat as Hsum
    by (rewrite HW; reflexivity).
  split; [|split; [|split; [|split; [|split]]]]; try assumption.
  - unfold _print_prs. rewrite Hrows.
    destruct srows as [|r0 srows0].
    { destruct prs; [congruence | discriminate]. }
    change (string_rows (r0 :: srows0))
      with ((VStr <$> r0) :: string_rows srows0) at 1.
    cbv iota.
    change ((VStr <$> r0) :: string_rows srows0) with (string_rows (r0 :: srows0)).
    rewrite col_widths_strings, echo_rows_strings. reflexivity.
  - subst lines. cbn [length]. rewrite length_fmap. lia.
  - subst lines. repeat constructor.
    + rewrite fmt_cells_points by assumption. exact Hsum.
    + rewrite separator_points. exact Hsum.
    + apply Forall_fmap. eapply Forall_impl; [exact Hfits|].
      intros r Hr. cbn. rewrite fmt_cells_points by assumption. exact Hsum.
Qed.

Lemma print_prs_table_witness :
  let prs := [listed_pr 7 "Add viz panel"; listed_pr 123 "x"] in
  let srows :=
    [["7"; "OPEN"; "ann"; "feature/x -> refs/heads/develop"; "Add viz panel"];
     ["123"; "OPEN"; "ann"; "feature/x -> refs/heads/develop"; "x"]] in
  traverse (pr_row repr_unused) prs = Ok (string_rows srows)
  /\ prs <> []
  /\ _print_prs repr_unused prs
     = (Ok tt,
        ["ID   STATE  AUTHOR  REFS                             TITLE        ";
         "---  -----  ------  -------------------------------  -------------";
         "7    OPEN   ann     feature/x -> refs/heads/develop  Add viz panel";
         "123  OPEN   ann     feature/x -> refs/heads/develop  x            "]).
Proof.
  intros prs srows.
  assert (traverse (pr_row repr_unused) prs = Ok (string_rows srows)) as Hrows
    by (vm_compute; reflexivity).
  assert (prs <> []) as Hne by discriminate.
  split; [exact Hrows|]. split; [exact Hne|].
  destruct (print_prs_table repr_unused prs srows Hrows Hne) as (Hprint & _).
  rewrite Hprint. vm_compute. reflexivity.
Defined.

Lemma get_attr_raises (v : value) (key : string) (default : value) (e : exn) :
  get_attr v key default = Raise e -> e = AttributeError.
Proof. destruct v; cbn; congruence. Qed.

Lemma obind_Raise {A B : Type} (x : outcome A) (f : A -> outcome B) (e : exn) :
  x ≫= f = Raise e -> x = Raise e \/ exists a, x = Ok a /\ f a = Raise e.
Proof. destruct x as [a|e']; cbn; [eauto | intros [= ->]; now left]. Qed.

Lemma ref_display_raises (pr : value) (key : string) (e : exn) :
  ref_display pr key = Raise e -> e = AttributeError.
Proof.
  unfold ref_display. intros H.
  apply obind_Raise in H as [H | (r & _ & H)]; [now apply get_attr_raises in H|].
  apply obind_Raise in H as [H | (shown & _ & H)]; [now apply get_attr_raises in H|].
  destruct (truthy shown); [discriminate|].
  apply obind_Raise in H as [H | (r' & _ & H)]; now apply get_attr_raises in H.
Qed.

Lemma author_display_raises (pr : value) (e : exn) :
  author_display pr = Raise e -> e = AttributeError.
Proof.
  unfold author_display. intros H.
  apply obind_Raise in H as [H | (a & _ & H)]; [now apply get_attr_raises in H|].
  apply obind_Raise in H as [H | (u & _ & H)]; [now apply get_attr_raises in H|].
  apply obind_Raise in H as [H | (shown & _ & H)]; [now apply get_attr_raises in H|].
  destruct (truthy shown); [discriminate|].
  apply obind_Raise in H as [H | (a' & _ & H)]; [now apply get_attr_raises in H|].
  apply obind_Raise in H as [H | (u' & _ & H)]; now apply get_attr_raises in H.
Qed.

Lemma pr_row_raises py_repr (pr : value) (e : exn) :
  pr_row py_repr pr = Raise e -> e = AttributeError.
Proof.
  unfold pr_row. intros H.
  apply obind_Raise in H as [H | (pr_id & _ & H)]; [now apply get_attr_raises in H|].
  apply obind_Raise in H as [H | (t & _ & H)]; [now apply get_attr_raises in H|].
  apply obind_Raise in H as [H | (title & _ & H)].
  { destruct (py_or t (VStr "")); congruence. }
  apply obind_Raise in H as [H | (state & _ & H)]; [now apply get_attr_raises in H|].
  apply obind_Raise in H as [H | (from_ref & _ & H)];
    [now apply ref_display_raises in H|].
  apply obind_Raise in H as [H | (to_ref & _ & H)];
    [now apply ref_display_raises in H|].
  apply obind_Raise in H as [H | (author & _ & H)];
    [now apply author_display_raises in H|].
  discriminate.
Qed.

Lemma traverse_raises {A B : Type} (f : A -> outcome B) (l : list A) (e0 : exn) :
  (forall x e, f x = Raise e -> e = e0) ->
  (exists x e, x ∈ l /\ f x = Raise e) ->
  traverse f l = Raise e0.
Proof.
  intros Hf. induction l as [|x l IH]; intros (y & e & Hy & He).
  - inversion Hy.
  - cbn. destruct (f x) as [b|e1] eqn:Hx.
    + cbn. rewrite IH; [reflexivity|].
      apply elem_of_cons in Hy as [-> | Hy]; [congruence|]. eauto.
    + cbn. now rewrite (Hf x e1 Hx).
Qed.

Lemma widen_cases (ws : list nat) (r : list value) :
  length r = length ws ->
  (Exists no_len r /\ widen ws r = Raise (ForeignException "TypeError"))
  \/ (exists ws', widen ws r = Ok ws' /\ length ws' = length ws).
Proof.
  unfold widen. revert r. induction ws as [|w ws IH]; intros [|c r] Hlen;
    try discriminate.
  - right. now exists [].
  - injection Hlen as Hlen. cbn. destruct (py_len c) as [n|] eqn:Hc.
    + cbn. destruct (IH r Hlen) as [[Hex Hr] | (ws' & Hr & Hl)].
      * left. cbn in Hr. rewrite Hr. split; [now right | reflexivity].
      * right. cbn in Hr. rewrite Hr. cbn. eexists. split; [reflexivity|].
        cbn. now rewrite Hl.
    + left. split; [now left | reflexivity].
Qed.

Lemma widen_no_len (ws : list nat) (r : list value) :
  length r = length ws -> Exists no_len r ->
  widen ws r = Raise (ForeignException "TypeError").
Proof.
  unfold widen. revert r. induction ws as [|w ws IH]; intros [|c r] Hlen Hex;
    try discriminate.
  - inversion Hex.
  - injection Hlen as Hlen. cbn. destruct (py_len c) as [n|] eqn:Hc.
    + cbn. apply Exists_cons in Hex as [Hex | Hex]; [unfold no_len in Hex; congruence|].
      specialize (IH r Hlen Hex). cbn in IH. now rewrite IH.
    + reflexivity.
Qed.

Lemma col_widths_no_len (rows : list (list value)) :
  forall ws,
    Forall (fun r => length r = length ws) rows ->
    Exists (Exists no_len) rows ->
    col_widths ws rows = Raise (ForeignException "TypeError").
Proof.
  induction rows as [|r rows IH]; intros ws Hlen Hex; [inversion Hex|].
  apply Forall_cons in Hlen as [Hr Hlen]. cbn [col_widths].
  destruct (widen_cases ws r Hr) as [[_ Hw] | (ws' & Hw & Hl)].
  - now rewrite Hw.
  - rewrite Hw. cbn. apply Exists_cons in Hex as [Hex | Hex].
    + rewrite (widen_no_len ws r Hr Hex) in Hw. discriminate.
    + apply IH; [|assumption].
      eapply Forall_impl; [exact Hlen|]. intros x Hx. cbn in Hx. congruence.
Qed.

(** X21.  Where [_print_prs] writes no table.  For no pull request it
    writes one line saying so.  When an entry is not an object it raises
    [AttributeError] and writes nothing.  When the rows are built but a
    state or an author has no length (null, a number, a boolean), it
    raises [TypeError] before the header is written. *)
Theorem print_prs_failures py_repr (prs : list value) :
  (prs = [] -> _print_prs py_repr prs = (Ok tt, ["No pull requests."]))
  /\ ((exists pr, pr ∈ prs /\ is_object pr = false) ->
      _print_prs py_repr prs = (Raise AttributeError, []))
  /\ (forall rows,
        traverse (pr_row py_repr) prs = Ok rows ->
        Exists (Exists no_len) rows ->
        _print_prs py_repr prs = (Raise (ForeignException "TypeError"), [])).
Proof.
  split; [|split].
  - intros ->. reflexivity.
  - intros (pr & Hin & Hobj). unfold _print_prs.
    rewrite (traverse_raises _ _ AttributeError); [reflexivity | |].
    + intros x e. apply pr_row_raises.
    + exists pr, AttributeError. split; [assumption|].
      destruct pr; try discriminate; reflexivity.
  - intros rows Hrows Hex. unfold _print_prs. rewrite Hrows.
    destruct rows as [|r rows]; [inversion Hex|].
    rewrite col_widths_no_len; [reflexivity | | assumption].
    apply Forall_forall. intros x Hx.
    apply list_elem_of_lookup in Hx as [i Hi].
    destruct (Forall2_lookup_r _ _ _ _ _ (traverse_Forall2 _ _ _ Hrows) Hi)
      as (pr & _ & Hpr).
    apply pr_row_cells in Hpr as (a & b & c & d & e & -> & _). reflexivity.
Qed.

(** ** Listing pull requests *)

Lemma paginator_params_eq d limit s rq :
  paginator_params d limit s rq ->
  req_method rq = "GET" /\ req_params rq = Some (update_start_limit s limit d).
Proof.
  intros (Hget & p & Hp & Hs & Hl & Hk). split; [assumption|].
  rewrite Hp. f_equal. apply map_eq. intros k. unfold update_start_limit.
  destruct (decide (k = "limit")) as [-> | Hkl].
  { now rewrite Hl, lookup_insert_eq. }
  rewrite lookup_insert_ne by congruence.
  destruct (decide (k = "start")) as [-> | Hks].
  { now rewrite Hs, lookup_insert_eq. }
  rewrite lookup_insert_ne by congruence. now apply Hk.
Qed.

Lemma loop_urls py_repr srv self path lp limit max_items (fuel : nat) :
  forall out start st r st',
    paged_get_loop py_repr srv fuel self path lp limit max_items out start st
    = Some (r, st') ->
    exists new,
      log st' = log st ++ new
      /\ Forall (fun rq => req_url rq = request_url self path) new.
Proof.
  induction fuel as [|fuel IH]; intros out start st r st' Hrun; [discriminate|].
  rewrite loop_unfold in Hrun. cbv zeta in Hrun.
  assert (forall res : outcome (list value),
            Some (res, turn self path lp limit start st) = Some (r, st') ->
            exists new, log st' = log st ++ new
                        /\ Forall (fun rq => req_url rq = request_url self path) new)
    as Hstop.
  { intros res [= _ <-]. eexists. split; [reflexivity|]. repeat constructor. }
  destruct (srv (log (turn self path lp limit start st))) as [resp|e|name];
    [|now apply (Hstop (Raise (BBError ("Request failed: " +:+ rex_str e) (Some e))))
     |now apply (Hstop (Raise (ForeignException name)))].
  destruct (handle_response py_repr "GET" (request_url self path) resp) as [v|e];
    [|now apply (Hstop (Raise e))].
  destruct v as [| | | | |page]; try now apply (Hstop (Raise AttributeError)).
  destruct (after_page max_items out page) as [res|out' start'];
    [now apply (Hstop (Ok res))|].
  apply IH in Hrun as (new & Hlog & Hall).
  eexists (_ :: new). split.
  - rewrite Hlog. unfold turn, sent. cbn [log]. rewrite <- app_assoc. reflexivity.
  - constructor; [reflexivity | assumption].
Qed.

(** The requests of a run of [paged_get] for a caller's mapping [d]. *)
Lemma paged_get_requests py_repr srv fuel self path l d limit max_items st r st' :
  heap st !! l = Some d ->
  paged_get py_repr srv fuel self path (Some l) limit max_items st = Some (r, st') ->
  exists rq rest,
    log st' = log st ++ rq :: rest
    /\ req_params rq = Some (update_start_limit (VInt 0) limit d)
    /\ Forall (fun q =>
                 req_method q = "GET"
                 /\ req_url q = request_url self path
                 /\ exists s, req_params q = Some (update_start_limit s limit d))
         (rq :: rest).
Proof.
  intros Hl Hrun. rewrite paged_get_eq in Hrun.
  destruct (loop_urls _ _ _ _ _ _ _ _ _ _ _ _ _ Hrun) as (new' & Hlog' & Hurls).
  unfold copy_params in Hrun, Hlog'. cbn [fst snd] in Hrun, Hlog'.
  change (Some l ≫= (fun l0 => heap st !! l0)) with (heap st !! l) in Hrun.
  rewrite Hl in Hrun.
  apply (loop_params py_repr srv self path _ limit max_items d fuel
           [] (VInt 0) _ d r st') in Hrun;
    [|cbn [heap]; apply lookup_insert_eq | reflexivity].
  destruct Hrun as (_ & new & Hlog & Hchain). cbn [log] in Hlog, Hlog', Hchain.
  assert (new' = new) as -> by (apply (app_inv_head (log st)); congruence).
  destruct (cursor_chain_params _ _ _ _ _ _ Hchain) as [Hall (rq & rest & -> & Hrq)].
  exists rq, rest. split; [assumption|].
  split; [now apply paginator_params_eq in Hrq|].
  apply Forall_forall. intros q Hq.
  destruct (proj1 (Forall_forall _ _) Hall q Hq) as [s Hs].
  apply paginator_params_eq in Hs as [Hget Hparams].
  split; [assumption|]. split; [|eauto].
  exact (proj1 (Forall_forall _ _) Hurls q Hq).
Qed.

(** X22.  With a valid configuration, whenever [pr_list] ends, with a
    listing or with an exception, it has sent at least one request, and
    every request is a GET for the pull-requests path of the repository
    whose query parameters are the state and the direction asked for,
    the page size, and the cursor, 0 in the first request. *)
Theorem pr_list_queries py_repr srv json_dumps fuel environ bb
    project repo state_ direction limit max_items json_out st r st' lines :
  client environ = Ok bb ->
  pr_list py_repr srv json_dumps fuel environ project repo state_ direction
    limit max_items json_out st = Some (r, st', lines) ->
  let query (s : value) : pydict :=
    {[ "limit" := VInt limit; "start" := s;
       "state" := VStr state_; "direction" := VStr direction ]} in
  exists rq rest,
    log st' = log st ++ rq :: rest
    /\ req_params rq = Some (query (VInt 0))
    /\ Forall (fun q =>
                 req_method q = "GET"
                 /\ req_url q
                    = base_rest bb +:+ "/api/latest/projects/" +:+ project
                      +:+ "/repos/" +:+ repo +:+ "/pull-requests"
                 /\ exists s, req_params q = Some (query s))
         (rq :: rest).
Proof.
  intros Hc Hrun query. unfold pr_list in Hrun. rewrite Hc in Hrun.
  unfold alloc in Hrun.
  set (d := ({[ "state" := VStr state_; "direction" := VStr direction ]} : pydict))
    in *.
  set (l := fresh (dom (heap st))) in *.
  set (st0 := {| heap := <[l := d]> (heap st); log := log st |}) in *.
  destruct (paged_get py_repr srv fuel bb (pull_requests_path project repo)
              (Some l) limit max_items st0) as [[res st1]|] eqn:Hpg;
    [|discriminate].
  assert (st1 = st') as ->.
  { destruct res as [prs|e]; [|congruence].
    destruct json_out; [congruence|].
    destruct (_print_prs py_repr prs). congruence. }
  destruct (paged_get_requests py_repr srv fuel bb _ l d limit max_items st0 res st'
              (lookup_insert_eq _ _ _) Hpg)
    as (rq & rest & Hlog & Hfirst & Hall).
  exists rq, rest. split; [exact Hlog|]. split; [exact Hfirst|].
  eapply Forall_impl; [exact Hall|]. intros q (Hget & Hurl & s & Hs).
  split; [assumption|]. split; [|now exists s].
  rewrite Hurl. apply pull_requests_url.
Qed.

Lemma pr_list_queries_witness :
  let srv := serve_pages [mk_page [listed_pr 7 "Add viz panel"] (Some (VBool true)) None] in
  let query (s : value) : pydict :=
    {[ "limit" := VInt 50; "start" := s;
       "state" := VStr "OPEN"; "direction" := VStr "INCOMING" ]} in
  client padded_environ = Ok demo_client
  /\ exists r st' lines,
       pr_list repr_unused srv repr_unused 1 padded_environ "PRJ" "repo" "OPEN"
         "INCOMING" 50 200 false (initial_state ∅) = Some (r, st', lines)
       /\ exists rq rest,
            log st' = rq :: rest
            /\ req_params rq = Some (query (VInt 0))
            /\ Forall (fun q =>
                         req_method q = "GET"
                         /\ req_url q
                            = "https://host/bitbucket/rest/api/latest/projects/PRJ/repos/repo/pull-requests"
                         /\ exists s, req_params q = Some (query s))
                 (rq :: rest).
Proof.
  intros srv query.
  assert (client padded_environ = Ok demo_client) as Hc by reflexivity.
  split; [exact Hc|].
  destruct (pr_list repr_unused srv repr_unused 1 padded_environ "PRJ" "repo" "OPEN"
              "INCOMING" 50 200 false (initial_state ∅)) as [[[r st'] lines]|] eqn:Hrun.
  - exists r, st', lines. split; [reflexivity|].
    apply (pr_list_queries repr_unused srv repr_unused 1 padded_environ demo_client
             "PRJ" "repo" "OPEN" "INCOMING" 50 200 false (initial_state ∅)
             r st' lines Hc Hrun).
  - vm_compute in Hrun. discriminate.
Defined.
